(** * Baileys REST service: connection lifecycle, event journal, webhook queue

    A shallow embedding of [utils/baileys.js] (the service) and of the
    [/events] route of the HTTP layer, with the properties of the
    specification stated over it.

    Conventions of the model.
    - JavaScript numbers that the code uses as counters and status codes
      are integers in the exactly representable range; they are [Z].
      Instants are [Z] milliseconds since the epoch.  The delays, and the
      bases and maxima they are computed from, are binary64 values,
      [Number], with the rounding of each operation written out.
    - JavaScript strings are [string]; a character is a code unit below 256.
    - Closure variables of [createWhatsAppService] and of
      [makeWebhookDispatcher], the files under the data directory, the timer
      table, the console and the calls made to the protocol layer form one
      record, [World]; the code is written in a state and exception monad
      over it.
    - What the code obtains from outside (the clock, [Math.random], the JSON
      and date libraries, the result of a write, of a send, of a QR
      rendering) is read from an environment [Env]; results that differ
      from call to call are indexed by the number of the external call. *)

From Stdlib Require Import ZArith QArith Qround List String Ascii Bool Lia.
From Stdlib Require Import DecimalString.
From Stdlib Require Qcanon.
From Stdlib Require SpecFloat.
Import ListNotations.

Open Scope string_scope.
Open Scope Z_scope.

(** ** JavaScript values and strings *)

#[local] Set Warnings "-register-all".

Inductive JsValue : Type :=
| JUndefined
| JNull
| JBool (b : bool)
| JNum (n : Z)
| JStr (s : string)
| JArr (items : list JsValue)
| JObj (fields : list (string * JsValue)).

(** Truthiness, as used by [!x], [x || y] and [filter(Boolean)]. *)
Definition truthy (v : JsValue) : bool :=
  match v with
  | JUndefined | JNull => false
  | JBool b => b
  | JNum n => negb (n =? 0)
  | JStr s => negb (s =? "")%string
  | JArr _ | JObj _ => true
  end.

(** [typeof v === 'string'] *)
Definition is_string (v : JsValue) : bool :=
  match v with JStr _ => true | _ => false end.

(** [x || y] *)
Definition js_or (x y : JsValue) : JsValue := if truthy x then x else y.

Fixpoint lookup_field (k : string) (fs : list (string * JsValue)) : JsValue :=
  match fs with
  | [] => JUndefined
  | (k', v) :: r => if (k' =? k)%string then v else lookup_field k r
  end.

(** [v.k]: [None] is the TypeError of a property read on [null] or
    [undefined]; primitives and arrays have no such own property. *)
Definition get_prop (v : JsValue) (k : string) : option JsValue :=
  match v with
  | JUndefined | JNull => None
  | JObj fs => Some (lookup_field k fs)
  | _ => Some JUndefined
  end.

(** [v?.k] *)
Definition opt_prop (v : JsValue) (k : string) : JsValue :=
  match get_prop v k with Some x => x | None => JUndefined end.

Definition string_of_Z (n : Z) : string := NilZero.string_of_int (Z.to_int n).

(** [String(v)]; a plain object prints as [[object Object]], an array joins
    its elements with commas, [null] and [undefined] elements printing as
    the empty string.  A number in a value is, by the convention above, an
    integer of magnitude at most [2^53]; it prints in plain decimal (the
    exponent notation of larger numbers, from [10^21] on, and fractions are
    outside the model). *)
Fixpoint toString (v : JsValue) : string :=
  match v with
  | JUndefined => "undefined"
  | JNull => "null"
  | JBool true => "true"
  | JBool false => "false"
  | JNum n => string_of_Z n
  | JStr s => s
  | JArr items =>
      (fix join (l : list JsValue) : string :=
         match l with
         | [] => ""
         | x :: r =>
             let sx := match x with
                       | JUndefined | JNull => ""
                       | _ => toString x
                       end in
             match r with
             | [] => sx
             | _ :: _ => (sx ++ "," ++ join r)%string
             end
         end) items
  | JObj _ => "[object Object]"
  end.

(** White space and line terminators removed by [String.prototype.trim],
    among the code units below 256: TAB, LF, VT, FF, CR, SP, NBSP. *)
Definition is_ws (c : ascii) : bool :=
  let n := N_of_ascii c in
  ((9 <=? n) && (n <=? 13) || (n =? 32) || (n =? 160))%N.

Fixpoint trimStart (s : string) : string :=
  match s with
  | EmptyString => EmptyString
  | String c r => if is_ws c then trimStart r else s
  end.

Fixpoint trimEnd (s : string) : string :=
  match s with
  | EmptyString => EmptyString
  | String c r =>
      match trimEnd r with
      | EmptyString => if is_ws c then EmptyString else String c EmptyString
      | r' => String c r'
      end
  end.

Definition trim (s : string) : string := trimEnd (trimStart s).

Fixpoint all_ws (s : string) : bool :=
  match s with
  | EmptyString => true
  | String c r => is_ws c && all_ws r
  end.

Definition newline : ascii := ascii_of_N 10.

(** [s.split('\n')] *)
Fixpoint split_lines (s : string) : list string :=
  match s with
  | EmptyString => [EmptyString]
  | String c r =>
      if (c =? newline)%char then EmptyString :: split_lines r
      else match split_lines r with
           | h :: t => String c h :: t
           | [] => [String c EmptyString]
           end
  end.

Fixpoint has_newline (s : string) : bool :=
  match s with
  | EmptyString => false
  | String c r => (c =? newline)%char || has_newline r
  end.

Definition nonempty (s : string) : bool := negb (s =? "")%string.

Definition nl : string := String newline EmptyString.

(** ** Numbers *)

(** A Number is an IEEE 754 binary64 value.  A finite one is the rational it
    denotes, in lowest terms; the two zeros are one value (no operation
    below tells them apart in its result). *)
Inductive Number : Type :=
| NaN
| Infinity (negative : bool)
| Finite (q : Q).

(** The Number of an integer that is one. *)
Definition num (z : Z) : Number := Finite (inject_Z z).

(** [2^e <= a / b], for [b > 0]. *)
Definition pow2_le (e a b : Z) : bool :=
  if 0 <=? e then 2 ^ e * b <=? a else b <=? a * 2 ^ (- e).

(** The exponent [e] of the binade of [a / b]: [2^e <= a / b < 2^(e+1)],
    for [a, b > 0]. *)
Definition binade (a b : Z) : Z :=
  let e := Z.log2 a - Z.log2 b in
  if pow2_le e a b then e else e - 1.

(** [2^e <= a / b < 2^(e+1)] *)
Definition in_binade (e a b : Z) : Prop :=
  pow2_le e a b = true /\ pow2_le (e + 1) a b = false.

(** The exponent of the unit in the last place: 53 significant bits, and
    [2^-1074] below the normal range. *)
Definition ulp_exponent (e : Z) : Z := Z.max (e - 52) (-1074).

(** The integer nearest to [p / d], the even one of two that are equally
    near, for [d > 0]. *)
Definition nearest_even (p d : Z) : Z :=
  let f := p / d in
  match 2 * (p mod d) ?= d with
  | Lt => f
  | Gt => f + 1
  | Eq => if Z.even f then f else f + 1
  end.

(** [m * 2^u] *)
Definition scaled (m u : Z) : Q :=
  if 0 <=? u then inject_Z (m * 2 ^ u) else Qred (m # Z.to_pos (2 ^ (- u))).

(** Rounding to the nearest Number, ties to the even significand; a result
    of magnitude [2^1024] or more is infinite.  [m] is the significand of
    the result and [u] the exponent of its last place. *)
Definition round (x : Q) : Number :=
  let a := Z.abs (Qnum x) in
  let b := Zpos (Qden x) in
  if a =? 0 then Finite 0
  else
    let u := ulp_exponent (binade a b) in
    let m := nearest_even (a * 2 ^ Z.max 0 (- u)) (b * 2 ^ Z.max 0 u) in
    if (0 <=? u) && (2 ^ 1024 <=? m * 2 ^ u)
    then Infinity (Qnum x <? 0)
    else Finite (scaled (Z.sgn (Qnum x) * m) u).

Definition is_zero (q : Q) : bool := Qnum q =? 0.

Definition is_negative (q : Q) : bool := Qnum q <? 0.

(** [x * y] *)
Definition Number_mul (x y : Number) : Number :=
  match x, y with
  | NaN, _ | _, NaN => NaN
  | Infinity s, Infinity t => Infinity (xorb s t)
  | Infinity s, Finite q | Finite q, Infinity s =>
      if is_zero q then NaN else Infinity (xorb s (is_negative q))
  | Finite p, Finite q => round (p * q)
  end.

(** [x + y] *)
Definition Number_add (x y : Number) : Number :=
  match x, y with
  | NaN, _ | _, NaN => NaN
  | Infinity s, Infinity t => if Bool.eqb s t then Infinity s else NaN
  | Infinity s, Finite _ | Finite _, Infinity s => Infinity s
  | Finite p, Finite q => round (p + q)
  end.

(** [x > y] *)
Definition Number_gt (x y : Number) : bool :=
  match x, y with
  | NaN, _ | _, NaN => false
  | Infinity s, Infinity t => negb s && t
  | Infinity s, Finite _ => negb s
  | Finite _, Infinity t => t
  | Finite p, Finite q => negb (Qle_bool p q)
  end.

(** [Math.min(x, y)] *)
Definition Math_min (x y : Number) : Number :=
  match x, y with
  | NaN, _ | _, NaN => NaN
  | _, _ => if Number_gt x y then y else x
  end.

(** [Math.floor(x)] *)
Definition Math_floor (x : Number) : Number :=
  match x with
  | Finite q => num (Qfloor q)
  | _ => x
  end.

(** [2 ** k] for an integer [k >= 0] *)
Definition pow2 (k : Z) : Number :=
  if k <=? 1023 then num (2 ^ k) else Infinity false.

(** The Numbers: what rounding leaves as it is. *)
Definition is_Number (q : Q) : Prop := round q = Finite q.

(** *** Comparison with the Standard Library's specification *)

(** The Number a binary64 datum of the Standard Library's specification of
    IEEE 754 denotes. *)
Definition Number_of_spec (f : SpecFloat.spec_float) : Number :=
  match f with
  | SpecFloat.S754_zero _ => Finite 0
  | SpecFloat.S754_infinity s => Infinity s
  | SpecFloat.S754_nan => NaN
  | SpecFloat.S754_finite s m e =>
      Finite (scaled (if s then Z.neg m else Z.pos m) e)
  end.

(** The binary64 datum nearest to [m * 2^e], and sample data: small and
    large integers, fractions, values below the normal range and at the
    edge of the finite range. *)
Definition binary64 (me : Z * Z) : SpecFloat.spec_float :=
  SpecFloat.binary_normalize 53 1024 (fst me) (snd me) false.

Definition binary64_samples : list (Z * Z) :=
  [(0, 0); (1, 0); (200, 0); (8962163258467287, -53); (2 ^ 53 - 1, -53);
   (2 ^ 60, 0); (199, 0); (3, -1074); (2 ^ 53 - 1, 971); (-7, 3);
   (1, 1030)].

Definition same_Number (x y : Number) : bool :=
  match x, y with
  | NaN, NaN => true
  | Infinity s, Infinity t => Bool.eqb s t
  | Finite p, Finite q => (Qnum p =? Qnum q) && (Zpos (Qden p) =? Zpos (Qden q))
  | _, _ => false
  end.

(** On the data of [a] and [b], the product and the sum above are those of
    the specification, and so is the rounding of [a]. *)
Definition agrees (a b : Z * Z) : bool :=
  let x := binary64 a in
  let y := binary64 b in
  let power :=
    if 0 <=? snd a then inject_Z (2 ^ snd a)
    else 1 # Z.to_pos (2 ^ (- snd a)) in
  same_Number (Number_of_spec (SpecFloat.SFmul 53 1024 x y))
    (Number_mul (Number_of_spec x) (Number_of_spec y))
  && same_Number (Number_of_spec (SpecFloat.SFadd 53 1024 x y))
       (Number_add (Number_of_spec x) (Number_of_spec y))
  && same_Number (Number_of_spec x) (round (inject_Z (fst a) * power)).

(** ** The environment of the service *)

(** What is sent through [socket.sendMessage]. *)
Inductive Content : Type :=
| CText (text : string)
| CDocument (base64 fileName mimetype : string)
| CPoll (name : string) (values : list string) (selectableCount : Z).

(** Libraries and outside world.  [None] stands for a thrown exception or a
    rejected promise ([JSON_stringify], [JSON_parse], [toDataURL],
    [sendMessage]) and for [NaN] ([Date_parse]). *)
Record Env : Type := mkEnv {
  now : nat -> string;                       (* new Date().toISOString() *)
  random : nat -> Q;                         (* Math.random() *)
  JSON_stringify : JsValue -> option string;
  JSON_parse : string -> option JsValue;
  Date_parse : string -> option Z;           (* Date.parse, milliseconds *)
  appendFileSync_ok : nat -> bool;           (* does this write succeed *)
  toDataURL : nat -> string -> option string;
  sendMessage : nat -> string -> Content -> option JsValue;
  makeWASocket : nat -> JsValue * bool;      (* user and presence of ws *)
  fetchLatestBaileysVersion_ok : nat -> bool
}.

(** The constants read from [process.env], and the protocol library's
    [DisconnectReason.loggedOut]. *)
Record Config : Type := mkConfig {
  WEBHOOK_URL : string;
  WEBHOOK_MAX_RETRIES : Z;
  WEBHOOK_RETRY_BASE_MS : Number;
  WEBHOOK_RETRY_MAX_MS : Number;
  EVENT_RETENTION : Z;
  RECONNECT_BASE_MS : Number;
  RECONNECT_MAX_MS : Number;
  loggedOut : Z
}.

(** ** State *)

Record Socket : Type := mkSocket {
  sock_id : nat;
  user : JsValue;
  ws : bool
}.

(** A pending [setTimeout] whose callback is [connect(false)]. *)
Record Timer : Type := mkTimer {
  timer_id : nat;
  timer_delay : Number
}.

(** An element of the webhook queue. *)
Record Item : Type := mkItem {
  url : string;
  payload : JsValue;
  attempt : Z;
  enqueuedAt : string
}.

(** Where the coroutine [run] of the dispatcher stands: not running,
    suspended on [await postJson], or suspended on [await sleep(ms)]. *)
Inductive Phase : Type :=
| Idle
| Posting
| Sleeping (ms : Number).

(** Calls that leave the process. *)
Inductive Effect : Type :=
| FsExists
| FsRead
| FsAppend (line : string) (ok : bool)
| HttpPost (dest : string) (body : JsValue)
| WsClose (sid : nat)
| SendMessage (sid : nat) (jid : string) (c : Content)
| MakeSocket (sid : nat).

Record World : Type := mkWorld {
  socket : option Socket;
  connected : bool;
  currentQr : option string;
  currentQrDataUrl : option string;
  qrUpdatedAt : option string;
  reconnectAttempts : Z;
  reconnectTimer : option nat;
  lastDisconnectReason : JsValue;
  me : JsValue;
  eventBuffer : list JsValue;
  queue : list Item;
  phase : Phase;
  events_log : option string;
  auth_dir : list string;
  timers : list Timer;
  next_timer : nat;
  console : list string;
  effects : list Effect;
  tick : nat
}.

Definition set_socket (v : option Socket) (w : World) : World :=
  mkWorld
    v (connected w) (currentQr w) (currentQrDataUrl w) (qrUpdatedAt w)
    (reconnectAttempts w) (reconnectTimer w) (lastDisconnectReason w) (me w)
    (eventBuffer w) (queue w) (phase w) (events_log w) (auth_dir w)
    (timers w) (next_timer w) (console w) (effects w) (tick w).

Definition set_connected (v : bool) (w : World) : World :=
  mkWorld
    (socket w) v (currentQr w) (currentQrDataUrl w) (qrUpdatedAt w)
    (reconnectAttempts w) (reconnectTimer w) (lastDisconnectReason w) (me w)
    (eventBuffer w) (queue w) (phase w) (events_log w) (auth_dir w)
    (timers w) (next_timer w) (console w) (effects w) (tick w).

Definition set_currentQr (v : option string) (w : World) : World :=
  mkWorld
    (socket w) (connected w) v (currentQrDataUrl w) (qrUpdatedAt w)
    (reconnectAttempts w) (reconnectTimer w) (lastDisconnectReason w) (me w)
    (eventBuffer w) (queue w) (phase w) (events_log w) (auth_dir w)
    (timers w) (next_timer w) (console w) (effects w) (tick w).

Definition set_currentQrDataUrl (v : option string) (w : World) : World :=
  mkWorld
    (socket w) (connected w) (currentQr w) v (qrUpdatedAt w)
    (reconnectAttempts w) (reconnectTimer w) (lastDisconnectReason w) (me w)
    (eventBuffer w) (queue w) (phase w) (events_log w) (auth_dir w)
    (timers w) (next_timer w) (console w) (effects w) (tick w).

Definition set_qrUpdatedAt (v : option string) (w : World) : World :=
  mkWorld
    (socket w) (connected w) (currentQr w) (currentQrDataUrl w) v
    (reconnectAttempts w) (reconnectTimer w) (lastDisconnectReason w) (me w)
    (eventBuffer w) (queue w) (phase w) (events_log w) (auth_dir w)
    (timers w) (next_timer w) (console w) (effects w) (tick w).

Definition set_reconnectAttempts (v : Z) (w : World) : World :=
  mkWorld
    (socket w) (connected w) (currentQr w) (currentQrDataUrl w)
    (qrUpdatedAt w) v (reconnectTimer w) (lastDisconnectReason w) (me w)
    (eventBuffer w) (queue w) (phase w) (events_log w) (auth_dir w)
    (timers w) (next_timer w) (console w) (effects w) (tick w).

Definition set_reconnectTimer (v : option nat) (w : World) : World :=
  mkWorld
    (socket w) (connected w) (currentQr w) (currentQrDataUrl w)
    (qrUpdatedAt w) (reconnectAttempts w) v (lastDisconnectReason w) (me w)
    (eventBuffer w) (queue w) (phase w) (events_log w) (auth_dir w)
    (timers w) (next_timer w) (console w) (effects w) (tick w).

Definition set_lastDisconnectReason (v : JsValue) (w : World) : World :=
  mkWorld
    (socket w) (connected w) (currentQr w) (currentQrDataUrl w)
    (qrUpdatedAt w) (reconnectAttempts w) (reconnectTimer w) v (me w)
    (eventBuffer w) (queue w) (phase w) (events_log w) (auth_dir w)
    (timers w) (next_timer w) (console w) (effects w) (tick w).

Definition set_me (v : JsValue) (w : World) : World :=
  mkWorld
    (socket w) (connected w) (currentQr w) (currentQrDataUrl w)
    (qrUpdatedAt w) (reconnectAttempts w) (reconnectTimer w)
    (lastDisconnectReason w) v (eventBuffer w) (queue w) (phase w)
    (events_log w) (auth_dir w) (timers w) (next_timer w) (console w)
    (effects w) (tick w).

Definition set_eventBuffer (v : list JsValue) (w : World) : World :=
  mkWorld
    (socket w) (connected w) (currentQr w) (currentQrDataUrl w)
    (qrUpdatedAt w) (reconnectAttempts w) (reconnectTimer w)
    (lastDisconnectReason w) (me w) v (queue w) (phase w) (events_log w)
    (auth_dir w) (timers w) (next_timer w) (console w) (effects w) (tick w).

Definition set_queue (v : list Item) (w : World) : World :=
  mkWorld
    (socket w) (connected w) (currentQr w) (currentQrDataUrl w)
    (qrUpdatedAt w) (reconnectAttempts w) (reconnectTimer w)
    (lastDisconnectReason w) (me w) (eventBuffer w) v (phase w)
    (events_log w) (auth_dir w) (timers w) (next_timer w) (console w)
    (effects w) (tick w).

Definition set_phase (v : Phase) (w : World) : World :=
  mkWorld
    (socket w) (connected w) (currentQr w) (currentQrDataUrl w)
    (qrUpdatedAt w) (reconnectAttempts w) (reconnectTimer w)
    (lastDisconnectReason w) (me w) (eventBuffer w) (queue w) v
    (events_log w) (auth_dir w) (timers w) (next_timer w) (console w)
    (effects w) (tick w).

Definition set_events_log (v : option string) (w : World) : World :=
  mkWorld
    (socket w) (connected w) (currentQr w) (currentQrDataUrl w)
    (qrUpdatedAt w) (reconnectAttempts w) (reconnectTimer w)
    (lastDisconnectReason w) (me w) (eventBuffer w) (queue w) (phase w) v
    (auth_dir w) (timers w) (next_timer w) (console w) (effects w) (tick w).

Definition set_auth_dir (v : list string) (w : World) : World :=
  mkWorld
    (socket w) (connected w) (currentQr w) (currentQrDataUrl w)
    (qrUpdatedAt w) (reconnectAttempts w) (reconnectTimer w)
    (lastDisconnectReason w) (me w) (eventBuffer w) (queue w) (phase w)
    (events_log w) v (timers w) (next_timer w) (console w) (effects w)
    (tick w).

Definition set_timers (v : list Timer) (w : World) : World :=
  mkWorld
    (socket w) (connected w) (currentQr w) (currentQrDataUrl w)
    (qrUpdatedAt w) (reconnectAttempts w) (reconnectTimer w)
    (lastDisconnectReason w) (me w) (eventBuffer w) (queue w) (phase w)
    (events_log w) (auth_dir w) v (next_timer w) (console w) (effects w)
    (tick w).

Definition set_next_timer (v : nat) (w : World) : World :=
  mkWorld
    (socket w) (connected w) (currentQr w) (currentQrDataUrl w)
    (qrUpdatedAt w) (reconnectAttempts w) (reconnectTimer w)
    (lastDisconnectReason w) (me w) (eventBuffer w) (queue w) (phase w)
    (events_log w) (auth_dir w) (timers w) v (console w) (effects w) (tick w).

Definition set_console (v : list string) (w : World) : World :=
  mkWorld
    (socket w) (connected w) (currentQr w) (currentQrDataUrl w)
    (qrUpdatedAt w) (reconnectAttempts w) (reconnectTimer w)
    (lastDisconnectReason w) (me w) (eventBuffer w) (queue w) (phase w)
    (events_log w) (auth_dir w) (timers w) (next_timer w) v (effects w)
    (tick w).

Definition set_effects (v : list Effect) (w : World) : World :=
  mkWorld
    (socket w) (connected w) (currentQr w) (currentQrDataUrl w)
    (qrUpdatedAt w) (reconnectAttempts w) (reconnectTimer w)
    (lastDisconnectReason w) (me w) (eventBuffer w) (queue w) (phase w)
    (events_log w) (auth_dir w) (timers w) (next_timer w) (console w) v
    (tick w).

Definition set_tick (v : nat) (w : World) : World :=
  mkWorld
    (socket w) (connected w) (currentQr w) (currentQrDataUrl w)
    (qrUpdatedAt w) (reconnectAttempts w) (reconnectTimer w)
    (lastDisconnectReason w) (me w) (eventBuffer w) (queue w) (phase w)
    (events_log w) (auth_dir w) (timers w) (next_timer w) (console w)
    (effects w) v.

Arguments set_socket v w /.
Arguments set_connected v w /.
Arguments set_currentQr v w /.
Arguments set_currentQrDataUrl v w /.
Arguments set_qrUpdatedAt v w /.
Arguments set_reconnectAttempts v w /.
Arguments set_reconnectTimer v w /.
Arguments set_lastDisconnectReason v w /.
Arguments set_me v w /.
Arguments set_eventBuffer v w /.
Arguments set_queue v w /.
Arguments set_phase v w /.
Arguments set_events_log v w /.
Arguments set_auth_dir v w /.
Arguments set_timers v w /.
Arguments set_next_timer v w /.
Arguments set_console v w /.
Arguments set_effects v w /.
Arguments set_tick v w /.

(** The flag [running] of the dispatcher. *)
Definition running (w : World) : bool :=
  match phase w with Idle => false | _ => true end.

Definition initial_world : World :=
  mkWorld None false None None None 0 None JNull JNull [] [] Idle None []
    [] 0%nat [] [] 0%nat.

(** ** Exceptions and the monad of the code *)

Record Error : Type := mkError {
  message : string;
  statusCode : option Z
}.

Inductive Outcome (A : Type) : Type :=
| Return (a : A)
| Throw (e : Error).
Arguments Return {A} a.
Arguments Throw {A} e.

Definition M (A : Type) : Type := World -> Outcome A * World.

Definition ret {A} (a : A) : M A := fun w => (Return a, w).

Definition bind {A B} (c : M A) (k : A -> M B) : M B :=
  fun w =>
    match c w with
    | (Return a, w') => k a w'
    | (Throw e, w') => (Throw e, w')
    end.

Definition throw {A} (e : Error) : M A := fun w => (Throw e, w).

Definition try_catch {A} (c : M A) (h : Error -> M A) : M A :=
  fun w =>
    match c w with
    | (Return a, w') => (Return a, w')
    | (Throw e, w') => h e w'
    end.

Definition gets {A} (f : World -> A) : M A := fun w => (Return (f w), w).

Definition modify (f : World -> World) : M unit := fun w => (Return tt, f w).

Definition when (b : bool) (c : M unit) : M unit := if b then c else ret tt.

Declare Scope monad_scope.
Delimit Scope monad_scope with monad.
Notation "x <- c ;; k" := (bind c (fun x => k))
  (at level 61, c at next level, right associativity) : monad_scope.
Notation "c ;; k" := (bind c (fun _ => k))
  (at level 61, right associativity) : monad_scope.
Open Scope monad_scope.

(** The world after a computation, and its result. *)
Definition exec {A} (c : M A) (w : World) : World := snd (c w).
Definition result {A} (c : M A) (w : World) : Outcome A := fst (c w).

(** [log(message, extra)]: the message is kept, [extra] is not. *)
Definition log (msg : string) : M unit :=
  modify (fun w => set_console (console w ++ [msg]) w).

Definition emit (e : Effect) : M unit :=
  modify (fun w => set_effects (effects w ++ [e]) w).

(** The number of the next external call; reading it consumes it. *)
Definition next_call : M nat :=
  fun w => (Return (tick w), set_tick (S (tick w)) w).

Definition badRequest (msg : string) : Error := mkError msg (Some 400).

(** ** A small environment

    Used to run the model on concrete inputs: a date is written as its
    milliseconds in decimal, and the JSON codec prints an object whose first
    field is a string as that string. *)

Definition demo_stringify (v : JsValue) : option string :=
  match v with
  | JObj ((_, JStr ts) :: _) => Some ts
  | _ => None
  end.

Definition demo_parse (s : string) : option JsValue :=
  match NilZero.int_of_string s with
  | Some _ => Some (JObj [("timestamp", JStr s)])
  | None => None
  end.

Definition demo_date (s : string) : option Z :=
  option_map Z.of_int (NilZero.int_of_string s).

Definition demo_env : Env :=
  mkEnv (fun _ => "1000") (fun _ => 1 # 2)%Q demo_stringify demo_parse demo_date
    (fun _ => true) (fun _ q => Some ("data:" ++ q)%string)
    (fun _ _ _ => Some (JObj [("key", JObj [("id", JStr "3EB0")])]))
    (fun _ => (JObj [("id", JStr "15550001111@s.whatsapp.net")], true))
    (fun _ => true).

Definition demo_cfg : Config :=
  mkConfig "http://localhost:9000/hook" 8 (num 1000) (num 30000) 2000
    (num 1500) (num 30000) 401.


Definition rejecting_env : Env :=
  mkEnv (now demo_env) (random demo_env) demo_stringify demo_parse demo_date
    (appendFileSync_ok demo_env) (toDataURL demo_env) (fun _ _ _ => None)
    (makeWASocket demo_env) (fetchLatestBaileysVersion_ok demo_env).

(** A service with an open session, and a webhook queue with one item
    being delivered. *)
Definition open_world : World :=
  set_connected true (set_socket (Some (mkSocket 0 JNull true)) initial_world).

Definition posting_world : World :=
  set_phase Posting
    (set_queue [mkItem "http://localhost:9000/hook" (JStr "a") 0 "1000"]
       initial_world).

Section Service.

Variable env : Env.
Variable cfg : Config.

(** ** Dates *)

Definition timeClip (t : Z) : option Z :=
  if Z.abs t <=? 8640000000000000 then Some t else None.

(** [new Date(v).getTime()], [None] for [NaN]. *)
Definition newDate (v : JsValue) : option Z :=
  match v with
  | JUndefined => None
  | JNull => Some 0
  | JBool b => Some (if b then 1 else 0)
  | JNum n => timeClip n
  | JStr s => Date_parse env s
  | JArr _ | JObj _ => Date_parse env (toString v)
  end.

(** The three shapes [parseDateInput] returns: [{ value: null }],
    [{ error }] and [{ value: date }]. *)
Inductive DateInput : Type :=
| NoDate
| InvalidDate (error : string)
| ValidDate (value : Z).

Definition dateError (d : DateInput) : option string :=
  match d with InvalidDate e => Some e | _ => None end.

Definition dateValue (d : DateInput) : option Z :=
  match d with ValidDate t => Some t | _ => None end.

(** [value === undefined || value === null || value === ''] *)
Definition is_blank (v : JsValue) : bool :=
  match v with
  | JUndefined | JNull => true
  | JStr s => (s =? "")%string
  | _ => false
  end.

Definition parseDateInput (value : JsValue) (key : string) : DateInput :=
  if is_blank value then NoDate
  else match Date_parse env (toString value) with
       | None =>
           InvalidDate ("Invalid " ++ key ++ ". Use a valid ISO date string.")
       | Some t => ValidDate t
       end.

(** ** Backoff *)

(** [Math.floor(Math.random() * 200)] for the value [r] of [Math.random()]. *)
Definition jitter (r : Q) : Number :=
  Math_floor (Number_mul (Finite r) (num 200)).

(** The attempt number is a counter, an integer; so is
    [Math.max(0, attempt - 1)]. *)
Definition backoffMs (r : Q) (attempt : Z) (baseMs maxMs : Number) : Number :=
  let raw := Number_mul baseMs (pow2 (Z.max 0 (attempt - 1))) in
  Math_min maxMs (Number_add raw (jitter r)).

(** ** Event journal *)

Definition appended (file : option string) (line : string) : option string :=
  match file with
  | Some content => Some (content ++ line)%string
  | None => Some line
  end.

Definition appendEvent (event : JsValue) : M unit :=
  try_catch
    (match JSON_stringify env event with
     | None => throw (mkError "JSON.stringify failed" None)
     | Some s =>
         let line := (s ++ nl)%string in
         k <- next_call ;;
         let ok := appendFileSync_ok env k in
         emit (FsAppend line ok) ;;
         if ok
         then modify (fun w => set_events_log (appended (events_log w) line) w)
         else throw (mkError "appendFileSync failed" None)
     end)
    (fun _ => log "Failed to append event log").

(** One turn of the loop over the rows: the parsed row when it is kept,
    [None] when the row is corrupt, has no valid date or is out of range. *)
Definition row_event (startDate endDate : Z) (row : string) : option JsValue :=
  match JSON_parse env row with
  | None => None
  | Some parsed =>
      match get_prop parsed "timestamp" with
      | None => None
      | Some tsv =>
          match newDate tsv with
          | None => None
          | Some ts =>
              if (startDate <=? ts) && (ts <=? endDate) then Some parsed
              else None
          end
      end
  end.

Fixpoint scan_rows (startDate endDate : Z) (rows : list string)
  (events : list JsValue) : list JsValue :=
  match rows with
  | [] => events
  | row :: rest =>
      match row_event startDate endDate row with
      | Some parsed => scan_rows startDate endDate rest (events ++ [parsed])
      | None => scan_rows startDate endDate rest events
      end
  end.

(** The journal, when it exists, reads back as it was written.  A read
    that fails is not modelled: [fs.readFileSync] is outside the [try], so
    the promise would be rejected. *)
Definition readEventsBetween (startDate endDate : Z) : M (list JsValue) :=
  emit FsExists ;;
  file <- gets events_log ;;
  match file with
  | None => ret []
  | Some content =>
      emit FsRead ;;
      let rows := filter nonempty (split_lines content) in
      ret (scan_rows startDate endDate rows [])
  end.

(** ** The [/events] route *)

Inductive Body : Type :=
| ErrorBody (msg : string)
| EventsBody (count : Z) (events : list JsValue).

Record Response : Type := mkResponse {
  status : Z;
  body : Body
}.

Definition events_route (start_date end_date : JsValue) : M Response :=
  let startDate := parseDateInput start_date "start_date" in
  let endDate := parseDateInput end_date "end_date" in
  match dateError startDate, dateError endDate with
  | Some m, _ => ret (mkResponse 400 (ErrorBody m))
  | None, Some m => ret (mkResponse 400 (ErrorBody m))
  | None, None =>
      match dateValue startDate, dateValue endDate with
      | Some s, Some e =>
          if e <? s
          then ret (mkResponse 400
                 (ErrorBody "start_date must be less than or equal to end_date."))
          else
            events <- readEventsBetween s e ;;
            ret (mkResponse 200
                   (EventsBody (Z.of_nat (List.length events)) events))
      | _, _ =>
          ret (mkResponse 400
                 (ErrorBody "Both start_date and end_date are required query params."))
      end
  end.

(** ** Webhook dispatcher *)

(** The test of the [while] loop of [run]: with an empty queue the loop
    ends and [running] becomes false; otherwise [postJson] is called for the
    head and the coroutine waits for it. *)
Definition loop_head : M unit :=
  q <- gets queue ;;
  match q with
  | [] => modify (set_phase Idle)
  | item :: _ =>
      emit (HttpPost (url item) (payload item)) ;;
      modify (set_phase Posting)
  end.

Definition run : M unit :=
  r <- gets running ;;
  if r then ret tt else loop_head.

Definition enqueue (event : JsValue) : M unit :=
  if (WEBHOOK_URL cfg =? "")%string then ret tt
  else
    k <- next_call ;;
    modify (fun w =>
      set_queue (queue w ++ [mkItem (WEBHOOK_URL cfg) event 0 (now env k)]) w) ;;
    run.

(** [queue.shift()] *)
Definition shift : M unit := modify (fun w => set_queue (tl (queue w)) w).

(** [run] resumes after [postJson] returned. *)
Definition post_resolved : M unit := shift ;; loop_head.

(** [item.attempt = a] *)
Definition with_attempt (a : Z) (item : Item) : Item :=
  mkItem (url item) (payload item) a (enqueuedAt item).

(** [run] resumes in the [catch] block after [postJson] threw. *)
Definition post_rejected : M unit :=
  q <- gets queue ;;
  match q with
  | [] => ret tt
  | item :: rest =>
      let a := attempt item + 1 in
      modify (set_queue (with_attempt a item :: rest)) ;;
      if WEBHOOK_MAX_RETRIES cfg <? a
      then
        log "Webhook dropped after max retries" ;;
        shift ;;
        loop_head
      else
        k <- next_call ;;
        let delay := backoffMs (random env k) a
                       (WEBHOOK_RETRY_BASE_MS cfg) (WEBHOOK_RETRY_MAX_MS cfg) in
        log "Webhook failed, retrying" ;;
        modify (set_phase (Sleeping delay))
  end.

(** What wakes the suspended coroutine. *)
Inductive Wake : Type :=
| PostOk
| PostFailed
| SleepOver.

Definition resume (e : Wake) : M unit :=
  ph <- gets phase ;;
  match ph, e with
  | Posting, PostOk => post_resolved
  | Posting, PostFailed => post_rejected
  | Sleeping _, SleepOver => loop_head
  | _, _ => ret tt
  end.

Fixpoint resume_all (es : list Wake) : M unit :=
  match es with
  | [] => ret tt
  | e :: r => resume e ;; resume_all r
  end.

(** [n] failed deliveries, each followed by the end of its backoff sleep. *)
Fixpoint failures (n : nat) : list Wake :=
  match n with
  | O => []
  | S k => PostFailed :: SleepOver :: failures k
  end.

(** ** Connection lifecycle *)

Definition mkEvent (ts eventType : string) (data : JsValue) : JsValue :=
  JObj [("timestamp", JStr ts); ("eventType", JStr eventType);
        ("payload", data)].

Definition retained (buffer : list JsValue) : list JsValue :=
  if EVENT_RETENTION cfg <? Z.of_nat (List.length buffer) then tl buffer
  else buffer.

Definition pushEvent (eventType : string) (data : JsValue) : M unit :=
  k <- next_call ;;
  let event := mkEvent (now env k) eventType data in
  modify (fun w => set_eventBuffer (retained (eventBuffer w ++ [event])) w) ;;
  appendEvent event ;;
  enqueue event.

(** [clearTimeout(id)] *)
Definition clearTimeout (id : nat) : M unit :=
  modify (fun w =>
    set_timers (filter (fun t => negb (timer_id t =? id)%nat) (timers w)) w).

(** [setTimeout(() => connect(false)..., delay)] *)
Definition setTimeout (delay : Number) : M nat :=
  id <- gets next_timer ;;
  modify (fun w =>
    set_next_timer (S id) (set_timers (timers w ++ [mkTimer id delay]) w)) ;;
  ret id.

(** [if (reconnectTimer) { clearTimeout(reconnectTimer); reconnectTimer = null; }] *)
Definition clearReconnectTimer : M unit :=
  rt <- gets reconnectTimer ;;
  match rt with
  | Some id => clearTimeout id ;; modify (set_reconnectTimer None)
  | None => ret tt
  end.

Definition resetAuthState : M unit :=
  modify (set_auth_dir []) ;;
  log "Auth state reset completed".

(** [useMultiFileAuthState] and the registration of the handlers leave the
    modelled state as it is; a failure of the version lookup is logged and
    ignored.  Failures of the file system and of [makeWASocket] are not
    modelled. *)
Definition connect (forceNewLogin : bool) : M unit :=
  clearReconnectTimer ;;
  when forceNewLogin resetAuthState ;;
  k <- next_call ;;
  when (negb (fetchLatestBaileysVersion_ok env k))
    (log "Failed to fetch latest Baileys version, using default") ;;
  sid <- next_call ;;
  emit (MakeSocket sid) ;;
  modify (set_socket
            (Some (mkSocket sid (fst (makeWASocket env sid))
                     (snd (makeWASocket env sid))))).

Inductive Connection : Type :=
| ConnOpen
| ConnClose
| ConnConnecting.

(** A [connection.update]; [lastDisconnect_statusCode] is
    [lastDisconnect?.error?.output?.statusCode], [None] for [undefined]. *)
Record Update : Type := mkUpdate {
  connection : option Connection;
  lastDisconnect_statusCode : option Z;
  qr : option string
}.

Definition is_open (u : Update) : bool :=
  match connection u with Some ConnOpen => true | _ => false end.

Definition is_close (u : Update) : bool :=
  match connection u with Some ConnClose => true | _ => false end.

Definition js_of_code (c : option Z) : JsValue :=
  match c with Some n => JNum n | None => JUndefined end.

Definition js_of_string (s : option string) : JsValue :=
  match s with Some x => JStr x | None => JNull end.

(** [statusCode !== DisconnectReason.loggedOut] *)
Definition shouldReconnect (statusCode : option Z) : bool :=
  match statusCode with
  | Some c => negb (c =? loggedOut cfg)
  | None => true
  end.

(** The QR part of the handler, up to [await qrcode.toDataURL(qr)]: the
    code and the time are stored and the rendering is requested; the result
    is the number of the request. *)
Definition on_qr_begin (q : string) : M nat :=
  modify (set_currentQr (Some q)) ;;
  k <- next_call ;;
  modify (set_qrUpdatedAt (Some (now env k))) ;;
  next_call.

(** The QR part of the handler from the [await] on, once the rendering has
    settled: [qrUpdatedAt] is read here, from the state as it then is. *)
Definition on_qr_resume (q : string) (k' : nat) : M unit :=
  modify (set_currentQrDataUrl (toDataURL env k' q)) ;;
  log "QR updated, scan required" ;;
  at_ <- gets qrUpdatedAt ;;
  pushEvent "auth.qr.updated" (JObj [("qrUpdatedAt", js_of_string at_)]).

(** The QR part when nothing else runs while the handler is suspended. *)
Definition on_qr (q : string) : M unit :=
  k' <- on_qr_begin q ;;
  on_qr_resume q k'.

Definition socket_user (s : option Socket) : JsValue :=
  match s with Some so => user so | None => JUndefined end.

Definition on_open : M unit :=
  modify (set_connected true) ;;
  modify (set_reconnectAttempts 0) ;;
  modify (set_lastDisconnectReason JNull) ;;
  modify (set_currentQr None) ;;
  modify (set_currentQrDataUrl None) ;;
  modify (set_qrUpdatedAt None) ;;
  s <- gets socket ;;
  modify (set_me (js_or (socket_user s) JNull)) ;;
  m <- gets me ;;
  log "WhatsApp connected" ;;
  pushEvent "connection.open" (JObj [("me", m)]).

Definition on_close (statusCode : option Z) : M unit :=
  modify (set_connected false) ;;
  modify (set_lastDisconnectReason
            (js_or (js_of_code statusCode) (JStr "unknown"))) ;;
  let should := shouldReconnect statusCode in
  log "WhatsApp disconnected" ;;
  pushEvent "connection.close"
    (JObj [("statusCode", js_of_code statusCode);
           ("shouldReconnect", JBool should)]) ;;
  when should
    (modify (fun w => set_reconnectAttempts (reconnectAttempts w + 1) w) ;;
     a <- gets reconnectAttempts ;;
     k <- next_call ;;
     let delay := backoffMs (random env k) a
                    (RECONNECT_BASE_MS cfg) (RECONNECT_MAX_MS cfg) in
     log "Scheduling reconnect" ;;
     id <- setTimeout delay ;;
     modify (set_reconnectTimer (Some id))).

(** [if (qr) { ... }] *)
Definition on_qr_update (u : Update) : M unit :=
  match qr u with
  | Some q => when (nonempty q) (on_qr q)
  | None => ret tt
  end.

(** The handler of [connection.update]. *)
Definition on_connection_update (u : Update) : M unit :=
  on_qr_update u ;;
  when (is_open u) on_open ;;
  when (is_close u) (on_close (lastDisconnect_statusCode u)).

Definition pending (id : nat) (w : World) : bool :=
  existsb (fun t => (timer_id t =? id)%nat) (timers w).

(** The timer [id] expires: its callback runs [connect(false)] and logs a
    failure.  A timer that is no longer in the table does not run. *)
Definition fire_timer (id : nat) : M unit :=
  p <- gets (pending id) ;;
  if p
  then
    clearTimeout id ;;
    try_catch (connect false) (fun _ => log "Reconnect attempt failed")
  else ret tt.

Definition notConnected : Error :=
  mkError
    "WhatsApp is not connected. Authenticate first and wait for connection.open."
    (Some 503).

Definition ensureConnected : M unit :=
  s <- gets socket ;;
  c <- gets connected ;;
  match s with
  | Some _ => if c then ret tt else throw notConnected
  | None => throw notConnected
  end.

(** ** Service facade *)


Definition stop : M unit :=
  clearReconnectTimer ;;
  s <- gets socket ;;
  match s with
  | Some so => when (ws so) (emit (WsClose (sock_id so)))
  | None => ret tt
  end ;;
  modify (set_socket None) ;;
  modify (set_connected false) ;;
  log "WhatsApp service stopped".

Definition normalizeTarget (target : JsValue) : M string :=
  if negb (truthy target) || negb (is_string target)
  then throw (badRequest "target is required and must be a WhatsApp JID string.")
  else ret (trim (toString target)).

Definition throwBadRequest (msg : string) : M unit := throw (badRequest msg).

(** [!v || typeof v !== 'string'] *)
Definition not_a_string (v : JsValue) : bool :=
  negb (truthy v) || negb (is_string v).

(** [socket.sendMessage(jid, content)] on the current socket. *)
Definition socket_sendMessage (jid : string) (c : Content) : M JsValue :=
  s <- gets socket ;;
  match s with
  | None => throw (mkError "Cannot read properties of null" None)
  | Some so =>
      k <- next_call ;;
      emit (SendMessage (sock_id so) jid c) ;;
      match sendMessage env k jid c with
      | Some sent => ret sent
      | None => throw (mkError "sendMessage rejected" None)
      end
  end.

Definition sendText (target msg : JsValue) : M JsValue :=
  jid <- normalizeTarget target ;;
  when (not_a_string msg)
    (throwBadRequest "message is required and must be a string.") ;;
  ensureConnected ;;
  sent <- socket_sendMessage jid (CText (toString msg)) ;;
  pushEvent "send.text" (JObj [("jid", JStr jid); ("sent", sent)]) ;;
  ret (JObj [("jid", JStr jid); ("sent", sent)]).

Definition sendMedia (target base64 filename mimetype : JsValue) : M JsValue :=
  jid <- normalizeTarget target ;;
  when (not_a_string base64)
    (throwBadRequest "base64 is required and must be a base64 string.") ;;
  when (not_a_string filename)
    (throwBadRequest "filename is required and must be a string.") ;;
  when (not_a_string mimetype)
    (throwBadRequest "mimetype is required and must be a string.") ;;
  ensureConnected ;;
  sent <- socket_sendMessage jid
            (CDocument (toString base64) (toString filename)
               (toString mimetype)) ;;
  pushEvent "send.media"
    (JObj [("jid", JStr jid); ("fileName", filename); ("mimetype", mimetype);
           ("messageId", opt_prop (opt_prop sent "key") "id")]) ;;
  ret (JObj [("jid", JStr jid); ("fileName", filename);
             ("mimetype", mimetype); ("sent", sent)]).

(** [Array.isArray(v)] and the elements of an array. *)
Definition isArray (v : JsValue) : bool :=
  match v with JArr _ => true | _ => false end.

Definition array_items (v : JsValue) : list JsValue :=
  match v with JArr l => l | _ => [] end.

(** [pollOptions.map((option) => String(option).trim()).filter(Boolean)] *)
Definition poll_options (pollOptions : JsValue) : list string :=
  filter nonempty (map (fun option => trim (toString option))
                     (array_items pollOptions)).

Definition sendPoll (target pollText pollOptions : JsValue) : M JsValue :=
  jid <- normalizeTarget target ;;
  when (not_a_string pollText)
    (throwBadRequest "pollText is required and must be a string.") ;;
  when (negb (isArray pollOptions)
        || (Z.of_nat (List.length (array_items pollOptions)) <? 2))
    (throwBadRequest
       "pollOptions is required and must be an array with at least 2 options.") ;;
  ensureConnected ;;
  let options := poll_options pollOptions in
  when (Z.of_nat (List.length options) <? 2)
    (throwBadRequest "pollOptions must contain at least 2 non-empty options.") ;;
  sent <- socket_sendMessage jid (CPoll (toString pollText) options 1) ;;
  pushEvent "send.poll"
    (JObj [("jid", JStr jid); ("pollText", pollText);
           ("options", JArr (map JStr options));
           ("messageId", opt_prop (opt_prop sent "key") "id")]) ;;
  ret (JObj [("jid", JStr jid); ("pollText", pollText);
             ("options", JArr (map JStr options)); ("sent", sent)]).

(** ** Auxiliary notions for the statements *)

(** The fields an emission may change: the buffer, the journal, the webhook
    queue and its coroutine, the console, the calls made, the call counter. *)
Definition emission (b : list JsValue) (l : option string) (q : list Item)
  (p : Phase) (c : list string) (e : list Effect) (t : nat) (w : World) : World :=
  set_eventBuffer b (set_events_log l (set_queue q (set_phase p
    (set_console c (set_effects e (set_tick t w)))))).

(** The shape checks of [sendPoll] that precede [ensureConnected]. *)
Definition poll_shape_ok (target pollText pollOptions : JsValue) : bool :=
  negb (not_a_string target) && negb (not_a_string pollText)
  && isArray pollOptions
  && (2 <=? Z.of_nat (List.length (array_items pollOptions))).

(** Between [w] and [w'] exactly one event, of type [eventType] and payload
    [data], went to the three places [pushEvent] feeds: the retained buffer
    received it; the journal received its line, or nothing when the line
    could not be produced or written; the webhook queue received one item
    carrying it, or nothing when no destination is configured. *)
Definition emits_one (eventType : string) (data : JsValue) (w w' : World) : Prop :=
  let event := mkEvent (now env (tick w)) eventType data in
  eventBuffer w' = retained (eventBuffer w ++ [event]) /\
  (events_log w' = events_log w \/
   exists s, JSON_stringify env event = Some s /\
             events_log w' = appended (events_log w) (s ++ nl)%string) /\
  (WEBHOOK_URL cfg = "" -> queue w' = queue w) /\
  (WEBHOOK_URL cfg <> "" ->
   exists t, queue w' = (queue w ++ [mkItem (WEBHOOK_URL cfg) event 0 t])%list).

(** The content of a journal file made of these lines. *)
Fixpoint journal_text (lines : list string) : string :=
  match lines with
  | [] => ""
  | l :: r => (l ++ nl ++ journal_text r)%string
  end.

(** The instant of a parsed row: [new Date(parsed.timestamp)] when the
    property read does not throw and the date is valid. *)
Definition event_time (parsed : JsValue) : option Z :=
  match get_prop parsed "timestamp" with
  | Some tsv => newDate tsv
  | None => None
  end.

Definition in_range (startDate endDate : Z) (event : JsValue) : bool :=
  match event_time event with
  | Some ts => (startDate <=? ts) && (ts <=? endDate)
  | None => false
  end.

(** A row without a usable instant: it does not parse, or its time stamp
    cannot be read or is not a date. *)
Definition corrupt (row : string) : Prop :=
  match JSON_parse env row with
  | Some parsed => event_time parsed = None
  | None => True
  end.

(** The rows a scan keeps, in order. *)
Fixpoint kept (startDate endDate : Z) (rows : list string) : list JsValue :=
  match rows with
  | [] => []
  | row :: rest =>
      match row_event startDate endDate row with
      | Some parsed => parsed :: kept startDate endDate rest
      | None => kept startDate endDate rest
      end
  end.

(** An event whose line is one non-empty line of text that parses back to
    the event. *)
Definition well_formed (event : JsValue) : Prop :=
  exists line,
    JSON_stringify env event = Some line /\
    JSON_parse env line = Some event /\
    has_newline line = false /\ line <> "".

(** [appendEvent] for each event in turn. *)
Fixpoint append_all (events : list JsValue) : M unit :=
  match events with
  | [] => ret tt
  | event :: rest => appendEvent event ;; append_all rest
  end.

(** Every pending reconnect timer is the one [reconnectTimer] holds. *)
Definition timers_tracked (w : World) : bool :=
  forallb (fun t => match reconnectTimer w with
                    | Some id => (timer_id t =? id)%nat
                    | None => false
                    end) (timers w).

(** What [stop] sends to the session it closes. *)
Definition closing (s : option Socket) : list Effect :=
  match s with
  | Some so => if ws so then [WsClose (sock_id so)] else []
  | None => []
  end.

(** The text of the journal, empty when the file is missing. *)
Definition content_of (file : option string) : string :=
  match file with Some content => content | None => "" end.

(** ** The other handlers of the socket *)










(** ** The snapshot and the routes that read it *)

(** [Boolean(s)] and the JSON of a nullable string. *)
Definition has_text (s : option string) : bool :=
  match s with Some x => nonempty x | None => false end.

Definition getState : M JsValue :=
  w <- gets (fun w => w) ;;
  ret (JObj [("connected", JBool (connected w));
             ("currentQr", js_of_string (currentQr w));
             ("currentQrDataUrl", js_of_string (currentQrDataUrl w));
             ("qrUpdatedAt", js_of_string (qrUpdatedAt w));
             ("reconnectAttempts", JNum (reconnectAttempts w));
             ("lastDisconnectReason", lastDisconnectReason w);
             ("me", me w);
             ("webhookQueueSize", JNum (Z.of_nat (List.length (queue w))))]).

(** What a route sends: [res.status(s).json(v)]. *)
Record Reply : Type := mkReply {
  reply_status : Z;
  reply_json : JsValue
}.

(** [truthy] of a property of the snapshot. *)
Definition state_truthy (state : JsValue) (k : string) : bool :=
  truthy (opt_prop state k).

(** [GET /health]; the field [now] of the answer is left out. *)
Definition health_route : M Reply :=
  state <- getState ;;
  ret (mkReply 200
         (JObj [("ok", JBool true);
                ("service", JStr "baileys-rest-service");
                ("whatsapp",
                 JObj [("connected", opt_prop state "connected");
                       ("lastDisconnectReason",
                        opt_prop state "lastDisconnectReason");
                       ("reconnectAttempts", opt_prop state "reconnectAttempts");
                       ("hasQr", JBool (state_truthy state "currentQr"));
                       ("me", opt_prop state "me")])])).

(** [GET /auth/qr] *)
Definition auth_qr_route : M Reply :=
  state <- getState ;;
  if negb (state_truthy state "currentQr")
  then
    ret (mkReply 404
           (JObj [("ok", JBool false);
                  ("message",
                   JStr "No QR code currently available. The session may already be authenticated.");
                  ("connected", opt_prop state "connected")]))
  else
    ret (mkReply 200
           (JObj [("ok", JBool true);
                  ("connected", opt_prop state "connected");
                  ("qr", opt_prop state "currentQr");
                  ("qrDataUrl", opt_prop state "currentQrDataUrl");
                  ("updatedAt", opt_prop state "qrUpdatedAt")])).

(** ** The routes that write *)

(** The error handler of the application:
    [error.statusCode || 500] and [error.message || 'Internal server error']. *)
Definition error_status (e : Error) : Z :=
  match statusCode e with
  | Some c => if c =? 0 then 500 else c
  | None => 500
  end.

Definition error_handler (e : Error) : M Reply :=
  log "Request failed" ;;
  ret (mkReply (error_status e)
         (JObj [("ok", JBool false);
                ("message",
                 JStr (if (message e =? "")%string
                       then "Internal server error" else message e))])).

(** [const { k } = req.body || {}] *)
Definition body_field (body : JsValue) (k : string) : JsValue :=
  opt_prop (js_or body (JObj [])) k.

Definition ok_result (r : JsValue) : Reply :=
  mkReply 200 (JObj [("ok", JBool true); ("result", r)]).

Definition send_text_route (body : JsValue) : M Reply :=
  try_catch
    (r <- sendText (body_field body "target") (body_field body "message") ;;
     ret (ok_result r))
    error_handler.

Definition send_media_route (body : JsValue) : M Reply :=
  try_catch
    (r <- sendMedia (body_field body "target") (body_field body "base64")
            (body_field body "filename") (body_field body "mimetype") ;;
     ret (ok_result r))
    error_handler.

Definition send_poll_route (body : JsValue) : M Reply :=
  try_catch
    (r <- sendPoll (body_field body "target") (body_field body "pollText")
            (body_field body "pollOptions") ;;
     ret (ok_result r))
    error_handler.


(** ** Notions for the statements about these *)


(** The worker is idle exactly when the queue is empty. *)
Definition dispatcher_settled (w : World) : bool :=
  match phase w, queue w with
  | Idle, [] => true
  | Idle, _ :: _ => false
  | _, [] => false
  | _, _ :: _ => true
  end.

(** [enqueue] for each event in turn. *)
Fixpoint enqueue_all (events : list JsValue) : M unit :=
  match events with
  | [] => ret tt
  | event :: rest => enqueue event ;; enqueue_all rest
  end.


(** The [SendMessage] calls among the calls made. *)
Definition is_send (e : Effect) : bool :=
  match e with SendMessage _ _ _ => true | _ => false end.

(** [l] ends with [s]. *)
Definition is_suffix {A : Type} (s l : list A) : Prop :=
  exists p, l = (p ++ s)%list.

(** Does the string begin, or end, with white space. *)
Definition starts_with_ws (s : string) : bool :=
  match s with
  | EmptyString => false
  | String c _ => is_ws c
  end.

Fixpoint ends_with_ws (s : string) : bool :=
  match s with
  | EmptyString => false
  | String c EmptyString => is_ws c
  | String _ r => ends_with_ws r
  end.

(** No white space at either end; such a string is left alone by [trim]. *)
Definition trimmed (s : string) : Prop :=
  starts_with_ws s = false /\ ends_with_ws s = false /\ trim s = s.



(** The requests that deliver these items. *)
Definition posts_of (items : list Item) : list Effect :=
  map (fun it => HttpPost (url it) (payload it)) items.

(** The QR code after a [connection.update] that is not an open. *)
Definition qr_after (u : Update) (w : World) : option string :=
  match qr u with
  | Some q => if nonempty q then Some q else currentQr w
  | None => currentQr w
  end.

(** [statusCode || 'unknown'] *)
Definition reason_of (code : option Z) : JsValue :=
  match code with
  | Some c => if c =? 0 then JStr "unknown" else JNum c
  | None => JStr "unknown"
  end.

(** The world right after [socket.sendMessage] was called. *)
Definition after_send (so : Socket) (jid : string) (c : Content) (w : World)
  : World :=
  set_effects (effects w ++ [SendMessage (sock_id so) jid c])
    (set_tick (S (tick w)) w).

(** ** Runs of the service *)

(** What can happen to the service: a call of the facade, the expiry of a
    timer, a [connection.update] from a socket. *)
Inductive Input : Type :=
| InStop
| InConnect (forceNewLogin : bool)
| InFire (id : nat)
| InUpdate (u : Update).

Definition step (i : Input) : M unit :=
  match i with
  | InStop => stop
  | InConnect forceNewLogin => connect forceNewLogin
  | InFire id => fire_timer id
  | InUpdate u => on_connection_update u
  end.

Fixpoint run_inputs (inputs : list Input) (w : World) : World :=
  match inputs with
  | [] => w
  | i :: rest => run_inputs rest (exec (step i) w)
  end.

(** No close arrives while a reconnect timer is pending. *)
Fixpoint closes_apart (inputs : list Input) (w : World) : bool :=
  match inputs with
  | [] => true
  | i :: rest =>
      match i with
      | InUpdate u =>
          if is_close u
          then match timers w with [] => true | _ :: _ => false end
          else true
      | _ => true
      end && closes_apart rest (exec (step i) w)
  end.

(** * Properties *)

(** Reduce the field updates under the projections. *)
Ltac fields :=
  cbn [set_socket set_connected set_currentQr set_currentQrDataUrl
       set_qrUpdatedAt set_reconnectAttempts set_reconnectTimer
       set_lastDisconnectReason set_me set_eventBuffer set_queue set_phase
       set_events_log set_auth_dir set_timers set_next_timer set_console
       set_effects set_tick
       socket connected currentQr currentQrDataUrl qrUpdatedAt
       reconnectAttempts reconnectTimer lastDisconnectReason me eventBuffer
       queue phase events_log auth_dir timers next_timer console effects tick
       fst snd].

Ltac fields_in H :=
  cbn [set_socket set_connected set_currentQr set_currentQrDataUrl
       set_qrUpdatedAt set_reconnectAttempts set_reconnectTimer
       set_lastDisconnectReason set_me set_eventBuffer set_queue set_phase
       set_events_log set_auth_dir set_timers set_next_timer set_console
       set_effects set_tick
       socket connected currentQr currentQrDataUrl qrUpdatedAt
       reconnectAttempts reconnectTimer lastDisconnectReason me eventBuffer
       queue phase events_log auth_dir timers next_timer console effects tick
       fst snd] in H.

(** Unfold the operations of the monad as well. *)
Ltac monad :=
  cbv [bind ret gets modify throw try_catch when emit log next_call exec
       result throwBadRequest];
  fields.

(** ** Strings *)

Example trim_example : trim "  a b  " = "a b".
Proof. reflexivity. Qed.

Example toString_example :
  toString (JArr [JNum 1; JNull; JArr [JNum (-2); JStr "x"]; JBool true; JObj []])
  = "1,,-2,x,true,[object Object]".
Proof. reflexivity. Qed.

Example split_lines_example :
  split_lines ("a" ++ nl ++ nl ++ "b" ++ nl) = ["a"; ""; "b"; ""].
Proof. reflexivity. Qed.

Example poll_options_example :
  poll_options (JArr [JStr " A "; JNum 5; JNull; JStr " "; JArr []]) = ["A"; "5"; "null"].
Proof. reflexivity. Qed.

Lemma trimStart_all_ws (s : string) : all_ws s = true -> trimStart s = "".
Proof.
  induction s as [|c r IH]; cbn; [reflexivity|].
  intros H. apply andb_true_iff in H. destruct H as [Hc Hr].
  rewrite Hc. now apply IH.
Qed.

Lemma trim_all_ws (s : string) : all_ws s = true -> trim s = "".
Proof. intros H. unfold trim. now rewrite trimStart_all_ws. Qed.

Lemma not_a_string_false (v : JsValue) :
  not_a_string v = false -> exists s, v = JStr s /\ s <> "".
Proof.
  unfold not_a_string.
  destruct v as [| | b | n | s | l | fs]; cbn; rewrite ?orb_true_r;
    try discriminate.
  intros H. exists s. split; [reflexivity|].
  rewrite orb_false_r in H. apply negb_false_iff in H.
  apply negb_true_iff in H. now apply String.eqb_neq in H.
Qed.

Lemma not_a_string_JStr (s : string) : s <> "" -> not_a_string (JStr s) = false.
Proof.
  intros H. unfold not_a_string. cbn. apply String.eqb_neq in H. now rewrite H.
Qed.

(** ** Target validation *)

Lemma normalizeTarget_ok (s : string) (w : World) :
  s <> "" -> normalizeTarget (JStr s) w = (Return (trim s), w).
Proof.
  intros H. unfold normalizeTarget. fold (not_a_string (JStr s)).
  now rewrite not_a_string_JStr.
Qed.

Lemma normalizeTarget_rejects (v : JsValue) (w : World) :
  not_a_string v = true ->
  normalizeTarget v w =
    (Throw (badRequest "target is required and must be a WhatsApp JID string."), w).
Proof.
  intros H. unfold normalizeTarget. fold (not_a_string v). now rewrite H.
Qed.

(** ** Emitting an event *)

Lemma appendEvent_shape (event : JsValue) (w : World) :
  exists l c e t,
    appendEvent event w =
      (Return tt, set_events_log l (set_console c (set_effects e (set_tick t w)))).
Proof.
  unfold appendEvent. monad.
  destruct (JSON_stringify env event) as [s|].
  - destruct (appendFileSync_ok env _); repeat eexists.
  - repeat eexists.
Qed.

Lemma loop_head_shape (w : World) :
  exists p e, loop_head w = (Return tt, set_phase p (set_effects e w)).
Proof.
  unfold loop_head. destruct w as [? ? ? ? ? ? ? ? ? ? q ? ? ? ? ? ? ? ?].
  monad. destruct q as [|item rest]; repeat eexists.
Qed.

Lemma enqueue_shape (event : JsValue) (w : World) :
  exists q p e t,
    enqueue event w =
      (Return tt, set_queue q (set_phase p (set_effects e (set_tick t w)))).
Proof.
  unfold enqueue. destruct (WEBHOOK_URL cfg =? "")%string.
  - monad. destruct w; repeat eexists.
  - unfold run, running. monad.
    destruct (phase w) eqn:Hp.
    + match goal with |- context [loop_head ?x] =>
        destruct (loop_head_shape x) as (p & e & ->) end.
      fields. repeat eexists.
    + repeat eexists.
    + repeat eexists.
Qed.

Lemma pushEvent_shape (eventType : string) (data : JsValue) (w : World) :
  exists b l q p c e t,
    pushEvent eventType data w = (Return tt, emission b l q p c e t w).
Proof.
  unfold pushEvent, emission. monad.
  match goal with |- context [appendEvent ?ev ?x] =>
    destruct (appendEvent_shape ev x) as (l & c & e & t & ->) end.
  match goal with |- context [enqueue ?ev ?x] =>
    destruct (enqueue_shape ev x) as (q & p & e' & t' & ->) end.
  fields. repeat eexists.
Qed.

(** An emission only adds to the calls made. *)
Lemma appendEvent_effects (event : JsValue) (w : World) :
  exists e, effects (exec (appendEvent event) w) = (effects w ++ e)%list.
Proof.
  unfold appendEvent. monad.
  destruct (JSON_stringify env event) as [s|].
  - destruct (appendFileSync_ok env _); fields; eexists; reflexivity.
  - fields. exists []. now rewrite app_nil_r.
Qed.

Lemma loop_head_effects (w : World) :
  exists e, effects (exec loop_head w) = (effects w ++ e)%list.
Proof.
  unfold loop_head. destruct w as [? ? ? ? ? ? ? ? ? ? q ? ? ? ? ? ? ? ?].
  monad. destruct q as [|item rest]; fields.
  - exists []. now rewrite app_nil_r.
  - eexists; reflexivity.
Qed.

Lemma enqueue_effects (event : JsValue) (w : World) :
  exists e, effects (exec (enqueue event) w) = (effects w ++ e)%list.
Proof.
  unfold enqueue. destruct (WEBHOOK_URL cfg =? "")%string.
  - monad. exists []. now rewrite app_nil_r.
  - unfold run, running. monad.
    destruct (phase w) eqn:Hp; fields;
      try (exists []; now rewrite app_nil_r).
    match goal with |- context [loop_head ?x] =>
      destruct (loop_head_effects x) as (e & He) end.
    unfold exec in He. fields_in He. exists e. exact He.
Qed.

Lemma pushEvent_effects (eventType : string) (data : JsValue) (w : World) :
  exists e, effects (exec (pushEvent eventType data) w) = (effects w ++ e)%list.
Proof.
  unfold pushEvent. monad.
  match goal with |- context [appendEvent ?ev ?x] =>
    destruct (appendEvent_effects ev x) as (e1 & H1);
    destruct (appendEvent_shape ev x) as (l & c & e & t & Ha) end.
  unfold exec in H1. rewrite Ha in H1 |- *. cbn [snd] in H1. fields_in H1.
  match goal with |- context [enqueue ?ev ?x] =>
    destruct (enqueue_effects ev x) as (e2 & H2) end.
  unfold exec in H2. rewrite H2. fields. rewrite H1.
  exists (e1 ++ e2)%list. now rewrite app_assoc.
Qed.

(** ** Sending *)

Lemma ensureConnected_fails (w : World) :
  socket w = None \/ connected w = false ->
  ensureConnected w = (Throw notConnected, w).
Proof.
  unfold ensureConnected. monad.
  intros [H|H]; rewrite H; [reflexivity|].
  now destruct (socket w).
Qed.

Lemma ensureConnected_ok (w : World) (so : Socket) :
  socket w = Some so -> connected w = true ->
  ensureConnected w = (Return tt, w).
Proof.
  unfold ensureConnected. monad. intros -> ->. reflexivity.
Qed.

Lemma sendText_disconnected (target msg : JsValue) (w : World) :
  not_a_string target = false -> not_a_string msg = false ->
  socket w = None \/ connected w = false ->
  sendText target msg w = (Throw notConnected, w).
Proof.
  intros Ht Hm Hc. unfold sendText.
  destruct (not_a_string_false _ Ht) as (s & -> & Hs).
  unfold bind at 1. rewrite normalizeTarget_ok by assumption.
  rewrite Hm. unfold bind at 1. unfold when at 1, ret at 1.
  unfold bind at 1. now rewrite ensureConnected_fails.
Qed.

Lemma sendMedia_disconnected (target base64 filename mimetype : JsValue)
  (w : World) :
  not_a_string target = false -> not_a_string base64 = false ->
  not_a_string filename = false -> not_a_string mimetype = false ->
  socket w = None \/ connected w = false ->
  sendMedia target base64 filename mimetype w = (Throw notConnected, w).
Proof.
  intros Ht Hb Hf Hm Hc. unfold sendMedia.
  destruct (not_a_string_false _ Ht) as (s & -> & Hs).
  unfold bind at 1. rewrite normalizeTarget_ok by assumption.
  rewrite Hb, Hf, Hm. unfold when, ret, bind.
  now rewrite ensureConnected_fails.
Qed.

Lemma poll_shape_ok_inv (target pollText pollOptions : JsValue) :
  poll_shape_ok target pollText pollOptions = true ->
  not_a_string target = false /\ not_a_string pollText = false /\
  (negb (isArray pollOptions)
   || (Z.of_nat (List.length (array_items pollOptions)) <? 2)) = false.
Proof.
  unfold poll_shape_ok. intros H.
  repeat (apply andb_true_iff in H; destruct H as [H ?]).
  repeat split.
  - now apply negb_true_iff.
  - now apply negb_true_iff.
  - apply orb_false_iff. split.
    + now apply negb_false_iff.
    + apply Z.ltb_ge. now apply Z.leb_le.
Qed.

Lemma sendPoll_disconnected (target pollText pollOptions : JsValue)
  (w : World) :
  poll_shape_ok target pollText pollOptions = true ->
  socket w = None \/ connected w = false ->
  sendPoll target pollText pollOptions w = (Throw notConnected, w).
Proof.
  intros H Hc. apply poll_shape_ok_inv in H. destruct H as (Ht & Hp & Ho).
  unfold sendPoll.
  destruct (not_a_string_false _ Ht) as (s & -> & Hs).
  unfold bind at 1. rewrite normalizeTarget_ok by assumption.
  rewrite Hp, Ho. unfold when, ret, bind.
  now rewrite ensureConnected_fails.
Qed.

(** ** Backoff *)

(** *** Rounding *)

Lemma nearest_even_exact (k d : Z) : 0 < d -> nearest_even (k * d) d = k.
Proof.
  intros Hd. unfold nearest_even.
  rewrite Z.mod_mul, Z.div_mul by lia.
  now replace (2 * 0 ?= d) with Lt by (symmetry; apply Z.compare_lt_iff; lia).
Qed.

Lemma nearest_even_near (p d : Z) :
  0 < d ->
  2 * p - d <= 2 * d * nearest_even p d <= 2 * p + d.
Proof.
  intros Hd. unfold nearest_even.
  pose proof (Z.div_mod p d ltac:(lia)) as E.
  pose proof (Z.mod_pos_bound p d Hd) as B.
  destruct (Z.compare_spec (2 * (p mod d)) d) as [H|H|H];
    [destruct (Z.even (p / d))| |]; nia.
Qed.

Lemma nearest_even_ge (p d k : Z) : 0 < d -> k * d <= p -> k <= nearest_even p d.
Proof.
  intros Hd Hk. unfold nearest_even.
  assert (k <= p / d) by (apply Z.div_le_lower_bound; lia).
  destruct (2 * (p mod d) ?= d); [destruct (Z.even (p / d))| |]; lia.
Qed.

Lemma nearest_even_le (p d k : Z) : 0 < d -> p <= k * d -> nearest_even p d <= k.
Proof.
  intros Hd Hk.
  pose proof (nearest_even_near p d Hd) as [_ H].
  assert (2 * d * nearest_even p d < 2 * d * (k + 1)) by nia.
  assert (nearest_even p d < k + 1) by nia. lia.
Qed.

Lemma pow2_split (x y : Z) : 0 <= x -> 0 <= y -> 2 ^ (x + y) = 2 ^ x * 2 ^ y.
Proof. intros. now apply Z.pow_add_r. Qed.

Lemma pow2_pos (x : Z) : 0 <= x -> 0 < 2 ^ x.
Proof. intros. now apply Z.pow_pos_nonneg. Qed.

Lemma pow2_le_below (a b e : Z) :
  0 < a -> 0 < b -> e < Z.log2 a - Z.log2 b -> pow2_le e a b = true.
Proof.
  intros Ha Hb He.
  destruct (Z.log2_spec a Ha) as [La _]. destruct (Z.log2_spec b Hb) as [_ Lb].
  pose proof (Z.log2_nonneg a). pose proof (Z.log2_nonneg b).
  unfold pow2_le. destruct (0 <=? e) eqn:E.
  - apply Z.leb_le in E. apply Z.leb_le.
    assert (2 ^ e * 2 ^ Z.succ (Z.log2 b) <= 2 ^ Z.log2 a).
    { rewrite <- pow2_split by lia. apply Z.pow_le_mono_r; lia. }
    pose proof (pow2_pos e E). nia.
  - apply Z.leb_gt in E. apply Z.leb_le.
    assert (2 ^ Z.succ (Z.log2 b) <= 2 ^ Z.log2 a * 2 ^ (- e)).
    { rewrite <- pow2_split by lia. apply Z.pow_le_mono_r; lia. }
    pose proof (pow2_pos (- e) ltac:(lia)). nia.
Qed.

Lemma pow2_le_above (a b e : Z) :
  0 < a -> 0 < b -> Z.log2 a - Z.log2 b < e -> pow2_le e a b = false.
Proof.
  intros Ha Hb He.
  destruct (Z.log2_spec a Ha) as [_ La]. destruct (Z.log2_spec b Hb) as [Lb _].
  pose proof (Z.log2_nonneg a). pose proof (Z.log2_nonneg b).
  unfold pow2_le. destruct (0 <=? e) eqn:E.
  - apply Z.leb_le in E. apply Z.leb_gt.
    assert (2 ^ Z.succ (Z.log2 a) <= 2 ^ e * 2 ^ Z.log2 b).
    { rewrite <- pow2_split by lia. apply Z.pow_le_mono_r; lia. }
    pose proof (pow2_pos e E). nia.
  - apply Z.leb_gt in E. apply Z.leb_gt.
    assert (2 ^ Z.succ (Z.log2 a) * 2 ^ (- e) <= 2 ^ Z.log2 b).
    { rewrite <- pow2_split by lia. apply Z.pow_le_mono_r; lia. }
    pose proof (pow2_pos (- e) ltac:(lia)). nia.
Qed.

Lemma binade_spec (a b : Z) : 0 < a -> 0 < b -> in_binade (binade a b) a b.
Proof.
  intros Ha Hb. unfold binade, in_binade.
  destruct (pow2_le (Z.log2 a - Z.log2 b) a b) eqn:E.
  - split; [exact E|]. apply pow2_le_above; lia.
  - split; [apply pow2_le_below; lia|].
    now replace (Z.log2 a - Z.log2 b - 1 + 1) with (Z.log2 a - Z.log2 b) by lia.
Qed.

(** [pow2_le] is antitone in the exponent. *)
Lemma pow2_le_mono (e e' a b : Z) :
  0 < a -> 0 < b -> e' <= e -> pow2_le e a b = true -> pow2_le e' a b = true.
Proof.
  intros Ha Hb He. unfold pow2_le.
  destruct (Z.leb_spec 0 e) as [E|E]; destruct (Z.leb_spec 0 e') as [E'|E'];
    try lia; intros H; apply Z.leb_le in H; apply Z.leb_le.
  - assert (2 ^ e' <= 2 ^ e) by (apply Z.pow_le_mono_r; lia).
    pose proof (pow2_pos e' E'). nia.
  - pose proof (pow2_pos e E). pose proof (pow2_pos (- e') ltac:(lia)).
    assert (b <= 2 ^ e * b) by nia. assert (a <= a * 2 ^ (- e')) by nia. lia.
  - assert (2 ^ (- e) <= 2 ^ (- e')) by (apply Z.pow_le_mono_r; lia).
    nia.
Qed.

Lemma binade_lt (a b k : Z) :
  0 < a -> 0 < b -> pow2_le k a b = false -> binade a b < k.
Proof.
  intros Ha Hb Hk. destruct (binade_spec a b Ha Hb) as [H _].
  destruct (Z.lt_ge_cases (binade a b) k) as [|Hge]; [assumption|].
  rewrite (pow2_le_mono _ _ _ _ Ha Hb Hge H) in Hk. discriminate.
Qed.

Lemma binade_ge (a b k : Z) :
  0 < a -> 0 < b -> pow2_le k a b = true -> k <= binade a b.
Proof.
  intros Ha Hb Hk. destruct (binade_spec a b Ha Hb) as [_ H].
  destruct (Z.le_gt_cases k (binade a b)) as [|Hlt]; [assumption|].
  assert (Hle : binade a b + 1 <= k) by lia.
  rewrite (pow2_le_mono k (binade a b + 1) a b Ha Hb Hle Hk) in H.
  discriminate.
Qed.

Lemma binade_int (n : Z) : 0 < n -> binade n 1 = Z.log2 n.
Proof.
  intros Hn. unfold binade. cbn [Z.log2]. rewrite Z.sub_0_r.
  unfold pow2_le. pose proof (Z.log2_nonneg n).
  destruct (Z.log2_spec n Hn) as [L _].
  replace (0 <=? Z.log2 n) with true by (symmetry; apply Z.leb_le; lia).
  now replace (2 ^ Z.log2 n * 1 <=? n) with true by (symmetry; apply Z.leb_le; lia).
Qed.

Lemma inject_Z_mul (a b : Z) : (inject_Z a * inject_Z b)%Q = inject_Z (a * b).
Proof. reflexivity. Qed.

Lemma inject_Z_add (a b : Z) : (inject_Z a + inject_Z b)%Q = inject_Z (a + b).
Proof. unfold Qplus, inject_Z. cbn. now rewrite !Z.mul_1_r. Qed.

Lemma Qred_int (p d : Z) (n : Z) :
  0 < d -> p = n * d -> Qred (p # Z.to_pos d) = inject_Z n.
Proof.
  intros Hd ->.
  rewrite <- (Qcanon.Qred_identity (inject_Z n)) by (cbn; apply Z.gcd_1_r).
  apply Qred_complete. unfold Qeq, inject_Z. cbn.
  rewrite Z2Pos.id by lia. lia.
Qed.

Lemma round_0 : round (inject_Z 0) = num 0.
Proof. reflexivity. Qed.

(** An integer with at most 53 significant bits is a Number, unless it is
    too large. *)
Lemma round_int_exact (m s : Z) :
  0 < m < 2 ^ 53 -> 0 <= s ->
  round (inject_Z (m * 2 ^ s)) =
    if m * 2 ^ s <? 2 ^ 1024 then num (m * 2 ^ s) else Infinity false.
Proof.
  intros Hm Hs.
  pose proof (pow2_pos s Hs) as Hp.
  assert (HN : 0 < m * 2 ^ s) by nia.
  assert (Hl : Z.log2 (m * 2 ^ s) = s + Z.log2 m) by (apply Z.log2_mul_pow2; lia).
  assert (Hlm : Z.log2 m < 53) by (apply Z.log2_lt_pow2; lia).
  pose proof (Z.log2_nonneg m) as Hl0.
  unfold round. cbn [Qnum Qden inject_Z].
  rewrite Z.abs_eq by lia.
  replace (m * 2 ^ s =? 0) with false by (symmetry; apply Z.eqb_neq; lia).
  rewrite binade_int by exact HN. rewrite Hl.
  unfold ulp_exponent. rewrite Z.max_l by lia.
  rewrite Z.sgn_pos by exact HN. rewrite Z.mul_1_l.
  set (u := s + Z.log2 m - 52).
  destruct (Z.leb_spec 0 u) as [Hu|Hu].
  - rewrite (Z.max_l 0 (- u)), (Z.max_r 0 u) by lia.
    rewrite Z.pow_0_r, Z.mul_1_r, Z.mul_1_l.
    assert (E : m * 2 ^ s = m * 2 ^ (52 - Z.log2 m) * 2 ^ u).
    { rewrite <- Z.mul_assoc, <- pow2_split by lia. f_equal. f_equal. lia. }
    replace (nearest_even (m * 2 ^ s) (2 ^ u)) with (m * 2 ^ (52 - Z.log2 m))
      by (rewrite E; symmetry; apply nearest_even_exact, pow2_pos; lia).
    unfold scaled. replace (0 <=? u) with true by (symmetry; apply Z.leb_le; lia).
    rewrite <- E. cbn [andb].
    destruct (Z.leb_spec (2 ^ 1024) (m * 2 ^ s)) as [Ho|Ho].
    + replace (m * 2 ^ s <? 2 ^ 1024) with false
        by (symmetry; apply Z.ltb_ge; lia).
      replace (m * 2 ^ s <? 0) with false by (symmetry; apply Z.ltb_ge; lia).
      reflexivity.
    + now replace (m * 2 ^ s <? 2 ^ 1024) with true
        by (symmetry; apply Z.ltb_lt; lia).
  - rewrite (Z.max_r 0 (- u)), (Z.max_l 0 u) by lia.
    rewrite Z.pow_0_r, Z.mul_1_l.
    replace (nearest_even (m * 2 ^ s * 2 ^ (- u)) 1) with (m * 2 ^ s * 2 ^ (- u))
      by (symmetry; rewrite <- (Z.mul_1_r (m * 2 ^ s * 2 ^ (- u))) at 1;
          apply nearest_even_exact; lia).
    cbn [andb].
    unfold scaled. replace (0 <=? u) with false by (symmetry; apply Z.leb_gt; lia).
    rewrite (Qred_int _ _ (m * 2 ^ s)) by (apply pow2_pos || reflexivity; lia).
    assert (m * 2 ^ s < 2 ^ 1024).
    { destruct (Z.log2_spec _ HN) as [_ H]. rewrite Hl in H.
      assert (2 ^ Z.succ (s + Z.log2 m) <= 2 ^ 1024)
        by (apply Z.pow_le_mono_r; lia).
      lia. }
    now replace (m * 2 ^ s <? 2 ^ 1024) with true
      by (symmetry; apply Z.ltb_lt; lia).
Qed.

Lemma round_small_int (n : Z) : 0 <= n < 2 ^ 53 -> round (inject_Z n) = num n.
Proof.
  intros Hn. destruct (Z.eq_dec n 0) as [->|Hz]; [reflexivity|].
  pose proof (round_int_exact n 0 ltac:(lia) ltac:(lia)) as H.
  rewrite Z.pow_0_r, Z.mul_1_r in H. rewrite H.
  assert (2 ^ 53 <= 2 ^ 1024) by (apply Z.pow_le_mono_r; lia).
  now replace (n <? 2 ^ 1024) with true by (symmetry; apply Z.ltb_lt; lia).
Qed.

(** Rounding does not take an integer below [2^53]. *)
Lemma round_int_big (n : Z) :
  2 ^ 53 <= n ->
  round (inject_Z n) = Infinity false \/
  exists n', round (inject_Z n) = num n' /\ 2 ^ 53 <= n'.
Proof.
  intros Hn.
  assert (H53 : 0 < 2 ^ 53) by (apply pow2_pos; lia).
  assert (HN : 0 < n) by lia.
  assert (Hl : 53 <= Z.log2 n) by (apply Z.log2_le_pow2; lia).
  destruct (Z.log2_spec n HN) as [Hlo _].
  unfold round. cbn [Qnum Qden inject_Z].
  rewrite Z.abs_eq by lia.
  replace (n =? 0) with false by (symmetry; apply Z.eqb_neq; lia).
  rewrite binade_int by exact HN.
  unfold ulp_exponent. rewrite Z.max_l by lia.
  rewrite Z.sgn_pos by exact HN. rewrite Z.mul_1_l.
  set (u := Z.log2 n - 52).
  rewrite (Z.max_l 0 (- u)), (Z.max_r 0 u) by lia.
  rewrite Z.pow_0_r, Z.mul_1_r, Z.mul_1_l.
  replace (0 <=? u) with true by (symmetry; apply Z.leb_le; lia).
  cbn [andb]. replace (n <? 0) with false by (symmetry; apply Z.ltb_ge; lia).
  destruct (2 ^ 1024 <=? nearest_even n (2 ^ u) * 2 ^ u); [now left|right].
  exists (nearest_even n (2 ^ u) * 2 ^ u). split.
  - unfold scaled. now replace (0 <=? u) with true by (symmetry; apply Z.leb_le; lia).
  - assert (Hu : 0 < 2 ^ u) by (apply pow2_pos; lia).
    assert (2 ^ 52 <= nearest_even n (2 ^ u)).
    { apply nearest_even_ge; [exact Hu|].
      rewrite <- pow2_split by lia. now replace (52 + u) with (Z.log2 n) by lia. }
    assert (2 ^ 53 = 2 ^ 52 * 2 ^ 1) by (rewrite <- pow2_split by lia; reflexivity).
    assert (2 ^ 1 <= 2 ^ u) by (apply Z.pow_le_mono_r; lia).
    assert (0 < 2 ^ 52) by (apply pow2_pos; lia).
    nia.
Qed.

Lemma Math_min_num (a b : Z) : Math_min (num a) (num b) = num (Z.min a b).
Proof.
  unfold Math_min, num, Number_gt, Qle_bool. cbn [Qnum Qden inject_Z].
  rewrite !Z.mul_1_r.
  destruct (Z.leb_spec a b); cbn [negb].
  - now rewrite Z.min_l by lia.
  - now rewrite Z.min_r by lia.
Qed.

Lemma Qle_bool_refl (p : Q) : Qle_bool p p = true.
Proof. unfold Qle_bool. apply Z.leb_refl. Qed.

Lemma Math_min_not_above (x y : Number) : Number_gt (Math_min x y) x = false.
Proof.
  destruct x as [|s|p], y as [|t|q]; cbn; try reflexivity.
  - now destruct s, t.
  - now destruct s.
  - destruct t; cbn; [reflexivity|]. now rewrite Qle_bool_refl.
  - destruct (Qle_bool p q) eqn:E; cbn.
    + now rewrite Qle_bool_refl.
    + unfold Qle_bool in *. apply Z.leb_gt in E.
      apply negb_false_iff, Z.leb_le. lia.
Qed.

(** The arithmetic on known values: [0.1 + 0.2] is [0.30000000000000004],
    a sum above [2^53] is rounded to the even neighbour, half the smallest
    Number is 0, the product of the largest Number below 1 and 200 is below
    200, and [0 * Infinity] is not a number. *)
Example round_tenth : round (1 # 10) = Finite (3602879701896397 # 2 ^ 55).
Proof. vm_compute. reflexivity. Qed.

Example add_tenths :
  Number_add (round (1 # 10)) (round (2 # 10))
  = Finite (1351079888211149 # 2 ^ 52).
Proof. vm_compute. reflexivity. Qed.

Example add_above_exact_range :
  Number_add (num (2 ^ 60)) (num 199) = num (2 ^ 60 + 256) /\
  round (inject_Z (2 ^ 53 + 1)) = num (2 ^ 53) /\
  round (inject_Z (2 ^ 53 + 3)) = num (2 ^ 53 + 4).
Proof. vm_compute. repeat split. Qed.

Example round_underflow :
  round (1 # 2 ^ 1075) = Finite 0 /\
  round (3 # 2 ^ 1075) = Finite (1 # 2 ^ 1073).
Proof. vm_compute. repeat split. Qed.

Example mul_overflow :
  Number_mul (num (2 ^ 53 - 1)) (pow2 971) = num ((2 ^ 53 - 1) * 2 ^ 971) /\
  Number_mul (num (2 ^ 53 - 1)) (pow2 1023) = Infinity false /\
  Number_mul (num 0) (pow2 1024) = NaN.
Proof. vm_compute. repeat split. Qed.

Example jitter_rounds_up :
  jitter (8962163258467287 # 2 ^ 53) = num 199 /\
  jitter ((2 ^ 53 - 1) # 2 ^ 53) = num 199.
Proof. vm_compute. repeat split. Qed.

(** Beyond the integers below [2^53] the delay is rounded: with a base of
    [2^60] under a larger maximum, the jitter 199 adds 256. *)
Example backoff_above_exact_range :
  backoffMs (8962163258467287 # 2 ^ 53) 1 (num (2 ^ 60)) (num (2 ^ 62))
  = num (2 ^ 60 + 256).
Proof. vm_compute. reflexivity. Qed.

(** On the sample data, products, sums and roundings are those of the
    Standard Library's specification of binary64 arithmetic. *)
Example arithmetic_as_specified :
  forallb (fun a => forallb (agrees a) binary64_samples) binary64_samples
  = true.
Proof. vm_compute. reflexivity. Qed.

(** *** The delay *)

(** The Numbers below 1 are at most [1 - 2^-53]. *)
Lemma below_one (r : Q) :
  is_Number r -> (0 <= r)%Q -> (r < 1)%Q ->
  Qnum r * 2 ^ 53 <= (2 ^ 53 - 1) * Zpos (Qden r).
Proof.
  destruct r as [p q]. unfold is_Number, round, Qle, Qlt. cbn [Qnum Qden].
  intros Hr H0 H1. rewrite Z.mul_1_r in *. rewrite Z.mul_1_l in H1.
  assert (H53 : 2 ^ 53 = 2 * 2 ^ 52) by reflexivity.
  assert (H52 : 0 < 2 ^ 52) by reflexivity.
  destruct (Z.eq_dec p 0) as [->|Hp]; [lia|].
  assert (Hpos : 0 < p) by lia.
  rewrite Z.abs_eq in Hr by lia.
  replace (p =? 0) with false in Hr by (symmetry; apply Z.eqb_neq; lia).
  rewrite Z.sgn_pos, Z.mul_1_l in Hr by exact Hpos.
  assert (He : binade p (Zpos q) < 0).
  { apply binade_lt; [lia..|]. unfold pow2_le. cbn [Z.leb Z.compare].
    apply Z.leb_gt. rewrite Z.pow_0_r. lia. }
  destruct (binade_spec p (Zpos q) Hpos ltac:(lia)) as [_ Hup].
  set (e := binade p (Zpos q)) in *.
  destruct (Z.eq_dec e (-1)) as [E|E].
  - rewrite E in Hr. change (ulp_exponent (-1)) with (-53) in Hr.
    cbn [Z.leb Z.compare andb] in Hr.
    change (Z.max 0 (- -53)) with 53 in Hr. change (Z.max 0 (-53)) with 0 in Hr.
    rewrite Z.pow_0_r, Z.mul_1_r in Hr.
    set (m := nearest_even (p * 2 ^ 53) (Zpos q)) in *.
    injection Hr as Hr. unfold scaled in Hr. cbn [Z.leb Z.compare] in Hr.
    pose proof (Qred_correct (m # Z.to_pos (2 ^ (- -53)))) as Hq.
    rewrite Hr in Hq. unfold Qeq in Hq. cbn [Qnum Qden] in Hq.
    change (Zpos (Z.to_pos (2 ^ (- -53)))) with (2 ^ 53) in Hq.
    assert (m < 2 ^ 53) by nia. nia.
  - assert (Hlt : e + 1 < 0) by lia.
    unfold pow2_le in Hup.
    replace (0 <=? e + 1) with false in Hup by (symmetry; apply Z.leb_gt; lia).
    apply Z.leb_gt in Hup.
    assert (2 ^ 1 <= 2 ^ (- (e + 1))) by (apply Z.pow_le_mono_r; lia).
    change (2 ^ 1) with 2 in *. nia.
Qed.

(** The jitter is an integer from 0 to 199. *)
Lemma jitter_range (r : Q) :
  is_Number r -> (0 <= r)%Q -> (r < 1)%Q ->
  exists j, jitter r = num j /\ 0 <= j < 200.
Proof.
  intros Hr H0 H1. pose proof (below_one r Hr H0 H1) as Htop.
  destruct r as [p q]. unfold Qle, Qlt in H0, H1. cbn [Qnum Qden] in *.
  rewrite Z.mul_1_r in *. rewrite Z.mul_1_l in H1. clear Hr.
  unfold jitter, Number_mul, num, Qmult, inject_Z, round. cbn [Qnum Qden].
  rewrite Pos.mul_1_r.
  destruct (Z.eq_dec p 0) as [->|Hp]; [exists 0; split; [reflexivity|lia]|].
  assert (Hpos : 0 < p * 200) by lia.
  rewrite Z.abs_eq by lia.
  replace (p * 200 =? 0) with false by (symmetry; apply Z.eqb_neq; lia).
  rewrite Z.sgn_pos by exact Hpos.
  assert (He : binade (p * 200) (Zpos q) < 8).
  { apply binade_lt; [lia..|]. unfold pow2_le. cbn [Z.leb Z.compare].
    apply Z.leb_gt. change (2 ^ 8) with 256. lia. }
  set (u := ulp_exponent (binade (p * 200) (Zpos q))).
  assert (Hu : u <= -45) by (unfold u, ulp_exponent; lia).
  replace (0 <=? u) with false by (symmetry; apply Z.leb_gt; lia).
  cbn [andb]. rewrite (Z.max_r 0 (- u)), (Z.max_l 0 u) by lia.
  rewrite Z.pow_0_r, Z.mul_1_r, Z.mul_1_l.
  set (m := nearest_even (p * 200 * 2 ^ (- u)) (Zpos q)).
  assert (HD : 2 ^ 45 <= 2 ^ (- u)) by (apply Z.pow_le_mono_r; lia).
  assert (H45 : 2 ^ 53 = 256 * 2 ^ 45) by reflexivity.
  assert (H45' : 0 < 2 ^ 45) by reflexivity.
  set (D := 2 ^ (- u)) in *.
  assert (Hm0 : 0 <= m).
  { apply (nearest_even_ge _ _ 0); nia. }
  assert (Hm1 : m < 200 * D).
  { pose proof (nearest_even_near (p * 200 * D) (Zpos q) ltac:(lia)) as [_ Hn].
    fold m in Hn.
    destruct (Z.lt_ge_cases m (200 * D)) as [|Hge]; [assumption|exfalso].
    assert (400 * D * (Zpos q - p) <= Zpos q) by nia.
    assert (Zpos q <= (Zpos q - p) * 2 ^ 53) by lia.
    assert (0 < Zpos q - p) by lia.
    assert (256 * 2 ^ 45 * (Zpos q - p) <= 256 * D * (Zpos q - p)) by nia.
    nia. }
  exists (m / D). split.
  - unfold Math_floor, scaled.
    replace (0 <=? u) with false by (symmetry; apply Z.leb_gt; lia).
    f_equal. rewrite (Qfloor_comp _ _ (Qred_correct _)).
    unfold Qfloor. fold D. now rewrite Z2Pos.id by lia.
  - split; [apply Z.div_pos; lia|apply Z.div_lt_upper_bound; lia].
Qed.

(** What [backoffMs] computes for integers in the exact range. *)
Lemma backoffMs_exact (r : Q) (n b M : Z) :
  is_Number r -> (0 <= r)%Q -> (r < 1)%Q ->
  0 <= b < 2 ^ 53 -> M < 2 ^ 53 ->
  1 <= b \/ n <= 1024 ->
  exists j,
    jitter r = num j /\ 0 <= j < 200 /\
    backoffMs r n (num b) (num M)
    = num (Z.min M (b * 2 ^ Z.max 0 (n - 1) + j)).
Proof.
  intros Hr H0 H1 Hb HM Hn.
  destruct (jitter_range r Hr H0 H1) as (j & Hj & Hjr).
  exists j. split; [exact Hj|]. split; [exact Hjr|].
  unfold backoffMs. rewrite Hj.
  set (k := Z.max 0 (n - 1)).
  assert (Hk : 0 <= k) by (unfold k; lia).
  pose proof (pow2_pos k Hk) as Hpk.
  assert (H53 : 0 < 2 ^ 53) by reflexivity.
  assert (Hbig : 2 ^ 53 <= 2 ^ 1024) by (apply Z.pow_le_mono_r; lia).
  (* a sum that leaves the exact range is cut off by the maximum *)
  assert (Hcut : forall x, x = Infinity false \/ (exists n', x = num n' /\ 2 ^ 53 <= n') ->
                 2 ^ 53 <= b * 2 ^ k + j ->
                 Math_min (num M) x = num (Z.min M (b * 2 ^ k + j))).
  { intros x [->|(n' & -> & Hn')] Hs.
    - rewrite Z.min_l by lia. reflexivity.
    - rewrite Math_min_num. now rewrite !Z.min_l by lia. }
  assert (Hsum : forall N, 0 <= N -> N = b * 2 ^ k ->
                 Math_min (num M) (Number_add (num N) (num j))
                 = num (Z.min M (b * 2 ^ k + j))).
  { intros N HN ->.
    change (Number_add (num (b * 2 ^ k)) (num j))
      with (round (inject_Z (b * 2 ^ k) + inject_Z j)%Q).
    rewrite inject_Z_add.
    destruct (Z.lt_ge_cases (b * 2 ^ k + j) (2 ^ 53)) as [Hs|Hs].
    - rewrite round_small_int by lia. apply Math_min_num.
    - apply Hcut; [|exact Hs]. now apply round_int_big. }
  unfold pow2. destruct (Z.leb_spec k 1023) as [Hk'|Hk'].
  - change (Number_mul (num b) (num (2 ^ k)))
      with (round (inject_Z b * inject_Z (2 ^ k))%Q).
    rewrite inject_Z_mul.
    destruct (Z.eq_dec b 0) as [->|Hbz].
    + rewrite Z.mul_0_l. rewrite round_0. apply (Hsum 0); lia.
    + rewrite round_int_exact by lia.
      destruct (Z.ltb_spec (b * 2 ^ k) (2 ^ 1024)) as [Hlt|Hge].
      * apply Hsum; nia.
      * cbn [Number_add num]. apply Hcut; [now left|lia].
  - assert (Hb1 : 1 <= b) by (unfold k in Hk'; lia).
    change (Number_mul (num b) (Infinity false))
      with (if b =? 0 then NaN else Infinity (xorb false (b <? 0))).
    replace (b =? 0) with false by (symmetry; apply Z.eqb_neq; lia).
    replace (b <? 0) with false by (symmetry; apply Z.ltb_ge; lia).
    cbn [xorb Number_add num]. apply Hcut; [now left|].
    assert (2 ^ 53 <= 2 ^ k) by (apply Z.pow_le_mono_r; lia). nia.
Qed.

(** ** Webhook dispatcher *)

Lemma bind_assoc {A B C} (c : M A) (k : A -> M B) (k' : B -> M C) (w : World) :
  bind (bind c k) k' w = bind c (fun x => bind (k x) k') w.
Proof. unfold bind. destruct (c w) as [[a|e] w']; reflexivity. Qed.

Lemma bind_ext {A B} (c : M A) (k k' : A -> M B) (w : World) :
  (forall a w', k a w' = k' a w') -> bind c k w = bind c k' w.
Proof.
  intros H. unfold bind. destruct (c w) as [[a|e] w']; [apply H|reflexivity].
Qed.

Lemma resume_all_app (l1 l2 : list Wake) (w : World) :
  resume_all (l1 ++ l2) w = (resume_all l1 ;; resume_all l2) w.
Proof.
  revert w. induction l1 as [|e r IH]; intros w; cbn [resume_all app].
  - reflexivity.
  - rewrite bind_assoc. apply bind_ext. intros _ w'. apply IH.
Qed.

(** A failed delivery below the ceiling: the counter is incremented, the
    item stays at the head, the coroutine sleeps for the backoff delay. *)
Lemma post_rejected_retry (w : World) (item : Item) (rest : list Item) :
  queue w = item :: rest ->
  attempt item + 1 <= WEBHOOK_MAX_RETRIES cfg ->
  post_rejected w =
    (Return tt,
     set_phase
       (Sleeping (backoffMs (random env (tick w)) (attempt item + 1)
                    (WEBHOOK_RETRY_BASE_MS cfg) (WEBHOOK_RETRY_MAX_MS cfg)))
       (set_console (console w ++ ["Webhook failed, retrying"])
          (set_tick (S (tick w))
             (set_queue (with_attempt (attempt item + 1) item :: rest) w)))).
Proof.
  intros Hq Ha. unfold post_rejected.
  destruct w as [? ? ? ? ? ? ? ? ? ? q ? ? ? ? ? ? ? ?]. cbn in Hq. subst q.
  monad. apply Z.ltb_ge in Ha. rewrite Ha. reflexivity.
Qed.

(** A failed delivery that takes the counter above the ceiling: the drop is
    logged, the item leaves the queue and the loop goes on. *)
Lemma post_rejected_drop (w : World) (item : Item) (rest : list Item) :
  queue w = item :: rest ->
  WEBHOOK_MAX_RETRIES cfg < attempt item + 1 ->
  post_rejected w =
    loop_head
      (set_console (console w ++ ["Webhook dropped after max retries"])
         (set_queue rest w)).
Proof.
  intros Hq Ha. unfold post_rejected.
  destruct w as [? ? ? ? ? ? ? ? ? ? q ? ? ? ? ? ? ? ?]. cbn in Hq. subst q.
  monad. apply Z.ltb_lt in Ha. rewrite Ha. reflexivity.
Qed.

(** One retry round: failure, backoff sleep, new [postJson] for the same
    item. *)
Lemma retry_round (w : World) (item : Item) (rest : list Item) :
  queue w = item :: rest -> phase w = Posting ->
  attempt item + 1 <= WEBHOOK_MAX_RETRIES cfg ->
  exists w',
    (resume PostFailed ;; resume SleepOver) w = (Return tt, w') /\
    queue w' = with_attempt (attempt item + 1) item :: rest /\
    phase w' = Posting /\
    console w' = (console w ++ ["Webhook failed, retrying"])%list /\
    effects w' = (effects w ++ [HttpPost (url item) (payload item)])%list.
Proof.
  intros Hq Hp Ha. unfold bind at 1. unfold resume at 1.
  unfold bind at 1. unfold gets at 1. rewrite Hp.
  rewrite (post_rejected_retry w item rest Hq Ha).
  unfold resume, loop_head. monad.
  eexists. repeat split.
Qed.

Lemma retries (n : nat) :
  forall (w : World) (item : Item) (rest : list Item),
  queue w = item :: rest -> phase w = Posting ->
  attempt item + Z.of_nat n <= WEBHOOK_MAX_RETRIES cfg ->
  exists w',
    resume_all (failures n) w = (Return tt, w') /\
    queue w' = with_attempt (attempt item + Z.of_nat n) item :: rest /\
    phase w' = Posting /\
    console w' = (console w ++ repeat "Webhook failed, retrying" n)%list /\
    effects w' = (effects w ++ repeat (HttpPost (url item) (payload item)) n)%list.
Proof.
  induction n as [|n IH]; intros w item rest Hq Hp Ha.
  - exists w. cbn [failures resume_all repeat]. rewrite !app_nil_r.
    rewrite Z.add_0_r. destruct item. repeat split; assumption.
  - destruct (retry_round w item rest Hq Hp) as (w1 & H1 & Hq1 & Hp1 & Hc1 & He1);
      [lia|].
    destruct (IH w1 _ rest Hq1 Hp1) as (w2 & H2 & Hq2 & Hp2 & Hc2 & He2);
      [cbn [attempt with_attempt]; lia|].
    exists w2. split; [|repeat split].
    + change (failures (S n)) with ([PostFailed; SleepOver] ++ failures n)%list.
      rewrite resume_all_app. unfold bind at 1.
      cbn [resume_all].
      assert (Hr : (resume PostFailed;; resume SleepOver;; ret tt) w
                   = (Return tt, w1)).
      { revert H1. unfold bind, ret.
        destruct (resume PostFailed w) as [[[]|e] wa]; [|discriminate].
        destruct (resume SleepOver wa) as [[[]|e] wb]; [|discriminate].
        auto. }
      rewrite Hr. exact H2.
    + rewrite Hq2. unfold with_attempt. cbn [url payload enqueuedAt attempt].
      do 2 f_equal. lia.
    + assumption.
    + rewrite Hc2, Hc1. rewrite <- app_assoc. reflexivity.
    + rewrite He2, He1. cbn [url payload with_attempt].
      rewrite <- app_assoc. reflexivity.
Qed.

Lemma loop_head_nonempty (w : World) (item : Item) (rest : list Item) :
  queue w = item :: rest ->
  loop_head w =
    (Return tt,
     set_phase Posting
       (set_effects (effects w ++ [HttpPost (url item) (payload item)]) w)).
Proof.
  intros Hq. unfold loop_head.
  destruct w as [? ? ? ? ? ? ? ? ? ? q ? ? ? ? ? ? ? ?]. cbn in Hq. subst q.
  reflexivity.
Qed.

Lemma loop_head_empty (w : World) :
  queue w = [] -> loop_head w = (Return tt, set_phase Idle w).
Proof.
  intros Hq. unfold loop_head.
  destruct w as [? ? ? ? ? ? ? ? ? ? q ? ? ? ? ? ? ? ?]. cbn in Hq. subst q.
  reflexivity.
Qed.

(** A successful delivery removes the head and the loop goes on. *)
Lemma post_resolved_shift (w : World) :
  post_resolved w = loop_head (set_queue (tl (queue w)) w).
Proof. reflexivity. Qed.

Lemma post_ok_step (w : World) (item : Item) (rest : list Item) :
  queue w = item :: rest -> phase w = Posting ->
  exists w',
    resume PostOk w = (Return tt, w') /\ queue w' = rest /\
    console w' = console w.
Proof.
  intros Hq Hp. unfold resume, bind at 1, gets at 1. rewrite Hp.
  rewrite post_resolved_shift, Hq. cbn [tl].
  destruct (loop_head_shape (set_queue rest w)) as (p & e & ->).
  eexists. repeat split.
Qed.

(** An enqueue on an idle dispatcher starts the delivery of the item. *)
Lemma enqueue_idle (event : JsValue) (w : World) :
  WEBHOOK_URL cfg <> "" -> queue w = [] -> phase w = Idle ->
  exists w',
    enqueue event w = (Return tt, w') /\
    queue w' = [mkItem (WEBHOOK_URL cfg) event 0 (now env (tick w))] /\
    phase w' = Posting /\
    effects w' = (effects w ++ [HttpPost (WEBHOOK_URL cfg) event])%list /\
    console w' = console w.
Proof.
  intros Hu Hq Hp. unfold enqueue.
  apply String.eqb_neq in Hu. rewrite Hu.
  unfold run, running, loop_head.
  destruct w as [? ? ? ? ? ? ? ? ? ? q ph ? ? ? ? ? ? ?]. cbn in Hq, Hp.
  subst q ph. monad. eexists. repeat split.
Qed.

(** An enqueue on a running dispatcher only adds the item at the tail. *)
Lemma enqueue_running (event : JsValue) (w : World) :
  WEBHOOK_URL cfg <> "" -> running w = true ->
  enqueue event w =
    (Return tt,
     set_queue (queue w ++ [mkItem (WEBHOOK_URL cfg) event 0 (now env (tick w))])
       (set_tick (S (tick w)) w)).
Proof.
  intros Hu Hr. unfold enqueue.
  apply String.eqb_neq in Hu. rewrite Hu.
  unfold run, running in *.
  destruct w as [? ? ? ? ? ? ? ? ? ? q ph ? ? ? ? ? ? ?]. cbn in Hr.
  monad. destruct ph; [discriminate| |]; reflexivity.
Qed.

(** C4. An item whose destination fails every attempt: after each of the
    first [n] failures, [n] being the retry ceiling, its counter has been
    incremented and it is still at the head of the queue, being retried; the
    next failure takes the counter above the ceiling and the item is
    dropped: removed from the queue, the drop logged, no exception.  The
    worker then goes on: when an item follows in the queue it is posted and
    a success removes it; when the queue is empty the worker stops, and the
    next enqueue starts it again, posts the new item and a success removes
    it. *)
Theorem webhook_drop_after_ceiling (w : World) (item : Item)
  (rest : list Item) (n : nat) :
  queue w = item :: rest -> phase w = Posting -> attempt item = 0 ->
  WEBHOOK_MAX_RETRIES cfg = Z.of_nat n ->
  (forall k, (k <= n)%nat ->
     exists wk,
       resume_all (failures k) w = (Return tt, wk) /\
       queue wk = with_attempt (Z.of_nat k) item :: rest /\
       phase wk = Posting) /\
  exists wd,
    resume_all (failures n ++ [PostFailed]) w = (Return tt, wd) /\
    queue wd = rest /\
    console wd =
      (console w ++ repeat "Webhook failed, retrying" n
         ++ ["Webhook dropped after max retries"])%list /\
    (forall next rest',
       rest = next :: rest' ->
       phase wd = Posting /\
       effects wd =
         (effects w ++ repeat (HttpPost (url item) (payload item)) n
            ++ [HttpPost (url next) (payload next)])%list /\
       exists wn,
         resume PostOk wd = (Return tt, wn) /\ queue wn = rest' /\
         console wn = console wd) /\
    (rest = [] ->
       phase wd = Idle /\
       forall event,
         WEBHOOK_URL cfg <> "" ->
         exists we wn,
           enqueue event wd = (Return tt, we) /\
           queue we = [mkItem (WEBHOOK_URL cfg) event 0 (now env (tick wd))] /\
           phase we = Posting /\
           effects we = (effects wd ++ [HttpPost (WEBHOOK_URL cfg) event])%list /\
           resume PostOk we = (Return tt, wn) /\ queue wn = [] /\
           phase wn = Idle /\ console wn = console wd).
Proof.
  intros Hq Hp Ha Hmax. split.
  - intros k Hk.
    destruct (retries k w item rest Hq Hp) as (wk & Hr & Hqk & Hpk & _);
      [lia|].
    exists wk. rewrite Ha, Z.add_0_l in Hqk. auto.
  - destruct (retries n w item rest Hq Hp) as (w1 & Hr & Hq1 & Hp1 & Hc1 & He1);
      [lia|].
    assert (Hdrop : resume PostFailed w1 =
              loop_head
                (set_console (console w1 ++ ["Webhook dropped after max retries"])
                   (set_queue rest w1))).
    { unfold resume, bind at 1, gets at 1. rewrite Hp1.
      apply (post_rejected_drop w1 _ rest Hq1).
      cbn [attempt with_attempt]. lia. }
    destruct rest as [|next rest'].
    + rewrite loop_head_empty in Hdrop by reflexivity.
      eexists. split; [|split; [|split; [|split]]].
      * rewrite resume_all_app. unfold bind at 1. rewrite Hr.
        cbn [resume_all]. unfold bind at 1. rewrite Hdrop. reflexivity.
      * reflexivity.
      * fields. rewrite Hc1. now rewrite <- app_assoc.
      * intros next rest' H. discriminate H.
      * intros _. split; [reflexivity|]. intros event Hu.
        match goal with |- context [enqueue event ?x] =>
          destruct (enqueue_idle event x Hu) as (we & He & Hqe & Hpe & Hee & Hce);
            [reflexivity|reflexivity|] end.
        exists we. eexists. rewrite He.
        split; [reflexivity|]. split; [exact Hqe|]. split; [exact Hpe|].
        split; [exact Hee|].
        unfold resume, bind at 1, gets at 1. rewrite Hpe.
        rewrite post_resolved_shift, Hqe. cbn [tl].
        rewrite loop_head_empty by reflexivity.
        repeat split. fields. exact Hce.
    + rewrite (loop_head_nonempty _ next rest') in Hdrop by reflexivity.
      eexists. split; [|split; [|split; [|split]]].
      * rewrite resume_all_app. unfold bind at 1. rewrite Hr.
        cbn [resume_all]. unfold bind at 1. rewrite Hdrop. reflexivity.
      * reflexivity.
      * fields. rewrite Hc1. now rewrite <- app_assoc.
      * intros next0 rest0 H. injection H as <- <-.
        split; [reflexivity|]. split.
        { fields. rewrite He1. now rewrite <- app_assoc. }
        match goal with |- context [resume PostOk ?x] =>
          destruct (post_ok_step x next rest') as (wn & Hn & Hqn & Hcn);
            [reflexivity|reflexivity|] end.
        exists wn. auto.
      * intros H. discriminate H.
Qed.

(** ** Emission, precisely *)

Lemma appendEvent_journal (event : JsValue) (w : World) :
  events_log (exec (appendEvent event) w) = events_log w \/
  exists s, JSON_stringify env event = Some s /\
            events_log (exec (appendEvent event) w)
            = appended (events_log w) (s ++ nl)%string.
Proof.
  unfold appendEvent. monad.
  destruct (JSON_stringify env event) as [s|]; [|now left].
  destruct (appendFileSync_ok env _); [|now left].
  right. exists s. split; reflexivity.
Qed.

Lemma enqueue_queue (event : JsValue) (w : World) :
  (WEBHOOK_URL cfg = "" -> queue (exec (enqueue event) w) = queue w) /\
  (WEBHOOK_URL cfg <> "" ->
   queue (exec (enqueue event) w)
   = (queue w ++ [mkItem (WEBHOOK_URL cfg) event 0 (now env (tick w))])%list).
Proof.
  unfold enqueue. split; intros Hu.
  - rewrite Hu. reflexivity.
  - apply String.eqb_neq in Hu. rewrite Hu.
    unfold run, running. monad.
    destruct (phase w); fields; try reflexivity.
    match goal with |- context [loop_head ?x] =>
      destruct (loop_head_shape x) as (p & e & ->) end.
    reflexivity.
Qed.

Lemma pushEvent_emits_one (eventType : string) (data : JsValue) (w : World) :
  emits_one eventType data w (exec (pushEvent eventType data) w).
Proof.
  unfold emits_one, pushEvent. monad.
  set (event := mkEvent (now env (tick w)) eventType data).
  match goal with |- context [appendEvent event ?x] => set (w1 := x) end.
  destruct (appendEvent_shape event w1) as (l & c & e & t & Ha).
  pose proof (appendEvent_journal event w1) as Hj.
  unfold exec in Hj. rewrite Ha in *. fields_in Hj. fields.
  match goal with |- context [enqueue event ?x] => set (w2 := x) end.
  destruct (enqueue_shape event w2) as (q & p & e' & t' & He).
  pose proof (enqueue_queue event w2) as [Hq0 Hq1].
  unfold exec in Hq0, Hq1. rewrite He in *. fields_in Hq0. fields_in Hq1.
  fields. subst w1 w2. fields_in Hj.
  repeat split.
  - exact Hj.
  - exact Hq0.
  - intros Hu. eexists. apply Hq1, Hu.
Qed.

(** ** The handler of [connection.update] *)

Lemma on_qr_update_shape (u : Update) (w : World) :
  exists x y z b l q p c e t,
    on_qr_update u w =
      (Return tt,
       emission b l q p c e t
         (set_currentQr x (set_currentQrDataUrl y (set_qrUpdatedAt z w)))).
Proof.
  unfold on_qr_update, emission.
  destruct (qr u) as [s|]; [destruct (nonempty s)|].
  - unfold on_qr, on_qr_begin, on_qr_resume. monad.
    match goal with |- context [pushEvent ?ty ?d ?x] =>
      destruct (pushEvent_shape ty d x) as (b & l & q & p & c & e & t & ->) end.
    unfold emission. fields. repeat eexists.
  - destruct w. monad. repeat eexists.
  - destruct w. monad. repeat eexists.
Qed.

(** The world in which [on_open] calls [pushEvent]. *)
Lemma on_open_run (w : World) :
  on_open w =
    pushEvent "connection.open"
      (JObj [("me", js_or (socket_user (socket w)) JNull)])
      (set_console (console w ++ ["WhatsApp connected"])
         (set_me (js_or (socket_user (socket w)) JNull)
            (set_qrUpdatedAt None
               (set_currentQrDataUrl None
                  (set_currentQr None
                     (set_lastDisconnectReason JNull
                        (set_reconnectAttempts 0 (set_connected true w)))))))).
Proof. reflexivity. Qed.


Lemma shouldReconnect_false_iff (code : option Z) :
  shouldReconnect code = false <-> code = Some (loggedOut cfg).
Proof.
  unfold shouldReconnect. destruct code as [c|].
  - rewrite negb_false_iff, Z.eqb_eq. split; [now intros ->|now intros [= ->]].
  - split; discriminate.
Qed.

(** The world in which [on_close] calls [pushEvent], and what follows the
    call. *)
Lemma on_close_run (code : option Z) (w : World) :
  let w1 :=
    set_console (console w ++ ["WhatsApp disconnected"])
      (set_lastDisconnectReason (js_or (js_of_code code) (JStr "unknown"))
         (set_connected false w)) in
  let data :=
    JObj [("statusCode", js_of_code code);
          ("shouldReconnect", JBool (shouldReconnect code))] in
  exists w2,
    pushEvent "connection.close" data w1 = (Return tt, w2) /\
    on_close code w =
      (Return tt,
       if shouldReconnect code
       then
         set_reconnectTimer (Some (next_timer w))
           (set_next_timer (S (next_timer w))
              (set_timers
                 (timers w ++
                  [mkTimer (next_timer w)
                     (backoffMs (random env (tick w2)) (reconnectAttempts w + 1)
                        (RECONNECT_BASE_MS cfg) (RECONNECT_MAX_MS cfg))])
                 (set_console (console w2 ++ ["Scheduling reconnect"])
                    (set_tick (S (tick w2))
                       (set_reconnectAttempts (reconnectAttempts w + 1) w2)))))
       else w2).
Proof.
  cbv zeta. unfold on_close.
  match goal with |- context [pushEvent ?ty ?d ?x] =>
    destruct (pushEvent_shape ty d x) as (b & l & q & p & c & e & t & Hp) end.
  eexists. split; [exact Hp|].
  unfold emission in *. unfold setTimeout. monad. fields_in Hp. rewrite Hp.
  destruct (shouldReconnect code); reflexivity.
Qed.

(** C2. On a session-close update the flag [shouldReconnect] is false
    exactly when the status code of the disconnect is the logged-out
    reason; the handler returns with [connected] false and has emitted one
    [connection.close] event carrying the flag.  When the reason is
    logged-out no timer is created and [reconnectAttempts], the timer table
    and the timer handle are unchanged; for every other reason exactly one
    reconnect timer is added to the table, the handle refers to it, and
    [reconnectAttempts] has grown by exactly 1. *)
Theorem session_close (u : Update) (w : World) :
  is_close u = true ->
  let code := lastDisconnect_statusCode u in
  let w0 := exec (on_qr_update u) w in
  let w' := exec (on_connection_update u) w in
  (shouldReconnect code = false <-> code = Some (loggedOut cfg)) /\
  result (on_connection_update u) w = Return tt /\
  connected w' = false /\
  emits_one "connection.close"
    (JObj [("statusCode", js_of_code code);
           ("shouldReconnect", JBool (shouldReconnect code))]) w0 w' /\
  (code = Some (loggedOut cfg) ->
   timers w' = timers w /\ next_timer w' = next_timer w /\
   reconnectTimer w' = reconnectTimer w /\
   reconnectAttempts w' = reconnectAttempts w) /\
  (code <> Some (loggedOut cfg) ->
   exists delay,
     timers w' = (timers w ++ [mkTimer (next_timer w) delay])%list /\
     next_timer w' = S (next_timer w) /\
     reconnectTimer w' = Some (next_timer w) /\
     reconnectAttempts w' = reconnectAttempts w + 1).
Proof.
  intros Hc. cbv zeta.
  split; [apply shouldReconnect_false_iff|].
  assert (Ho : is_open u = false).
  { unfold is_open, is_close in *. now destruct (connection u) as [[]|]. }
  unfold on_connection_update, exec, result. rewrite Ho, Hc.
  destruct (on_qr_update_shape u w) as (x & y & z & b & l & q & p & c & e & t & Hq).
  unfold bind, when, ret. rewrite Hq.
  match goal with |- context [on_close ?cd ?x] =>
    destruct (on_close_run cd x) as (w2 & Hp & Hrun) end.
  rewrite Hrun. clear Hrun.
  match type of Hp with pushEvent ?ty ?d ?x = _ =>
    pose proof (pushEvent_emits_one ty d x) as Hem;
    destruct (pushEvent_shape ty d x) as (b' & l' & q' & p' & c' & e' & t' & Hs)
  end.
  unfold exec in Hem. rewrite Hp in Hem. rewrite Hs in Hp.
  injection Hp as <-.
  unfold emission, emits_one in *. fields_in Hem.
  pose proof (shouldReconnect_false_iff (lastDisconnect_statusCode u)) as Hiff.
  destruct (shouldReconnect (lastDisconnect_statusCode u)); fields.
  - split; [reflexivity|]. split; [reflexivity|]. split; [exact Hem|]. split.
    + intros Hl. apply Hiff in Hl. discriminate Hl.
    + intros _. eexists. repeat split.
  - split; [reflexivity|]. split; [reflexivity|]. split; [exact Hem|]. split.
    + intros _. repeat split.
    + intros Hn. exfalso. apply Hn. now apply Hiff.
Qed.

(** C8. For an attempt number [n >= 1], a value [r] of [Math.random()]
    (a Number in [0, 1)) and a base and a maximum that are integers of
    magnitude below [2^53], the base not negative, and positive when
    [n > 1024]: the delay is [min(max, base * 2^(n-1) + j)] for an integer
    jitter [j] with [0 <= j < 200].  For any Numbers whatever the delay is
    not greater than the maximum.  The dispatcher sleeps for this delay,
    computed from the incremented counter of the item and the webhook base
    and maximum; the close handler arms the reconnect timer with this
    delay, computed from the incremented [reconnectAttempts] and the
    reconnect base and maximum. *)
Theorem backoff_delay (r : Q) (n base max : Z) :
  is_Number r -> (0 <= r < 1)%Q -> 1 <= n ->
  0 <= base < 2 ^ 53 -> Z.abs max < 2 ^ 53 ->
  1 <= base \/ n <= 1024 ->
  (exists j, 0 <= j < 200 /\
             backoffMs r n (num base) (num max)
             = num (Z.min max (base * 2 ^ (n - 1) + j))) /\
  (forall r' n' baseMs maxMs,
     Number_gt (backoffMs r' n' baseMs maxMs) maxMs = false) /\
  (forall w item rest,
     queue w = item :: rest -> phase w = Posting ->
     attempt item + 1 <= WEBHOOK_MAX_RETRIES cfg ->
     phase (exec (resume PostFailed) w) =
       Sleeping (backoffMs (random env (tick w)) (attempt item + 1)
                   (WEBHOOK_RETRY_BASE_MS cfg) (WEBHOOK_RETRY_MAX_MS cfg))) /\
  (forall w code,
     shouldReconnect code = true ->
     exists k,
       timers (exec (on_close code) w) =
         (timers w ++
          [mkTimer (next_timer w)
             (backoffMs (random env k) (reconnectAttempts w + 1)
                (RECONNECT_BASE_MS cfg) (RECONNECT_MAX_MS cfg))])%list).
Proof.
  intros Hr [H0 H1] Hn Hb Hm Hz. split; [|split; [|split]].
  - destruct (backoffMs_exact r n base max Hr H0 H1 Hb ltac:(lia) Hz)
      as (j & _ & Hj & E).
    exists j. split; [exact Hj|]. rewrite E. now rewrite Z.max_r by lia.
  - intros r' n' baseMs maxMs. apply Math_min_not_above.
  - intros w item rest Hq Hp Ha.
    unfold exec, resume, bind at 1, gets at 1. rewrite Hp.
    now rewrite (post_rejected_retry w item rest Hq Ha).
  - intros w code Hs.
    destruct (on_close_run code w) as (w2 & Hp & Hrun).
    unfold exec. rewrite Hrun, Hs. fields. eexists. reflexivity.
Qed.

(** C5. A send made while no socket exists or [connected] is false, with
    fields that pass validation, fails with the not-connected error, whose
    status is 503, and leaves the world as it was: nothing is sent and
    nothing is appended to the journal, the buffer or the webhook queue. *)
Theorem send_while_disconnected (w : World)
  (target msg base64 filename mimetype pollText pollOptions : JsValue) :
  socket w = None \/ connected w = false ->
  not_a_string target = false ->
  not_a_string msg = false ->
  not_a_string base64 = false -> not_a_string filename = false ->
  not_a_string mimetype = false ->
  poll_shape_ok target pollText pollOptions = true ->
  statusCode notConnected = Some 503 /\
  sendText target msg w = (Throw notConnected, w) /\
  sendMedia target base64 filename mimetype w = (Throw notConnected, w) /\
  sendPoll target pollText pollOptions w = (Throw notConnected, w).
Proof.
  intros Hc Ht Hm Hb Hf Hmi Hp. split; [reflexivity|]. split; [|split].
  - now apply sendText_disconnected.
  - now apply sendMedia_disconnected.
  - now apply sendPoll_disconnected.
Qed.

(** With an open session the send is attempted. *)
Lemma sendText_connected (s m : string) (w : World) (so : Socket) :
  s <> "" -> m <> "" -> socket w = Some so -> connected w = true ->
  exists e,
    effects (exec (sendText (JStr s) (JStr m)) w) =
      (effects w ++ SendMessage (sock_id so) (trim s) (CText m) :: e)%list.
Proof.
  intros Hs Hm Hso Hc. unfold sendText, exec.
  unfold bind at 1. rewrite normalizeTarget_ok by assumption.
  rewrite not_a_string_JStr by assumption.
  unfold when, ret. unfold bind at 1 2.
  rewrite (ensureConnected_ok w so) by assumption.
  unfold socket_sendMessage. monad. rewrite Hso. cbn [toString].
  destruct (sendMessage env (tick w) (trim s) (CText m)) as [sent|].
  - match goal with |- context [pushEvent ?ty ?d ?x] =>
      destruct (pushEvent_effects ty d x) as (e & He);
      destruct (pushEvent_shape ty d x) as (b & l & q & p & c & e' & t & Hp)
    end.
    unfold exec in He. rewrite Hp in He |- *. unfold emission in *.
    fields_in He. fields. rewrite He. exists e.
    now rewrite <- app_assoc.
  - fields. exists []. reflexivity.
Qed.

Lemma sendMedia_connected (s b f m : string) (w : World) (so : Socket) :
  s <> "" -> b <> "" -> f <> "" -> m <> "" ->
  socket w = Some so -> connected w = true ->
  exists e,
    effects (exec (sendMedia (JStr s) (JStr b) (JStr f) (JStr m)) w) =
      (effects w ++ SendMessage (sock_id so) (trim s) (CDocument b f m) :: e)%list.
Proof.
  intros Hs Hb Hf Hm Hso Hc. unfold sendMedia, exec.
  unfold bind at 1. rewrite normalizeTarget_ok by assumption.
  rewrite !not_a_string_JStr by assumption.
  unfold when, ret. unfold bind at 1 2 3 4.
  rewrite (ensureConnected_ok w so) by assumption.
  unfold socket_sendMessage. monad. rewrite Hso. cbn [toString].
  destruct (sendMessage env (tick w) (trim s) (CDocument b f m)) as [sent|].
  - match goal with |- context [pushEvent ?ty ?d ?x] =>
      destruct (pushEvent_effects ty d x) as (e & He);
      destruct (pushEvent_shape ty d x) as (b0 & l & q & p & c & e' & t & Hp)
    end.
    unfold exec in He. rewrite Hp in He |- *. unfold emission in *.
    fields_in He. fields. rewrite He. exists e.
    now rewrite <- app_assoc.
  - fields. exists []. reflexivity.
Qed.

(** ** Validation of a poll *)

Lemma sendPoll_invalid_shape (target pollText pollOptions : JsValue)
  (w : World) :
  poll_shape_ok target pollText pollOptions = false ->
  exists e,
    sendPoll target pollText pollOptions w = (Throw e, w) /\
    statusCode e = Some 400.
Proof.
  intros H. unfold sendPoll.
  destruct (not_a_string target) eqn:Ht.
  { unfold bind at 1. rewrite normalizeTarget_rejects by assumption.
    eexists. split; reflexivity. }
  destruct (not_a_string_false _ Ht) as (s & -> & Hs).
  unfold bind at 1. rewrite normalizeTarget_ok by assumption.
  destruct (not_a_string pollText) eqn:Hp.
  { monad. eexists. split; reflexivity. }
  destruct (negb (isArray pollOptions)
            || (Z.of_nat (List.length (array_items pollOptions)) <? 2)) eqn:Ho.
  { monad. eexists. split; reflexivity. }
  exfalso. unfold poll_shape_ok in H. rewrite Ht, Hp in H. cbn [negb andb] in H.
  apply orb_false_iff in Ho. destruct Ho as [Ha Hl].
  apply negb_false_iff in Ha. rewrite Ha in H. cbn [andb] in H.
  apply Z.ltb_ge in Hl. apply Z.leb_le in Hl. congruence.
Qed.

Lemma sendPoll_open_prefix (target pollText pollOptions : JsValue)
  (w : World) (so : Socket) :
  poll_shape_ok target pollText pollOptions = true ->
  socket w = Some so -> connected w = true ->
  exists s p,
    target = JStr s /\ pollText = JStr p /\
    sendPoll target pollText pollOptions w =
      (let options := poll_options pollOptions in
       when (Z.of_nat (List.length options) <? 2)
         (throwBadRequest
            "pollOptions must contain at least 2 non-empty options.") ;;
       sent <- socket_sendMessage (trim s) (CPoll p options 1) ;;
       pushEvent "send.poll"
         (JObj [("jid", JStr (trim s)); ("pollText", pollText);
                ("options", JArr (map JStr options));
                ("messageId", opt_prop (opt_prop sent "key") "id")]) ;;
       ret (JObj [("jid", JStr (trim s)); ("pollText", pollText);
                  ("options", JArr (map JStr options)); ("sent", sent)])) w.
Proof.
  intros H Hso Hc. apply poll_shape_ok_inv in H. destruct H as (Ht & Hp & Ho).
  destruct (not_a_string_false _ Ht) as (s & -> & Hs).
  destruct (not_a_string_false _ Hp) as (p & -> & Hp').
  exists s, p. split; [reflexivity|]. split; [reflexivity|].
  unfold sendPoll.
  unfold bind at 1. rewrite normalizeTarget_ok by assumption.
  rewrite Hp, Ho. unfold when at 1 2. unfold ret at 1 2.
  unfold bind at 1 2 3. rewrite (ensureConnected_ok w so) by assumption.
  reflexivity.
Qed.

(** With an open session, options that normalise to fewer than two are
    rejected, and nothing is sent. *)
Lemma sendPoll_open_few (target pollText pollOptions : JsValue)
  (w : World) (so : Socket) :
  poll_shape_ok target pollText pollOptions = true ->
  socket w = Some so -> connected w = true ->
  (List.length (poll_options pollOptions) < 2)%nat ->
  sendPoll target pollText pollOptions w =
    (Throw (badRequest "pollOptions must contain at least 2 non-empty options."),
     w).
Proof.
  intros H Hso Hc Hl.
  destruct (sendPoll_open_prefix _ _ _ w so H Hso Hc) as (s & p & _ & _ & ->).
  cbv zeta.
  assert (Hlt : (Z.of_nat (List.length (poll_options pollOptions)) <? 2) = true)
    by (apply Z.ltb_lt; lia).
  rewrite Hlt. reflexivity.
Qed.

(** With an open session and at least two effective options the poll is
    sent with exactly these options. *)
Lemma sendPoll_open_sent (target pollText pollOptions : JsValue)
  (w : World) (so : Socket) :
  poll_shape_ok target pollText pollOptions = true ->
  socket w = Some so -> connected w = true ->
  (2 <= List.length (poll_options pollOptions))%nat ->
  exists e,
    effects (exec (sendPoll target pollText pollOptions) w) =
      (effects w ++
       SendMessage (sock_id so) (trim (toString target))
         (CPoll (toString pollText) (poll_options pollOptions) 1) :: e)%list.
Proof.
  intros H Hso Hc Hl.
  destruct (sendPoll_open_prefix _ _ _ w so H Hso Hc) as (s & p & -> & -> & Hrun).
  unfold exec. rewrite Hrun. clear Hrun. cbv zeta. cbn [toString].
  assert (Hge : (Z.of_nat (List.length (poll_options pollOptions)) <? 2) = false)
    by (apply Z.ltb_ge; lia).
  rewrite Hge. unfold socket_sendMessage. monad. rewrite Hso.
  destruct (sendMessage env (tick w) (trim s)
              (CPoll p (poll_options pollOptions) 1)) as [sent|].
  - match goal with |- context [pushEvent ?ty ?d ?x] =>
      destruct (pushEvent_effects ty d x) as (e & He);
      destruct (pushEvent_shape ty d x) as (b0 & l & q & p0 & c & e' & t & Hp)
    end.
    unfold exec in He. rewrite Hp in He |- *. unfold emission in *.
    fields_in He. fields. rewrite He. exists e.
    now rewrite <- app_assoc.
  - fields. exists []. reflexivity.
Qed.

Lemma single_option_rejected (target pollText option : JsValue) :
  poll_shape_ok target pollText (JArr [option]) = false.
Proof.
  unfold poll_shape_ok. cbn [array_items List.length isArray].
  now rewrite andb_false_r.
Qed.

(** C3, as the code has it.  The checks of the target, of the poll text and
    of [pollOptions] being an array of at least 2 entries come before
    [ensureConnected]: a call that fails one of them fails with status 400
    whether or not a session is open, and a single option always does.  The
    check that the options, converted to strings and trimmed, keep at least
    2 non-empty entries comes after [ensureConnected]: with no session the
    call fails with status 503 whatever the options normalise to; with a
    session it fails with status 400 when fewer than 2 remain, and otherwise
    the poll is sent with the effective options.  The options
    ["A", " ", "B"] pass both checks with effective options ["A", "B"]. *)
Theorem sendPoll_validation (target pollText pollOptions : JsValue)
  (w : World) :
  (poll_shape_ok target pollText pollOptions = false ->
   exists e,
     sendPoll target pollText pollOptions w = (Throw e, w) /\
     statusCode e = Some 400) /\
  (forall option, poll_shape_ok target pollText (JArr [option]) = false) /\
  (poll_shape_ok target pollText pollOptions = true ->
   (socket w = None \/ connected w = false ->
    sendPoll target pollText pollOptions w = (Throw notConnected, w) /\
    statusCode notConnected = Some 503) /\
   (forall so,
      socket w = Some so -> connected w = true ->
      ((List.length (poll_options pollOptions) < 2)%nat ->
       exists e,
         sendPoll target pollText pollOptions w = (Throw e, w) /\
         statusCode e = Some 400) /\
      ((2 <= List.length (poll_options pollOptions))%nat ->
       exists e,
         effects (exec (sendPoll target pollText pollOptions) w) =
           (effects w ++
            SendMessage (sock_id so) (trim (toString target))
              (CPoll (toString pollText) (poll_options pollOptions) 1) :: e)%list))) /\
  poll_shape_ok (JStr "x") (JStr "q") (JArr [JStr "A"; JStr " "; JStr "B"]) = true /\
  poll_options (JArr [JStr "A"; JStr " "; JStr "B"]) = ["A"; "B"].
Proof.
  split; [apply sendPoll_invalid_shape|].
  split; [intros option; apply single_option_rejected|].
  split; [|split; reflexivity].
  intros H. split.
  - intros Hc. split; [now apply sendPoll_disconnected|reflexivity].
  - intros so Hso Hc. split.
    + intros Hl. eexists. split.
      * now apply (sendPoll_open_few _ _ _ w so).
      * reflexivity.
    + intros Hl. now apply sendPoll_open_sent.
Qed.

(** ** Targets made of white space *)

Lemma normalizeTarget_rejects_iff (v : JsValue) (w : World) :
  (exists e, normalizeTarget v w = (Throw e, w) /\ statusCode e = Some 400) <->
  ~ (exists s, v = JStr s /\ s <> "").
Proof.
  split.
  - intros (e & He & _) (s & -> & Hs).
    rewrite normalizeTarget_ok in He by assumption. discriminate He.
  - intros Hn. destruct (not_a_string v) eqn:Hv.
    + eexists. split; [now apply normalizeTarget_rejects|reflexivity].
    + exfalso. apply Hn. now apply not_a_string_false.
Qed.

Lemma all_ws_poll_shape (s : string) (pollText pollOptions : JsValue) :
  s <> "" ->
  poll_shape_ok (JStr "x") pollText pollOptions = true ->
  poll_shape_ok (JStr s) pollText pollOptions = true.
Proof.
  intros Hs. unfold poll_shape_ok.
  rewrite (not_a_string_JStr s Hs). now rewrite (not_a_string_JStr "x").
Qed.

(** C10. A target that is a non-empty string made only of white space
    passes [normalizeTarget], which returns the trimmed, hence empty, string
    as the JID; [normalizeTarget] rejects, with status 400, exactly the
    values that are not a non-empty string.  So with such a target and the
    other fields valid, each send reaches the connectivity check: it fails
    with the not-connected error when no session is open, and with an open
    session the message is sent to the empty JID. *)
Theorem whitespace_target_accepted (s : string) (w : World) :
  s <> "" -> all_ws s = true ->
  normalizeTarget (JStr s) w = (Return "", w) /\
  (forall v,
     (exists e, normalizeTarget v w = (Throw e, w) /\ statusCode e = Some 400)
     <-> ~ (exists t, v = JStr t /\ t <> "")) /\
  (forall m b f mt q pollOptions,
     m <> "" -> b <> "" -> f <> "" -> mt <> "" ->
     poll_shape_ok (JStr "x") (JStr q) pollOptions = true ->
     (2 <= List.length (poll_options pollOptions))%nat ->
     (socket w = None \/ connected w = false ->
      sendText (JStr s) (JStr m) w = (Throw notConnected, w) /\
      sendMedia (JStr s) (JStr b) (JStr f) (JStr mt) w = (Throw notConnected, w) /\
      sendPoll (JStr s) (JStr q) pollOptions w = (Throw notConnected, w)) /\
     (forall so,
        socket w = Some so -> connected w = true ->
        (exists e,
           effects (exec (sendText (JStr s) (JStr m)) w) =
             (effects w ++ SendMessage (sock_id so) "" (CText m) :: e)%list) /\
        (exists e,
           effects (exec (sendMedia (JStr s) (JStr b) (JStr f) (JStr mt)) w) =
             (effects w ++
              SendMessage (sock_id so) "" (CDocument b f mt) :: e)%list) /\
        (exists e,
           effects (exec (sendPoll (JStr s) (JStr q) pollOptions) w) =
             (effects w ++
              SendMessage (sock_id so) ""
                (CPoll q (poll_options pollOptions) 1) :: e)%list))).
Proof.
  intros Hs Hw. split; [|split].
  - rewrite normalizeTarget_ok by assumption. now rewrite trim_all_ws.
  - intros v. apply normalizeTarget_rejects_iff.
  - intros m b f mt q pollOptions Hm Hb Hf Hmt Hp Hl.
    pose proof (all_ws_poll_shape s _ _ Hs Hp) as Hp'.
    split.
    + intros Hc. split; [|split].
      * apply sendText_disconnected; auto using not_a_string_JStr.
      * apply sendMedia_disconnected; auto using not_a_string_JStr.
      * now apply sendPoll_disconnected.
    + intros so Hso Hc.
      rewrite <- (trim_all_ws s Hw). split; [|split].
      * now apply sendText_connected.
      * now apply sendMedia_connected.
      * apply (sendPoll_open_sent (JStr s) (JStr q) pollOptions w so); assumption.
Qed.

(** ** The journal file *)

Lemma string_app_assoc (a b c : string) :
  ((a ++ b) ++ c)%string = (a ++ b ++ c)%string.
Proof. induction a as [|x a IH]; cbn; [reflexivity|now rewrite IH]. Qed.

Lemma journal_text_app (l1 l2 : list string) :
  journal_text (l1 ++ l2) = (journal_text l1 ++ journal_text l2)%string.
Proof.
  induction l1 as [|l r IH]; cbn [journal_text app]; [reflexivity|].
  now rewrite IH, !string_app_assoc.
Qed.

Lemma split_lines_line (l rest : string) :
  has_newline l = false ->
  split_lines (l ++ nl ++ rest) = l :: split_lines rest.
Proof.
  induction l as [|c l IH]; intros H.
  - cbn. reflexivity.
  - cbn [has_newline] in H. apply orb_false_iff in H. destruct H as [Hc Hl].
    cbn [append split_lines]. rewrite Hc. now rewrite (IH Hl).
Qed.

(** The rows of a journal are its non-empty lines. *)
Lemma rows_of_journal (lines : list string) :
  Forall (fun l => has_newline l = false) lines ->
  filter nonempty (split_lines (journal_text lines)) = filter nonempty lines.
Proof.
  induction 1 as [|l r Hl Hr IH]; [reflexivity|].
  cbn [journal_text]. rewrite split_lines_line by assumption.
  cbn [filter]. now rewrite IH.
Qed.

Lemma scan_rows_kept (startDate endDate : Z) (rows : list string) :
  forall events,
    scan_rows startDate endDate rows events
    = (events ++ kept startDate endDate rows)%list.
Proof.
  induction rows as [|row rest IH]; intros events; cbn [scan_rows kept].
  - now rewrite app_nil_r.
  - destruct (row_event startDate endDate row) as [parsed|].
    + rewrite IH, <- app_assoc. reflexivity.
    + apply IH.
Qed.

Lemma kept_app (startDate endDate : Z) (rows1 rows2 : list string) :
  kept startDate endDate (rows1 ++ rows2)
  = (kept startDate endDate rows1 ++ kept startDate endDate rows2)%list.
Proof.
  induction rows1 as [|row rest IH]; cbn [kept app]; [reflexivity|].
  destruct (row_event startDate endDate row); [cbn; f_equal|]; exact IH.
Qed.

Lemma corrupt_skipped (startDate endDate : Z) (row : string) :
  corrupt row -> row_event startDate endDate row = None.
Proof.
  unfold corrupt, row_event, event_time.
  destruct (JSON_parse env row) as [parsed|]; [|reflexivity].
  destruct (get_prop parsed "timestamp") as [tsv|]; [|reflexivity].
  now intros ->.
Qed.

Lemma parsed_row (startDate endDate : Z) (row : string) (event : JsValue) :
  JSON_parse env row = Some event ->
  row_event startDate endDate row
  = if in_range startDate endDate event then Some event else None.
Proof.
  intros H. unfold row_event, in_range, event_time. rewrite H.
  destruct (get_prop event "timestamp") as [tsv|]; [|reflexivity].
  destruct (newDate tsv); reflexivity.
Qed.

Lemma readEventsBetween_missing (startDate endDate : Z) (w : World) :
  events_log w = None ->
  readEventsBetween startDate endDate w
  = (Return [], set_effects (effects w ++ [FsExists]) w).
Proof. intros H. unfold readEventsBetween. monad. now rewrite H. Qed.

Lemma readEventsBetween_present (startDate endDate : Z) (w : World)
  (content : string) :
  events_log w = Some content ->
  readEventsBetween startDate endDate w
  = (Return (kept startDate endDate (filter nonempty (split_lines content))),
     set_effects (effects w ++ [FsExists; FsRead]) w).
Proof.
  intros H. unfold readEventsBetween. monad. rewrite H. fields.
  rewrite scan_rows_kept, <- app_assoc. reflexivity.
Qed.

Lemma appendEvent_returns (event : JsValue) (w : World) :
  result (appendEvent event) w = Return tt.
Proof.
  destruct (appendEvent_shape event w) as (l & c & e & t & H).
  unfold result. now rewrite H.
Qed.

Lemma pushEvent_returns (eventType : string) (data : JsValue) (w : World) :
  result (pushEvent eventType data) w = Return tt.
Proof.
  destruct (pushEvent_shape eventType data w) as (b & l & q & p & c & e & t & H).
  unfold result. now rewrite H.
Qed.

Lemma appendEvent_failure (event : JsValue) (w : World) :
  JSON_stringify env event = None \/ appendFileSync_ok env (tick w) = false ->
  events_log (exec (appendEvent event) w) = events_log w /\
  console (exec (appendEvent event) w)
  = (console w ++ ["Failed to append event log"])%list.
Proof.
  unfold appendEvent. monad.
  destruct (JSON_stringify env event) as [s|].
  - intros [H|H]; [discriminate H|]. rewrite H. split; reflexivity.
  - intros _. split; reflexivity.
Qed.

(** C6. [appendEvent] returns normally in every case, and so does
    [pushEvent], the producer of events; when the line cannot be produced
    or the write fails, the journal is unchanged and the failure is logged.
    Reading a missing journal returns the empty list.  Reading a journal
    with a corrupt line (one that does not parse, or has no readable valid
    time stamp) returns what the rows before it and the rows after it yield,
    which is what the journal without that line returns. *)
Theorem journal_failures_contained :
  (forall event w, result (appendEvent event) w = Return tt) /\
  (forall eventType data w, result (pushEvent eventType data) w = Return tt) /\
  (forall event w,
     JSON_stringify env event = None \/ appendFileSync_ok env (tick w) = false ->
     events_log (exec (appendEvent event) w) = events_log w /\
     console (exec (appendEvent event) w)
     = (console w ++ ["Failed to append event log"])%list) /\
  (forall startDate endDate w,
     events_log w = None ->
     result (readEventsBetween startDate endDate) w = Return []) /\
  (forall startDate endDate w w' lines1 bad lines2,
     corrupt bad ->
     Forall (fun l => has_newline l = false) (lines1 ++ bad :: lines2) ->
     events_log w = Some (journal_text (lines1 ++ bad :: lines2)) ->
     events_log w' = Some (journal_text (lines1 ++ lines2)) ->
     result (readEventsBetween startDate endDate) w
     = Return (kept startDate endDate (filter nonempty lines1)
               ++ kept startDate endDate (filter nonempty lines2))%list /\
     result (readEventsBetween startDate endDate) w
     = result (readEventsBetween startDate endDate) w').
Proof.
  split; [apply appendEvent_returns|].
  split; [apply pushEvent_returns|].
  split; [apply appendEvent_failure|].
  split.
  - intros s e w H. unfold result. now rewrite readEventsBetween_missing.
  - intros s e w w' lines1 bad lines2 Hbad Hnl Hw Hw'.
    assert (Hnl' : Forall (fun l => has_newline l = false) (lines1 ++ lines2)).
    { apply Forall_app in Hnl. destruct Hnl as [H1 H2].
      apply Forall_app. split; [assumption|]. now inversion H2. }
    unfold result.
    rewrite (readEventsBetween_present s e w _ Hw).
    rewrite (readEventsBetween_present s e w' _ Hw').
    cbn [fst]. rewrite !rows_of_journal by assumption.
    rewrite !filter_app, !kept_app. cbn [filter].
    assert (Hk : kept s e (if nonempty bad
                           then bad :: filter nonempty lines2
                           else filter nonempty lines2)
                 = kept s e (filter nonempty lines2)).
    { destruct (nonempty bad); [|reflexivity].
      cbn [kept]. now rewrite corrupt_skipped. }
    rewrite Hk. split; reflexivity.
Qed.

(** ** Appending, then querying *)

Lemma string_app_nil_r (a : string) : (a ++ "")%string = a.
Proof. induction a as [|x a IH]; cbn; [reflexivity|now rewrite IH]. Qed.

Lemma appendEvent_success (event : JsValue) (line : string) (w : World) :
  JSON_stringify env event = Some line ->
  appendFileSync_ok env (tick w) = true ->
  content_of (events_log (exec (appendEvent event) w))
  = (content_of (events_log w) ++ line ++ nl)%string.
Proof.
  intros Hs Hok. unfold appendEvent. monad. rewrite Hs, Hok. fields.
  destruct (events_log w); reflexivity.
Qed.

Lemma exec_append_all_cons (event : JsValue) (rest : list JsValue) (w : World) :
  exec (append_all (event :: rest)) w
  = exec (append_all rest) (exec (appendEvent event) w).
Proof.
  cbn [append_all]. unfold exec, bind.
  destruct (appendEvent_shape event w) as (l & c & e & t & ->). reflexivity.
Qed.

Lemma append_all_content (events : list JsValue) (lines : list string) :
  (forall k, appendFileSync_ok env k = true) ->
  Forall2 (fun event line => JSON_stringify env event = Some line) events lines ->
  forall w,
    content_of (events_log (exec (append_all events) w))
    = (content_of (events_log w) ++ journal_text lines)%string.
Proof.
  intros Hok. induction 1 as [|event line events lines Hs _ IH]; intros w.
  - cbn. now rewrite string_app_nil_r.
  - rewrite exec_append_all_cons, IH.
    rewrite (appendEvent_success event line w Hs (Hok _)).
    cbn [journal_text]. now rewrite !string_app_assoc.
Qed.

Lemma readEventsBetween_content (startDate endDate : Z) (w : World) :
  result (readEventsBetween startDate endDate) w
  = Return (kept startDate endDate
              (filter nonempty (split_lines (content_of (events_log w))))).
Proof.
  unfold result. destruct (events_log w) as [content|] eqn:H.
  - now rewrite (readEventsBetween_present _ _ w content H).
  - now rewrite (readEventsBetween_missing _ _ w H).
Qed.

Lemma well_formed_lines (events : list JsValue) :
  Forall well_formed events ->
  exists lines,
    Forall2 (fun event line => JSON_stringify env event = Some line) events lines /\
    Forall2 (fun event line => JSON_parse env line = Some event) events lines /\
    Forall (fun line => has_newline line = false) lines /\
    Forall (fun line => nonempty line = true) lines.
Proof.
  induction 1 as [|event events (line & Hs & Hp & Hn & He) _ IH].
  - exists []. repeat split; constructor.
  - destruct IH as (lines & H1 & H2 & H3 & H4).
    exists (line :: lines). repeat split; constructor; try assumption.
    unfold nonempty. apply negb_true_iff. now apply String.eqb_neq.
Qed.

Lemma filter_all {A} (f : A -> bool) (l : list A) :
  Forall (fun x => f x = true) l -> filter f l = l.
Proof.
  induction 1 as [|x l Hx _ IH]; cbn; [reflexivity|]. now rewrite Hx, IH.
Qed.

Lemma kept_parsed (startDate endDate : Z) (events : list JsValue)
  (lines : list string) :
  Forall2 (fun event line => JSON_parse env line = Some event) events lines ->
  kept startDate endDate lines = filter (in_range startDate endDate) events.
Proof.
  induction 1 as [|event line events lines Hp _ IH]; [reflexivity|].
  cbn [kept filter]. rewrite (parsed_row _ _ line event Hp).
  destruct (in_range startDate endDate event); now rewrite IH.
Qed.

Lemma events_route_valid (start_date end_date : JsValue) (s e : Z) (w : World) :
  parseDateInput start_date "start_date" = ValidDate s ->
  parseDateInput end_date "end_date" = ValidDate e ->
  s <= e ->
  events_route start_date end_date w =
    (events <- readEventsBetween s e ;;
     ret (mkResponse 200 (EventsBody (Z.of_nat (List.length events)) events))) w.
Proof.
  intros Hs He Hle. unfold events_route. rewrite Hs, He. cbn [dateError dateValue].
  apply Z.ltb_ge in Hle. now rewrite Hle.
Qed.

Lemma events_route_invalid (start_date end_date : JsValue) (w : World) :
  is_blank start_date = true \/ is_blank end_date = true \/
  (exists s e, parseDateInput start_date "start_date" = ValidDate s /\
               parseDateInput end_date "end_date" = ValidDate e /\ e < s) ->
  exists m,
    events_route start_date end_date w = (Return (mkResponse 400 (ErrorBody m)), w).
Proof.
  intros H. unfold events_route.
  destruct (parseDateInput start_date "start_date") as [|m1|s] eqn:Hs;
    destruct (parseDateInput end_date "end_date") as [|m2|e] eqn:He;
    cbn [dateError dateValue]; try (eexists; reflexivity).
  destruct H as [H|[H|(s' & e' & [= <-] & [= <-] & Hlt)]].
  - unfold parseDateInput in Hs. rewrite H in Hs. discriminate Hs.
  - unfold parseDateInput in He. rewrite H in He. discriminate He.
  - apply Z.ltb_lt in Hlt. rewrite Hlt. eexists; reflexivity.
Qed.

(** C1. After well-formed events have been appended to a journal that did
    not exist, every write succeeding, the query for [startDate, endDate]
    returns exactly the appended events whose time stamp lies in the
    inclusive range, in the order of the appends.  The route answers a
    request whose bounds are valid dates with [start <= end] by the result
    of that query; when a bound is missing or [start > end] it answers with
    status 400 and leaves the world untouched: the journal is neither
    looked for nor read. *)
Theorem events_query :
  (forall events w startDate endDate,
     events_log w = None ->
     (forall k, appendFileSync_ok env k = true) ->
     Forall well_formed events ->
     result (readEventsBetween startDate endDate) (exec (append_all events) w)
     = Return (filter (in_range startDate endDate) events)) /\
  (forall event startDate endDate,
     in_range startDate endDate event = true <->
     exists ts, event_time event = Some ts /\ startDate <= ts <= endDate) /\
  (forall start_date end_date s e w,
     parseDateInput start_date "start_date" = ValidDate s ->
     parseDateInput end_date "end_date" = ValidDate e ->
     s <= e ->
     exists events,
       result (readEventsBetween s e) w = Return events /\
       result (events_route start_date end_date) w
       = Return (mkResponse 200 (EventsBody (Z.of_nat (List.length events)) events))) /\
  (forall start_date end_date w,
     is_blank start_date = true \/ is_blank end_date = true \/
     (exists s e, parseDateInput start_date "start_date" = ValidDate s /\
                  parseDateInput end_date "end_date" = ValidDate e /\ e < s) ->
     exists m,
       events_route start_date end_date w
       = (Return (mkResponse 400 (ErrorBody m)), w)).
Proof.
  split; [|split; [|split]].
  - intros events w s e Hw Hok Hwf.
    destruct (well_formed_lines events Hwf) as (lines & H1 & H2 & H3 & H4).
    rewrite readEventsBetween_content.
    rewrite (append_all_content events lines Hok H1), Hw. cbn [content_of append].
    rewrite rows_of_journal by assumption.
    rewrite filter_all by assumption.
    now rewrite (kept_parsed s e events lines H2).
  - intros event s e. unfold in_range.
    destruct (event_time event) as [ts|].
    + rewrite andb_true_iff, !Z.leb_le. split.
      * intros H. exists ts. auto.
      * intros (ts' & [= <-] & H). exact H.
    + split; [discriminate|]. intros (ts & H & _). discriminate H.
  - intros sd ed s e w Hs He Hle.
    rewrite (readEventsBetween_content s e w). eexists. split; [reflexivity|].
    unfold result. rewrite (events_route_valid sd ed s e w Hs He Hle).
    unfold bind.
    pose proof (readEventsBetween_content s e w) as Hr. unfold result in Hr.
    destruct (readEventsBetween s e w) as [[events|err] w']; cbn [fst] in Hr.
    + injection Hr as ->. reflexivity.
    + discriminate Hr.
  - apply events_route_invalid.
Qed.

(** ** Stopping and reconnecting *)

Lemma not_pending_after_clear (id : nat) (ts : list Timer) :
  existsb (fun t => (timer_id t =? id)%nat)
    (filter (fun t => negb (timer_id t =? id)%nat) ts) = false.
Proof.
  induction ts as [|t ts IH]; [reflexivity|].
  cbn [filter]. destruct (timer_id t =? id)%nat eqn:E; cbn [negb]; [exact IH|].
  cbn [existsb]. now rewrite E, IH.
Qed.

Lemma tracked_cleared (id : nat) (ts : list Timer) :
  forallb (fun t => (timer_id t =? id)%nat) ts = true ->
  filter (fun t => negb (timer_id t =? id)%nat) ts = [].
Proof.
  induction ts as [|t ts IH]; [reflexivity|].
  cbn [forallb filter]. intros H. apply andb_true_iff in H. destruct H as [E H].
  rewrite E. cbn [negb]. now apply IH.
Qed.

Lemma untracked_empty (ts : list Timer) :
  forallb (fun _ : Timer => false) ts = true -> ts = [].
Proof. destruct ts; [reflexivity|discriminate]. Qed.

(** What [clearReconnectTimer] leaves. *)
Lemma clearReconnectTimer_run (w : World) :
  clearReconnectTimer w =
    (Return tt,
     match reconnectTimer w with
     | Some id =>
         set_reconnectTimer None
           (set_timers
              (filter (fun t => negb (timer_id t =? id)%nat) (timers w)) w)
     | None => w
     end).
Proof.
  unfold clearReconnectTimer, clearTimeout. monad.
  destruct (reconnectTimer w); reflexivity.
Qed.

Lemma clearReconnectTimer_spec (w : World) :
  exists ts,
    clearReconnectTimer w = (Return tt, set_reconnectTimer None (set_timers ts w)) /\
    (forall id, reconnectTimer w = Some id ->
                existsb (fun t => (timer_id t =? id)%nat) ts = false) /\
    (timers_tracked w = true -> ts = []).
Proof.
  rewrite clearReconnectTimer_run. unfold timers_tracked.
  destruct (reconnectTimer w) as [id|] eqn:Hr.
  - eexists. split; [reflexivity|]. split.
    + intros id' [= <-]. apply not_pending_after_clear.
    + apply tracked_cleared.
  - exists (timers w). split; [|split].
    + destruct w. cbn in Hr. subst. reflexivity.
    + discriminate.
    + apply untracked_empty.
Qed.

Lemma fire_timer_cancelled (id : nat) (w : World) :
  pending id w = false -> fire_timer id w = (Return tt, w).
Proof. intros H. unfold fire_timer. monad. now rewrite H. Qed.

Lemma stop_spec (w : World) :
  exists ts,
    stop w =
      (Return tt,
       set_console (console w ++ ["WhatsApp service stopped"])
         (set_connected false
            (set_socket None
               (set_effects (effects w ++ closing (socket w))
                  (set_reconnectTimer None (set_timers ts w)))))) /\
    (forall id, reconnectTimer w = Some id ->
                existsb (fun t => (timer_id t =? id)%nat) ts = false) /\
    (timers_tracked w = true -> ts = []).
Proof.
  destruct (clearReconnectTimer_spec w) as (ts & Hrun & H1 & H2).
  exists ts. split; [|split; assumption].
  unfold stop. unfold bind at 1. rewrite Hrun. unfold closing. monad.
  destruct (socket w) as [so|]; [destruct (ws so)|]; monad;
    rewrite ?app_nil_r; reflexivity.
Qed.

Lemma connect_spec (forceNewLogin : bool) (w : World) :
  exists ts a c t sid u hasws,
    connect forceNewLogin w =
      (Return tt,
       set_socket (Some (mkSocket sid u hasws))
         (set_effects (effects w ++ [MakeSocket sid])
            (set_tick t
               (set_console c
                  (set_auth_dir a
                     (set_reconnectTimer None (set_timers ts w))))))) /\
    (forall id, reconnectTimer w = Some id ->
                existsb (fun t => (timer_id t =? id)%nat) ts = false) /\
    (timers_tracked w = true -> ts = []).
Proof.
  destruct (clearReconnectTimer_spec w) as (ts & Hrun & H1 & H2).
  exists ts.
  unfold connect. unfold bind at 1. rewrite Hrun. unfold resetAuthState.
  destruct forceNewLogin; monad;
    destruct (fetchLatestBaileysVersion_ok env (tick w)); monad;
    repeat eexists; assumption.
Qed.

(** What [stop] and [connect] do cancel.  [stop] returns with the timer
    handle null, no socket and [connected] false, having closed the session
    that was active, if any, and the reconnect timer it held is cancelled:
    it is no longer pending and its expiry does nothing; when the handle
    accounted for every pending timer, no timer is left.  A second [stop]
    changes nothing but the console line it writes.  [connect] likewise
    ends with the handle null and the held timer cancelled, so that the
    timer cannot fire once the new session has been opened.  A timer that
    the handle does not account for is out of their reach. *)
Theorem stop_cancels_reconnect (w : World) :
  let w' := exec stop w in
  result stop w = Return tt /\
  reconnectTimer w' = None /\ socket w' = None /\ connected w' = false /\
  effects w' = (effects w ++ closing (socket w))%list /\
  (forall id, reconnectTimer w = Some id ->
     pending id w' = false /\ fire_timer id w' = (Return tt, w')) /\
  (timers_tracked w = true -> timers w' = []) /\
  stop w' =
    (Return tt, set_console (console w' ++ ["WhatsApp service stopped"]) w') /\
  (forall forceNewLogin,
     let wc := exec (connect forceNewLogin) w in
     reconnectTimer wc = None /\
     (forall id, reconnectTimer w = Some id ->
        pending id wc = false /\ fire_timer id wc = (Return tt, wc)) /\
     (timers_tracked w = true -> timers wc = []) /\
     exists sid u hasws,
       socket wc = Some (mkSocket sid u hasws) /\
       effects wc = (effects w ++ [MakeSocket sid])%list).
Proof.
  cbv zeta.
  destruct (stop_spec w) as (ts & Hrun & H1 & H2).
  unfold exec, result. rewrite Hrun. fields.
  split; [reflexivity|]. split; [reflexivity|]. split; [reflexivity|].
  split; [reflexivity|]. split; [reflexivity|]. split; [|split; [|split]].
  - intros id Hid. assert (Hp : existsb (fun t => (timer_id t =? id)%nat) ts = false)
      by now apply H1.
    split; [exact Hp|]. now apply fire_timer_cancelled.
  - exact H2.
  - unfold stop, clearReconnectTimer. monad. reflexivity.
  - intros force.
    destruct (connect_spec force w)
      as (ts' & a & c & t & sid & u & hasws & Hc & H1' & H2').
    rewrite Hc. fields.
    split; [reflexivity|]. split; [|split].
    + intros id Hid.
      assert (Hp : existsb (fun t => (timer_id t =? id)%nat) ts' = false)
        by now apply H1'.
      split; [exact Hp|]. now apply fire_timer_cancelled.
    + exact H2'.
    + exists sid, u, hasws. split; reflexivity.
Qed.

(** The handle accounts for every pending timer initially, after [stop],
    after [connect], after the expiry of a timer, and after a
    [connection.update] that arrives while no timer is pending. *)
Lemma tracked_kept (w : World) :
  timers_tracked initial_world = true /\
  (timers_tracked w = true -> timers_tracked (exec stop w) = true) /\
  (forall forceNewLogin,
     timers_tracked w = true ->
     timers_tracked (exec (connect forceNewLogin) w) = true) /\
  (forall id,
     timers_tracked w = true -> timers_tracked (exec (fire_timer id) w) = true) /\
  (forall u,
     timers w = [] -> timers_tracked (exec (on_connection_update u) w) = true).
Proof.
  split; [reflexivity|]. split; [|split; [|split]].
  - intros H. destruct (stop_spec w) as (ts & Hrun & _ & H2).
    unfold exec. rewrite Hrun. unfold timers_tracked. fields.
    now rewrite (H2 H).
  - intros force H.
    destruct (connect_spec force w)
      as (ts & a & c & t & sid & u & hasws & Hc & _ & H2).
    unfold exec. rewrite Hc. unfold timers_tracked. fields. now rewrite (H2 H).
  - intros id H. unfold fire_timer, exec. unfold bind at 1, gets at 1.
    destruct (pending id w) eqn:Hp; [|exact H].
    unfold clearTimeout, bind at 1, modify at 1, try_catch.
    match goal with |- context [connect false ?x] =>
      destruct (connect_spec false x)
        as (ts & a & c & t & sid & u & hasws & Hc & _ & H2)
    end.
    rewrite Hc. unfold timers_tracked in *. fields. fields_in H2.
    rewrite H2; [reflexivity|].
    destruct (reconnectTimer w) as [id'|].
    + clear Hp H2 Hc. induction (timers w) as [|x l IH]; [reflexivity|].
      cbn [forallb filter] in *. apply andb_true_iff in H. destruct H as [E H].
      destruct (timer_id x =? id)%nat; cbn [negb forallb]; [now apply IH|].
      rewrite E. now apply IH.
    + apply untracked_empty in H. now rewrite H.
  - intros u Ht. unfold on_connection_update, exec.
    destruct (on_qr_update_shape u w) as (x & y & z & b & l & q & p & c & e & t & Hq).
    unfold bind at 1. rewrite Hq. unfold emission.
    destruct (is_open u) eqn:Ho.
    + assert (Hc : is_close u = false).
      { unfold is_open, is_close in *. now destruct (connection u) as [[]|]. }
      rewrite Hc. unfold when, bind, ret. rewrite on_open_run.
      match goal with |- context [pushEvent ?ty ?d ?x] =>
        destruct (pushEvent_shape ty d x) as (b' & l' & q' & p' & c' & e' & t' & ->)
      end.
      unfold timers_tracked, emission. fields. now rewrite Ht.
    + unfold when at 1. unfold bind at 1, ret at 1.
      destruct (is_close u); unfold when.
      * match goal with |- context [on_close ?cd ?x] =>
          destruct (on_close_run cd x) as (w2 & Hp & ->) end.
        match type of Hp with pushEvent ?ty ?d ?x = _ =>
          destruct (pushEvent_shape ty d x) as (b' & l' & q' & p' & c' & e' & t' & Hs)
        end.
        rewrite Hs in Hp. injection Hp as <-.
        unfold timers_tracked, emission.
        destruct (shouldReconnect (lastDisconnect_statusCode u)); fields;
          rewrite Ht; cbn [app forallb timer_id]; [|reflexivity].
        now rewrite Nat.eqb_refl.
      * unfold ret, timers_tracked. fields. now rewrite Ht.
Qed.

(** * Further properties of the code *)

(** ** The retained buffer *)

Lemma retained_bound (buffer : list JsValue) (event : JsValue) :
  0 <= EVENT_RETENTION cfg ->
  Z.of_nat (List.length buffer) <= EVENT_RETENTION cfg ->
  Z.of_nat (List.length (retained (buffer ++ [event]))) <= EVENT_RETENTION cfg.
Proof.
  intros H0 Hb. unfold retained.
  destruct (EVENT_RETENTION cfg <? Z.of_nat (List.length (buffer ++ [event]))) eqn:E.
  - rewrite length_app in *. cbn [List.length] in *.
    destruct buffer as [|x r]; cbn [app tl List.length] in *; [lia|].
    rewrite length_app. cbn [List.length]. lia.
  - now apply Z.ltb_ge in E.
Qed.

Lemma retained_suffix (buffer : list JsValue) :
  is_suffix (retained buffer) buffer.
Proof.
  unfold retained, is_suffix.
  destruct (EVENT_RETENTION cfg <? Z.of_nat (List.length buffer)).
  - destruct buffer as [|x r]; [now exists []|]. now exists [x].
  - now exists [].
Qed.

Lemma retained_newest (buffer : list JsValue) (event : JsValue) :
  1 <= EVENT_RETENTION cfg ->
  exists older, retained (buffer ++ [event]) = (older ++ [event])%list.
Proof.
  intros H1. unfold retained.
  destruct (EVENT_RETENTION cfg <? Z.of_nat (List.length (buffer ++ [event]))) eqn:E.
  - destruct buffer as [|x r]; cbn [app tl].
    + apply Z.ltb_lt in E. cbn in E. lia.
    + now exists r.
  - now exists buffer.
Qed.

(** X1. [pushEvent] keeps the buffer within [EVENT_RETENTION]: when the
    limit is not negative and the buffer is within it, the buffer after the
    call is within it too; the new buffer is the end of the old one followed
    by the new event, and with a limit of at least 1 the new event is its
    last element. *)
Theorem event_buffer_retention (eventType : string) (data : JsValue)
  (w : World) :
  0 <= EVENT_RETENTION cfg ->
  Z.of_nat (List.length (eventBuffer w)) <= EVENT_RETENTION cfg ->
  let event := mkEvent (now env (tick w)) eventType data in
  let w' := exec (pushEvent eventType data) w in
  Z.of_nat (List.length (eventBuffer w')) <= EVENT_RETENTION cfg /\
  is_suffix (eventBuffer w') (eventBuffer w ++ [event]) /\
  (1 <= EVENT_RETENTION cfg ->
   exists older, eventBuffer w' = (older ++ [event])%list).
Proof.
  intros H0 Hb. cbv zeta.
  destruct (pushEvent_emits_one eventType data w) as (-> & _).
  split; [now apply retained_bound|]. split; [apply retained_suffix|].
  apply retained_newest.
Qed.

(** ** The dispatcher *)




Lemma appendEvent_dispatcher (event : JsValue) (w : World) :
  queue (exec (appendEvent event) w) = queue w /\
  phase (exec (appendEvent event) w) = phase w.
Proof.
  destruct (appendEvent_shape event w) as (l & c & e & t & H).
  unfold exec. rewrite H. split; reflexivity.
Qed.


Lemma enqueue_settled (event : JsValue) (w : World) :
  dispatcher_settled w = true ->
  dispatcher_settled (exec (enqueue event) w) = true.
Proof.
  unfold enqueue. destruct (WEBHOOK_URL cfg =? "")%string; [auto|].
  unfold run, running, loop_head, dispatcher_settled.
  destruct w as [? ? ? ? ? ? ? ? ? ? q ph ? ? ? ? ? ? ?].
  monad. destruct ph; destruct q; cbn; auto; discriminate.
Qed.

Lemma resume_settled (e : Wake) (w : World) :
  dispatcher_settled w = true ->
  dispatcher_settled (exec (resume e) w) = true.
Proof.
  unfold resume, post_resolved, post_rejected, shift, loop_head,
    dispatcher_settled.
  destruct w as [? ? ? ? ? ? ? ? ? ? q ph ? ? ? ? ? ? ?].
  monad. destruct ph; destruct e; destruct q as [|item rest]; cbn; auto;
    try discriminate.
  - destruct rest; reflexivity.
  - destruct (WEBHOOK_MAX_RETRIES cfg <? attempt item + 1); cbn;
      [destruct rest|]; reflexivity.
Qed.

Lemma pushEvent_settled (eventType : string) (data : JsValue) (w : World) :
  dispatcher_settled w = true ->
  dispatcher_settled (exec (pushEvent eventType data) w) = true.
Proof.
  intros H. unfold pushEvent. monad.
  match goal with |- context [appendEvent ?ev ?x] =>
    pose proof (appendEvent_dispatcher ev x) as [Hq Hph];
    destruct (appendEvent_shape ev x) as (l & c & e & t & Ha)
  end.
  unfold exec in Hq, Hph. rewrite Ha in *. fields_in Hq. fields_in Hph.
  match goal with |- context [enqueue ?ev ?x] =>
    pose proof (enqueue_settled ev x) as Hs;
    destruct (enqueue_shape ev x) as (q & p & e' & t' & He)
  end.
  unfold exec in Hs. rewrite He in *. apply Hs.
  unfold dispatcher_settled in *. fields. exact H.
Qed.

(** X3. The worker of the dispatcher is idle exactly when the queue is
    empty, and this is kept by every enqueue, by every emitted event and by
    every resumption of the worker (a delivery that succeeded or failed, the
    end of a sleep): the worker never stops with an item left, and never
    runs on an empty queue. *)
Theorem dispatcher_never_stalls (w : World) :
  dispatcher_settled w = true ->
  (forall event, dispatcher_settled (exec (enqueue event) w) = true) /\
  (forall eventType data,
     dispatcher_settled (exec (pushEvent eventType data) w) = true) /\
  (forall wakes, dispatcher_settled (exec (resume_all wakes) w) = true).
Proof.
  intros H. split; [|split].
  - intros event. now apply enqueue_settled.
  - intros eventType data. now apply pushEvent_settled.
  - intros wakes. revert w H.
    induction wakes as [|e r IH]; intros w H; [exact H|].
    cbn [resume_all]. unfold exec, bind.
    pose proof (resume_settled e w H) as Hs. unfold exec in Hs.
    destruct (resume e w) as [[[]|err] w1]; cbn [snd] in *.
    + apply IH, Hs.
    + exact Hs.
Qed.

Lemma post_ok_full (w : World) (item : Item) (rest : list Item) :
  queue w = item :: rest -> phase w = Posting ->
  exists w',
    resume PostOk w = (Return tt, w') /\
    queue w' = rest /\
    phase w' = match rest with [] => Idle | _ :: _ => Posting end /\
    effects w' = (effects w ++ posts_of (firstn 1 rest))%list /\
    console w' = console w.
Proof.
  intros Hq Hp. unfold resume, bind at 1, gets at 1. rewrite Hp.
  rewrite post_resolved_shift, Hq. cbn [tl].
  destruct rest as [|next rest'].
  - rewrite loop_head_empty by reflexivity. eexists. split; [reflexivity|].
    fields. cbn. rewrite app_nil_r. auto.
  - rewrite (loop_head_nonempty _ next rest') by reflexivity.
    eexists. split; [reflexivity|]. fields. cbn. auto.
Qed.

Lemma drain (q : list Item) :
  forall w item,
    queue w = item :: q -> phase w = Posting ->
    exists w',
      resume_all (repeat PostOk (S (List.length q))) w = (Return tt, w') /\
      queue w' = [] /\ phase w' = Idle /\
      effects w' = (effects w ++ posts_of q)%list /\
      console w' = console w.
Proof.
  induction q as [|next rest IH]; intros w item Hq Hp.
  - destruct (post_ok_full w item [] Hq Hp) as (w' & Hr & Hq' & Hp' & He & Hc).
    exists w'. cbn [repeat List.length resume_all]. unfold bind, ret.
    rewrite Hr. cbn in He. rewrite app_nil_r in *. auto.
  - destruct (post_ok_full w item (next :: rest) Hq Hp)
      as (w1 & Hr & Hq1 & Hp1 & He1 & Hc1).
    destruct (IH w1 next Hq1 Hp1) as (w' & Hr' & Hq' & Hp' & He' & Hc').
    exists w'. split.
    + change (repeat PostOk (S (List.length (next :: rest))))
        with (PostOk :: repeat PostOk (S (List.length rest))).
      cbn [resume_all]. unfold bind at 1. rewrite Hr. exact Hr'.
    + repeat split; try assumption.
      * rewrite He', He1. cbn [firstn posts_of map]. now rewrite <- app_assoc.
      * now rewrite Hc'.
Qed.

Lemma enqueue_all_running (events : list JsValue) :
  WEBHOOK_URL cfg <> "" ->
  forall w,
    running w = true ->
    exists w' items,
      enqueue_all events w = (Return tt, w') /\
      queue w' = (queue w ++ items)%list /\
      posts_of items = map (HttpPost (WEBHOOK_URL cfg)) events /\
      phase w' = phase w /\ effects w' = effects w /\ console w' = console w.
Proof.
  intros Hu. induction events as [|event rest IH]; intros w Hr.
  - exists w, []. cbn [enqueue_all]. rewrite app_nil_r. repeat split.
  - cbn [enqueue_all]. unfold bind.
    rewrite (enqueue_running event w Hu Hr).
    match goal with |- context [enqueue_all rest ?x] =>
      destruct (IH x) as (w' & items & Hrun & Hq & Hp & Hph & He & Hc);
        [exact Hr|] end.
    exists w'. eexists. split; [exact Hrun|].
    fields_in Hq. fields_in Hph. fields_in He. fields_in Hc.
    split; [rewrite Hq, <- app_assoc; reflexivity|].
    cbn [app posts_of map url payload]. unfold posts_of in Hp. rewrite Hp.
    repeat split; assumption.
Qed.

(** X4. Delivery is first in, first out.  With a destination configured and
    the dispatcher idle on an empty queue, enqueuing a list of events and
    then having every delivery succeed issues exactly one request per event,
    in the order of the enqueues, and leaves the queue empty and the worker
    idle. *)
Theorem delivery_in_order (events : list JsValue) (w : World) :
  WEBHOOK_URL cfg <> "" -> queue w = [] -> phase w = Idle ->
  exists w',
    (enqueue_all events ;;
     resume_all (repeat PostOk (List.length events))) w = (Return tt, w') /\
    queue w' = [] /\ phase w' = Idle /\
    effects w' = (effects w ++ map (HttpPost (WEBHOOK_URL cfg)) events)%list /\
    console w' = console w.
Proof.
  intros Hu Hq Hp. destruct events as [|event rest].
  - exists w. cbn. rewrite app_nil_r. auto.
  - destruct (enqueue_idle event w Hu Hq Hp)
      as (w1 & Hr1 & Hq1 & Hp1 & He1 & Hc1).
    assert (Hrun : running w1 = true) by (unfold running; now rewrite Hp1).
    destruct (enqueue_all_running rest Hu w1 Hrun)
      as (w2 & items & Hr2 & Hq2 & Hposts & Hp2 & He2 & Hc2).
    rewrite Hq1 in Hq2. cbn [app] in Hq2. rewrite Hp1 in Hp2.
    assert (Hlen : List.length items = List.length rest).
    { apply (f_equal (@List.length _)) in Hposts.
      unfold posts_of in Hposts. now rewrite !length_map in Hposts. }
    destruct (drain items w2 _ Hq2 Hp2) as (w' & Hr' & Hq' & Hp' & He' & Hc').
    exists w'. split.
    + cbn [enqueue_all List.length]. unfold bind. rewrite Hr1, Hr2.
      rewrite <- Hlen. exact Hr'.
    + repeat split; try assumption.
      * rewrite He', He2, He1, Hposts. cbn [map]. now rewrite <- app_assoc.
      * now rewrite Hc', Hc2.
Qed.

(** X5. An item whose destination fails [k] times, [k] within the retry
    ceiling, and then succeeds: the item is posted [k + 1] times in all, it
    stays at the head of the queue through every failure and leaves it on
    the success only, nothing is logged as dropped, and the worker goes on
    with the next item or stops on an empty queue. *)
Theorem delivered_after_retries (w : World) (item : Item)
  (rest : list Item) (k : nat) :
  queue w = item :: rest -> phase w = Posting ->
  attempt item + Z.of_nat k <= WEBHOOK_MAX_RETRIES cfg ->
  (exists wk,
     resume_all (failures k) w = (Return tt, wk) /\
     queue wk = with_attempt (attempt item + Z.of_nat k) item :: rest) /\
  exists w',
    resume_all (failures k ++ [PostOk]) w = (Return tt, w') /\
    queue w' = rest /\
    phase w' = match rest with [] => Idle | _ :: _ => Posting end /\
    console w' = (console w ++ repeat "Webhook failed, retrying" k)%list /\
    effects w' =
      (effects w ++ repeat (HttpPost (url item) (payload item)) k
         ++ posts_of (firstn 1 rest))%list.
Proof.
  intros Hq Hp Ha.
  destruct (retries k w item rest Hq Hp Ha) as (wk & Hr & Hqk & Hpk & Hck & Hek).
  split; [exists wk; auto|].
  destruct (post_ok_full wk _ rest Hqk Hpk) as (w' & Hr' & Hq' & Hp' & He' & Hc').
  exists w'. split.
  - rewrite resume_all_app. unfold bind at 1. rewrite Hr.
    cbn [resume_all]. unfold bind, ret. now rewrite Hr'.
  - repeat split; try assumption.
    + now rewrite Hc', Hck.
    + rewrite He', Hek. now rewrite <- app_assoc.
Qed.

(** ** Backoff *)

(** X6. For a base and a maximum that are integers of magnitude below
    [2^53], the base not negative and positive when an attempt above 1024
    is considered, and for the same value of [Math.random()]: the delay
    does not decrease with the attempt number; every attempt number up to 1
    gives [min(max, base + jitter)]; and with a maximum that is not
    negative the delay is not negative. *)
Theorem backoff_grows (r : Q) (a b base max : Z) :
  is_Number r -> (0 <= r < 1)%Q ->
  0 <= base < 2 ^ 53 -> Z.abs max < 2 ^ 53 ->
  a <= b -> 1 <= base \/ b <= 1024 ->
  exists da db j,
    backoffMs r a (num base) (num max) = num da /\
    backoffMs r b (num base) (num max) = num db /\
    da <= db /\
    jitter r = num j /\
    (a <= 1 -> da = Z.min max (base + j)) /\
    (0 <= max -> 0 <= da).
Proof.
  intros Hr [H0 H1] Hb Hm Hab Hz.
  destruct (backoffMs_exact r a base max Hr H0 H1 Hb ltac:(lia) ltac:(lia))
    as (j & Hj & Hjr & Ea).
  destruct (backoffMs_exact r b base max Hr H0 H1 Hb ltac:(lia) Hz)
    as (j' & Hj' & _ & Eb).
  assert (j' = j) as -> by (rewrite Hj in Hj'; now injection Hj').
  exists (Z.min max (base * 2 ^ Z.max 0 (a - 1) + j)),
         (Z.min max (base * 2 ^ Z.max 0 (b - 1) + j)), j.
  split; [exact Ea|]. split; [exact Eb|].
  assert (Hp : 0 < 2 ^ Z.max 0 (a - 1)) by (apply pow2_pos; lia).
  assert (Hpow : 2 ^ Z.max 0 (a - 1) <= 2 ^ Z.max 0 (b - 1))
    by (apply Z.pow_le_mono_r; lia).
  split; [|split; [exact Hj|split]].
  - apply Z.min_le_compat_l. nia.
  - intros Ha. rewrite Z.max_l by lia. now rewrite Z.pow_0_r, Z.mul_1_r.
  - intros Hmax. apply Z.min_glb; nia.
Qed.

(** ** The [/events] route and the query *)

(** X7. The validation of [GET /events].  The route answers 400, without
    looking for the journal, when a bound is not a valid date, is blank, or
    [start > end], with the message of the first check that fails: the
    parse error of [start_date], else that of [end_date], else the request
    for both bounds, else the one about their order.  For two valid dates
    with [start <= end], and only then, it runs the query, on the two
    instants, and does nothing else: it answers 200 with the events and
    their number when the query returns them. *)
Theorem events_route_validates (start_date end_date : JsValue) (w : World) :
  let startDate := parseDateInput start_date "start_date" in
  let endDate := parseDateInput end_date "end_date" in
  let rejected msg :=
    events_route start_date end_date w
    = (Return (mkResponse 400 (ErrorBody msg)), w) in
  (forall v key m,
     parseDateInput v key = InvalidDate m ->
     is_blank v = false /\ Date_parse env (toString v) = None /\
     m = ("Invalid " ++ key ++ ". Use a valid ISO date string.")%string) /\
  (forall m, startDate = InvalidDate m -> rejected m) /\
  (forall m,
     (forall m', startDate <> InvalidDate m') -> endDate = InvalidDate m ->
     rejected m) /\
  ((startDate = NoDate /\ forall m, endDate <> InvalidDate m) \/
   (endDate = NoDate /\ forall m, startDate <> InvalidDate m) ->
   rejected "Both start_date and end_date are required query params.") /\
  (forall s e,
     startDate = ValidDate s -> endDate = ValidDate e -> e < s ->
     rejected "start_date must be less than or equal to end_date.") /\
  (forall s e,
     startDate = ValidDate s -> endDate = ValidDate e -> s <= e ->
     events_route start_date end_date w =
       (events <- readEventsBetween s e ;;
        ret (mkResponse 200
               (EventsBody (Z.of_nat (List.length events)) events))) w).
Proof.
  cbv zeta. split.
  { intros v key m. unfold parseDateInput.
    destruct (is_blank v); [discriminate|].
    destruct (Date_parse env (toString v)); [discriminate|].
    intros [= <-]. repeat split. }
  unfold events_route.
  destruct (parseDateInput start_date "start_date") as [|m1|s];
    destruct (parseDateInput end_date "end_date") as [|m2|e];
    cbn [dateError dateValue]; repeat split; intros;
    repeat match goal with
           | H : _ \/ _ |- _ => destruct H
           | H : _ /\ _ |- _ => destruct H
           end;
    try discriminate;
    try (match goal with
         | H : forall m, InvalidDate ?x <> InvalidDate m |- _ =>
             now contradiction (H x)
         end);
    repeat match goal with
           | H : ValidDate _ = ValidDate _ |- _ => injection H as H; subst
           | H : InvalidDate _ = InvalidDate _ |- _ => injection H as H; subst
           end;
    try reflexivity;
    match goal with
    | Hlt : ?e < ?s |- context [?e <? ?s] =>
        now replace (e <? s) with true by (symmetry; apply Z.ltb_lt; lia)
    | Hle : ?s <= ?e |- context [?e <? ?s] =>
        now replace (e <? s) with false by (symmetry; apply Z.ltb_ge; lia)
    end.
Qed.

Lemma kept_in_range (startDate endDate : Z) (rows : list string) :
  Forall (fun event => in_range startDate endDate event = true)
    (kept startDate endDate rows).
Proof.
  induction rows as [|row rest IH]; cbn [kept]; [constructor|].
  destruct (row_event startDate endDate row) as [parsed|] eqn:E; [|exact IH].
  constructor; [|exact IH].
  unfold row_event in E.
  destruct (JSON_parse env row) as [p|]; [|discriminate].
  destruct (get_prop p "timestamp") as [tsv|] eqn:Hg; [|discriminate].
  destruct (newDate tsv) as [ts|] eqn:Hd; [|discriminate].
  destruct ((startDate <=? ts) && (ts <=? endDate)) eqn:R; [|discriminate].
  injection E as <-. unfold in_range, event_time. now rewrite Hg, Hd.
Qed.

Lemma row_event_narrow (s e s' e' : Z) (row : string) :
  s' <= s -> e <= e' ->
  row_event s e row =
    match row_event s' e' row with
    | Some parsed => if in_range s e parsed then Some parsed else None
    | None => None
    end.
Proof.
  intros Hs He. unfold row_event, in_range, event_time.
  destruct (JSON_parse env row) as [p|]; [|reflexivity].
  destruct (get_prop p "timestamp") as [tsv|] eqn:Hg; [|reflexivity].
  destruct (newDate tsv) as [ts|] eqn:Hd; [|reflexivity].
  destruct ((s' <=? ts) && (ts <=? e')) eqn:W; [now rewrite Hg, Hd|].
  destruct ((s <=? ts) && (ts <=? e)) eqn:N; [|reflexivity].
  apply andb_true_iff in N. destruct N as [N1 N2].
  apply Z.leb_le in N1, N2.
  apply andb_false_iff in W. destruct W as [W|W]; apply Z.leb_gt in W; lia.
Qed.

Lemma kept_narrow (s e s' e' : Z) (rows : list string) :
  s' <= s -> e <= e' ->
  kept s e rows = filter (in_range s e) (kept s' e' rows).
Proof.
  intros Hs He. induction rows as [|row rest IH]; [reflexivity|].
  cbn [kept]. rewrite (row_event_narrow s e s' e' row Hs He).
  destruct (row_event s' e' row) as [p|]; [|exact IH].
  cbn [filter]. destruct (in_range s e p); now rewrite IH.
Qed.

(** X8. For any content of the journal, well formed or not, the query
    returns normally; every event it returns has a valid time stamp inside
    the range; a range with [start > end] returns nothing; and the query
    changes nothing of the world but the record of the calls made, in
    particular not the journal. *)
Theorem query_is_sound (startDate endDate : Z) (w : World) :
  exists events,
    result (readEventsBetween startDate endDate) w = Return events /\
    Forall (fun event =>
              exists ts, event_time event = Some ts /\
                         startDate <= ts <= endDate) events /\
    (endDate < startDate -> events = []) /\
    exists calls,
      exec (readEventsBetween startDate endDate) w
      = set_effects (effects w ++ calls) w.
Proof.
  rewrite readEventsBetween_content. eexists. split; [reflexivity|].
  split; [|split].
  - eapply Forall_impl; [|apply kept_in_range].
    intros event H. unfold in_range in H.
    destruct (event_time event) as [ts|]; [|discriminate].
    apply andb_true_iff in H. destruct H as [H1 H2].
    apply Z.leb_le in H1, H2. exists ts. auto.
  - intros Hlt.
    pose proof (kept_in_range startDate endDate
                  (filter nonempty (split_lines (content_of (events_log w)))))
      as H.
    destruct (kept startDate endDate _) as [|event rest]; [reflexivity|].
    inversion H as [|? ? Hx _]. unfold in_range in Hx.
    destruct (event_time event) as [ts|]; [|discriminate].
    apply andb_true_iff in Hx. destruct Hx as [Ha Hb].
    apply Z.leb_le in Ha, Hb. lia.
  - unfold exec. destruct (events_log w) as [content|] eqn:Hl.
    + rewrite (readEventsBetween_present _ _ w content Hl). eexists. reflexivity.
    + rewrite (readEventsBetween_missing _ _ w Hl). eexists. reflexivity.
Qed.

(** X9. Narrowing the range narrows the answer: the events a query returns
    for a range inside another one are those of the answer for the outer
    range whose time stamp lies in the inner range, in the same order. *)
Theorem query_narrows (s e s' e' : Z) (w : World) :
  s' <= s -> e <= e' ->
  exists outer,
    result (readEventsBetween s' e') w = Return outer /\
    result (readEventsBetween s e) w = Return (filter (in_range s e) outer).
Proof.
  intros Hs He. rewrite !readEventsBetween_content.
  eexists. split; [reflexivity|]. f_equal. now apply kept_narrow.
Qed.

(** X10. The journal is append-only for its readers.  When the journal
    holds complete lines, appending an event whose line is written does not
    change what a query returned before: the answer after the append is the
    answer before it, followed by the new event if its line yields one in
    the range. *)
Theorem append_keeps_history (event : JsValue) (line : string)
  (lines : list string) (startDate endDate : Z) (w : World) :
  events_log w = Some (journal_text lines) ->
  Forall (fun l => has_newline l = false) lines ->
  JSON_stringify env event = Some line -> has_newline line = false ->
  appendFileSync_ok env (tick w) = true ->
  exists before,
    result (readEventsBetween startDate endDate) w = Return before /\
    result (readEventsBetween startDate endDate) (exec (appendEvent event) w)
    = Return (before ++ kept startDate endDate (filter nonempty [line]))%list.
Proof.
  intros Hl Hnl Hs Hline Hok. rewrite !readEventsBetween_content.
  eexists. split; [reflexivity|]. f_equal.
  rewrite (appendEvent_success event line w Hs Hok), Hl. cbn [content_of].
  assert (Ht : (journal_text lines ++ line ++ nl)%string
               = journal_text (lines ++ [line])).
  { rewrite journal_text_app. cbn [journal_text].
    now rewrite string_app_nil_r. }
  rewrite Ht, !rows_of_journal.
  - rewrite filter_app. apply kept_app.
  - assumption.
  - apply Forall_app. split; [assumption|]. now constructor.
Qed.

(** ** The session *)

(** A [connection.update] never replaces the socket and never touches the
    credentials. *)
Lemma update_frame (u : Update) (w : World) :
  socket (exec (on_connection_update u) w) = socket w /\
  auth_dir (exec (on_connection_update u) w) = auth_dir w.
Proof.
  destruct (on_qr_update_shape u w) as (x & y & z & b & l & q & p & c & e & t & Hq).
  split; unfold on_connection_update, exec;
    unfold bind at 1; rewrite Hq; unfold emission;
    unfold is_open, is_close; destruct (connection u) as [[| |]|];
    unfold when, bind, ret; try reflexivity.
  - rewrite on_open_run.
    match goal with |- context [pushEvent ?ty ?d ?x] =>
      destruct (pushEvent_shape ty d x) as (b' & l' & q' & p' & c' & e' & t' & ->)
    end.
    reflexivity.
  - match goal with |- context [on_close ?cd ?x] =>
      destruct (on_close_run cd x) as (w2 & Hp & ->) end.
    match type of Hp with pushEvent ?ty ?d ?x = _ =>
      destruct (pushEvent_shape ty d x) as (b2 & l2 & q2 & p2 & c2 & e2 & t2 & Hs)
    end.
    rewrite Hs in Hp. injection Hp as <-. unfold emission.
    destruct (shouldReconnect _); reflexivity.
  - rewrite on_open_run.
    match goal with |- context [pushEvent ?ty ?d ?x] =>
      destruct (pushEvent_shape ty d x) as (b' & l' & q' & p' & c' & e' & t' & ->)
    end.
    reflexivity.
  - match goal with |- context [on_close ?cd ?x] =>
      destruct (on_close_run cd x) as (w2 & Hp & ->) end.
    match type of Hp with pushEvent ?ty ?d ?x = _ =>
      destruct (pushEvent_shape ty d x) as (b2 & l2 & q2 & p2 & c2 & e2 & t2 & Hs)
    end.
    rewrite Hs in Hp. injection Hp as <-. unfold emission.
    destruct (shouldReconnect _); reflexivity.
Qed.

Lemma connect_auth_dir (forceNewLogin : bool) (w : World) :
  auth_dir (exec (connect forceNewLogin) w)
  = if forceNewLogin then [] else auth_dir w.
Proof.
  unfold connect, exec. unfold bind at 1. rewrite clearReconnectTimer_run.
  unfold resetAuthState.
  destruct forceNewLogin; monad;
    destruct (fetchLatestBaileysVersion_ok env _); monad;
    destruct (reconnectTimer w); reflexivity.
Qed.

(** X11. Credentials survive every reconnect: [connect(false)], the expiry
    of a reconnect timer and every [connection.update] leave the credential
    directory as it is; only [connect(true)] empties it. *)
Theorem credentials_survive_reconnect (w : World) :
  auth_dir (exec (connect false) w) = auth_dir w /\
  auth_dir (exec (connect true) w) = [] /\
  (forall id, auth_dir (exec (fire_timer id) w) = auth_dir w) /\
  (forall u, auth_dir (exec (on_connection_update u) w) = auth_dir w).
Proof.
  split; [apply (connect_auth_dir false)|].
  split; [apply (connect_auth_dir true)|]. split.
  - intros id. unfold fire_timer, exec. unfold bind at 1, gets at 1.
    destruct (pending id w); [|reflexivity].
    unfold clearTimeout, bind at 1, modify at 1, try_catch.
    match goal with |- context [connect false ?x] =>
      pose proof (connect_auth_dir false x) as H;
      destruct (connect_spec false x)
        as (ts & a & c & t & sid & u & hasws & Hc & _)
    end.
    unfold exec in H. rewrite Hc in *. exact H.
  - intros u. apply update_frame.
Qed.

Lemma stop_socket (w : World) : socket (exec stop w) = None.
Proof.
  destruct (stop_spec w) as (ts & H & _). unfold exec. now rewrite H.
Qed.

(** X12. Once [stop] has run, a send fails with the not-connected error
    even if a [connection.update] arrives afterwards, an open included: the
    handler sets [connected] but there is no socket any more.  Nothing is
    sent and the world is left as the handler left it. *)
Theorem stopped_service_rejects_sends (w : World) (u : Update)
  (target msg base64 filename mimetype pollText pollOptions : JsValue) :
  not_a_string target = false -> not_a_string msg = false ->
  not_a_string base64 = false -> not_a_string filename = false ->
  not_a_string mimetype = false ->
  poll_shape_ok target pollText pollOptions = true ->
  let w' := exec (on_connection_update u) (exec stop w) in
  socket w' = None /\
  sendText target msg w' = (Throw notConnected, w') /\
  sendMedia target base64 filename mimetype w' = (Throw notConnected, w') /\
  sendPoll target pollText pollOptions w' = (Throw notConnected, w').
Proof.
  intros Ht Hm Hb Hf Hmi Hp. cbv zeta.
  assert (Hs : socket (exec (on_connection_update u) (exec stop w)) = None).
  { rewrite (proj1 (update_frame u (exec stop w))). apply stop_socket. }
  split; [exact Hs|]. split; [|split].
  - apply sendText_disconnected; auto.
  - apply sendMedia_disconnected; auto.
  - apply sendPoll_disconnected; auto.
Qed.



Lemma on_qr_update_exact (u : Update) (w : World) :
  exists y z b l q p c e t,
    on_qr_update u w =
      (Return tt,
       emission b l q p c e t
         (set_currentQr (qr_after u w)
            (set_currentQrDataUrl y (set_qrUpdatedAt z w)))).
Proof.
  unfold on_qr_update, emission, qr_after.
  destruct (qr u) as [s|]; [destruct (nonempty s)|].
  - unfold on_qr, on_qr_begin, on_qr_resume. monad.
    match goal with |- context [pushEvent ?ty ?d ?x] =>
      destruct (pushEvent_shape ty d x) as (b & l & q & p & c & e & t & ->) end.
    unfold emission. fields. repeat eexists.
  - destruct w. monad. repeat eexists.
  - destruct w. monad. repeat eexists.
Qed.

(** The QR code, the flag and the reason after a [connection.update]. *)
Lemma update_state (u : Update) (w : World) :
  let w' := exec (on_connection_update u) w in
  currentQr w' = (if is_open u then None else qr_after u w) /\
  connected w' =
    (if is_open u then true else if is_close u then false else connected w) /\
  lastDisconnectReason w' =
    (if is_open u then JNull
     else if is_close u
          then js_or (js_of_code (lastDisconnect_statusCode u)) (JStr "unknown")
          else lastDisconnectReason w) /\
  reconnectAttempts w' =
    (if is_open u then 0
     else if is_close u
          then if shouldReconnect (lastDisconnect_statusCode u)
               then reconnectAttempts w + 1 else reconnectAttempts w
          else reconnectAttempts w).
Proof.
  cbv zeta.
  destruct (on_qr_update_exact u w) as (y & z & b & l & q & p & c & e & t & Hq).
  repeat split; unfold on_connection_update, exec;
    unfold bind at 1; rewrite Hq; unfold emission, is_open, is_close;
    destruct (connection u) as [[| |]|]; unfold when, bind, ret;
    try reflexivity;
    try (rewrite on_open_run;
         match goal with |- context [pushEvent ?ty ?d ?x] =>
           destruct (pushEvent_shape ty d x)
             as (b' & l' & q' & p' & c' & e' & t' & ->)
         end; reflexivity);
    (match goal with |- context [on_close ?cd ?x] =>
       destruct (on_close_run cd x) as (w2 & Hp & ->) end;
     match type of Hp with pushEvent ?ty ?d ?x = _ =>
       destruct (pushEvent_shape ty d x)
         as (b2 & l2 & q2 & p2 & c2 & e2 & t2 & Hs)
     end;
     rewrite Hs in Hp; injection Hp as <-; unfold emission;
     destruct (shouldReconnect _); reflexivity).
Qed.

Lemma auth_qr_route_run (w : World) :
  auth_qr_route w =
    (Return
       (if has_text (currentQr w)
        then mkReply 200
               (JObj [("ok", JBool true);
                      ("connected", JBool (connected w));
                      ("qr", js_of_string (currentQr w));
                      ("qrDataUrl", js_of_string (currentQrDataUrl w));
                      ("updatedAt", js_of_string (qrUpdatedAt w))])
        else mkReply 404
               (JObj [("ok", JBool false);
                      ("message",
                       JStr "No QR code currently available. The session may already be authenticated.");
                      ("connected", JBool (connected w))])),
     w).
Proof.
  unfold auth_qr_route, getState, state_truthy. monad.
  cbn [opt_prop get_prop lookup_field String.eqb Ascii.eqb Bool.eqb].
  unfold has_text, nonempty.
  destruct (currentQr w) as [q|]; cbn [js_of_string truthy negb];
    [destruct (negb (q =? "")%string)|]; reflexivity.
Qed.

(** X14. [GET /auth/qr] follows the session and changes nothing.  After a
    [connection.update] that opens the session it answers 404 with
    [connected] true, whatever QR code the update or the state carried;
    after an update that is not an open and carries a non-empty QR code it
    answers 200 with that code. *)
Theorem auth_qr_follows_session (u : Update) (w : World) :
  let w' := exec (on_connection_update u) w in
  exists reply,
    auth_qr_route w' = (Return reply, w') /\
    (is_open u = true ->
     reply_status reply = 404 /\
     opt_prop (reply_json reply) "connected" = JBool true) /\
    (forall q,
       is_open u = false -> qr u = Some q -> q <> "" ->
       reply_status reply = 200 /\
       opt_prop (reply_json reply) "qr" = JStr q).
Proof.
  cbv zeta. destruct (update_state u w) as (Hqr & Hc & _).
  rewrite auth_qr_route_run. eexists. split; [reflexivity|]. split.
  - intros Ho. rewrite Ho in Hqr, Hc. rewrite Hqr, Hc. split; reflexivity.
  - intros q Ho Hq Hne. rewrite Ho in Hqr. unfold qr_after in Hqr.
    rewrite Hq in Hqr. unfold nonempty in Hqr.
    apply String.eqb_neq in Hne. rewrite Hne in Hqr. cbn [negb] in Hqr.
    rewrite Hqr. unfold has_text, nonempty. rewrite Hne. split; reflexivity.
Qed.

Lemma js_or_reason (code : option Z) :
  js_or (js_of_code code) (JStr "unknown") = reason_of code.
Proof.
  unfold js_or, reason_of. destruct code as [c|]; [|reflexivity].
  cbn [js_of_code truthy]. now destruct (c =? 0).
Qed.

Lemma health_route_run (w : World) :
  health_route w =
    (Return
       (mkReply 200
          (JObj [("ok", JBool true);
                 ("service", JStr "baileys-rest-service");
                 ("whatsapp",
                  JObj [("connected", JBool (connected w));
                        ("lastDisconnectReason", lastDisconnectReason w);
                        ("reconnectAttempts", JNum (reconnectAttempts w));
                        ("hasQr", JBool (has_text (currentQr w)));
                        ("me", me w)])])),
     w).
Proof.
  unfold health_route, getState, state_truthy. monad.
  cbn [opt_prop get_prop lookup_field String.eqb Ascii.eqb Bool.eqb].
  unfold has_text, nonempty. destruct (currentQr w); reflexivity.
Qed.

(** X15. After a [connection.update] that closes the session, [GET /health]
    answers 200 and reports [connected] false and, as the reason of the
    disconnect, the status code of the close, or ['unknown'] when the close
    carried no status code or the code 0; the route changes nothing. *)
Theorem health_reports_disconnect (u : Update) (w : World) :
  is_close u = true ->
  let w' := exec (on_connection_update u) w in
  exists reply,
    health_route w' = (Return reply, w') /\
    reply_status reply = 200 /\
    opt_prop (opt_prop (reply_json reply) "whatsapp") "connected" = JBool false /\
    opt_prop (opt_prop (reply_json reply) "whatsapp") "lastDisconnectReason"
    = reason_of (lastDisconnect_statusCode u).
Proof.
  intros Hc. cbv zeta. destruct (update_state u w) as (_ & Hcon & Hr & _).
  assert (Ho : is_open u = false).
  { unfold is_open, is_close in *. now destruct (connection u) as [[]|]. }
  rewrite Ho, Hc in Hcon, Hr. rewrite js_or_reason in Hr.
  rewrite health_route_run. eexists. split; [reflexivity|].
  cbn [reply_status reply_json opt_prop get_prop lookup_field String.eqb
       Ascii.eqb Bool.eqb].
  rewrite Hcon, Hr. repeat split.
Qed.

(** ** Timers that lose their handle *)

Lemma close_schedules (u : Update) (w : World) :
  is_close u = true ->
  shouldReconnect (lastDisconnect_statusCode u) = true ->
  exists delay,
    timers (exec (on_connection_update u) w)
    = (timers w ++ [mkTimer (next_timer w) delay])%list /\
    next_timer (exec (on_connection_update u) w) = S (next_timer w) /\
    reconnectTimer (exec (on_connection_update u) w) = Some (next_timer w).
Proof.
  intros Hc Hs.
  assert (H : exists delay w',
            on_connection_update u w = (Return tt, w') /\
            timers w' = (timers w ++ [mkTimer (next_timer w) delay])%list /\
            next_timer w' = S (next_timer w) /\
            reconnectTimer w' = Some (next_timer w)).
  { destruct (on_qr_update_shape u w)
      as (x & y & z & b & l & q & p & c & e & t & Hq).
    unfold on_connection_update. unfold bind at 1. rewrite Hq.
    assert (Ho : is_open u = false).
    { unfold is_open, is_close in *. now destruct (connection u) as [[]|]. }
    unfold emission. rewrite Ho, Hc. unfold when, bind, ret.
    match goal with |- context [on_close ?cd ?x] =>
      destruct (on_close_run cd x) as (w2 & Hp & ->) end.
    match type of Hp with pushEvent ?ty ?d ?x = _ =>
      destruct (pushEvent_shape ty d x) as (b2 & l2 & q2 & p2 & c2 & e2 & t2 & Hr)
    end.
    rewrite Hr in Hp. injection Hp as <-. unfold emission. rewrite Hs.
    eexists. eexists. split; [reflexivity|]. repeat split. }
  destruct H as (delay & w' & Hrun & H1 & H2 & H3).
  unfold exec. rewrite Hrun. exists delay. auto.
Qed.

Lemma stop_timers (w : World) :
  timers (exec stop w) =
    match reconnectTimer w with
    | Some id => filter (fun t => negb (timer_id t =? id)%nat) (timers w)
    | None => timers w
    end.
Proof.
  unfold stop, exec. unfold bind at 1. rewrite clearReconnectTimer_run.
  destruct (reconnectTimer w); destruct (socket w) as [so|] eqn:Hso;
    monad; rewrite ?Hso; try destruct (ws so); reflexivity.
Qed.

Lemma fire_pending_connects (id : nat) (w : World) :
  pending id w = true ->
  exists sid u hasws,
    socket (exec (fire_timer id) w) = Some (mkSocket sid u hasws).
Proof.
  intros Hp. unfold fire_timer, exec. unfold bind at 1, gets at 1. rewrite Hp.
  unfold clearTimeout, bind at 1, modify at 1, try_catch.
  match goal with |- context [connect false ?x] =>
    destruct (connect_spec false x)
      as (ts & a & c & t & sid & u & hasws & Hc & _)
  end.
  rewrite Hc. exists sid, u, hasws. reflexivity.
Qed.

(** X16. The close handler arms a new timer without cancelling the one it
    holds.  When two closes that call for a reconnect arrive one after the
    other, both timers are pending and the handle refers to the second; a
    [stop] then cancels the second only: the first is still pending, and
    when it expires it opens a new socket on the stopped service. *)
Theorem overwritten_timer_survives_stop (u1 u2 : Update) (w : World) :
  is_close u1 = true -> is_close u2 = true ->
  shouldReconnect (lastDisconnect_statusCode u1) = true ->
  shouldReconnect (lastDisconnect_statusCode u2) = true ->
  let first := next_timer w in
  let w2 := exec (on_connection_update u2) (exec (on_connection_update u1) w) in
  let w3 := exec stop w2 in
  reconnectTimer w2 = Some (S first) /\
  pending first w2 = true /\ pending (S first) w2 = true /\
  socket w3 = None /\ reconnectTimer w3 = None /\
  pending (S first) w3 = false /\ pending first w3 = true /\
  exists sid u hasws,
    socket (exec (fire_timer first) w3) = Some (mkSocket sid u hasws).
Proof.
  intros Hc1 Hc2 Hs1 Hs2. cbv zeta.
  destruct (close_schedules u1 w Hc1 Hs1) as (d1 & Ht1 & Hn1 & Hr1).
  destruct (close_schedules u2 (exec (on_connection_update u1) w) Hc2 Hs2)
    as (d2 & Ht2 & Hn2 & Hr2).
  rewrite Ht1, Hn1, <- app_assoc in Ht2. cbn [app] in Ht2. rewrite Hn1 in Hr2.
  set (w2 := exec (on_connection_update u2) (exec (on_connection_update u1) w)) in *.
  assert (Hp1 : pending (next_timer w) w2 = true).
  { unfold pending. rewrite Ht2, existsb_app. cbn [existsb timer_id].
    rewrite Nat.eqb_refl. now rewrite orb_true_r. }
  assert (Hp2 : pending (S (next_timer w)) w2 = true).
  { unfold pending. rewrite Ht2, existsb_app. cbn [existsb timer_id].
    rewrite Nat.eqb_refl. now rewrite !orb_true_r. }
  assert (Hp3 : pending (next_timer w) (exec stop w2) = true).
  { unfold pending. rewrite stop_timers, Hr2, Ht2, filter_app, existsb_app.
    cbn [filter timer_id].
    assert (E : (next_timer w =? S (next_timer w))%nat = false)
      by (apply Nat.eqb_neq; lia).
    rewrite E, Nat.eqb_refl. cbn [negb existsb timer_id].
    rewrite Nat.eqb_refl. now rewrite orb_true_r. }
  split; [exact Hr2|]. split; [exact Hp1|]. split; [exact Hp2|].
  split; [apply stop_socket|].
  destruct (stop_spec w2) as (ts & Hstop & H1 & _).
  split; [unfold exec; now rewrite Hstop|].
  split.
  - unfold pending. rewrite stop_timers, Hr2. apply not_pending_after_clear.
  - split; [exact Hp3|]. now apply fire_pending_connects.
Qed.

(** ** The handlers of messages *)










(** ** Sends that reach the socket *)

Lemma socket_sendMessage_run (jid : string) (c : Content) (w : World)
  (so : Socket) :
  socket w = Some so ->
  socket_sendMessage jid c w =
    (match sendMessage env (tick w) jid c with
     | Some sent => Return sent
     | None => Throw (mkError "sendMessage rejected" None)
     end, after_send so jid c w).
Proof.
  intros Hso. unfold socket_sendMessage, after_send.
  destruct w. cbn in Hso. subst. monad.
  destruct (sendMessage env _ jid c); reflexivity.
Qed.

Lemma sendText_open (s m : string) (w : World) (so : Socket) :
  s <> "" -> m <> "" -> socket w = Some so -> connected w = true ->
  sendText (JStr s) (JStr m) w =
    (sent <- socket_sendMessage (trim s) (CText m) ;;
     pushEvent "send.text" (JObj [("jid", JStr (trim s)); ("sent", sent)]) ;;
     ret (JObj [("jid", JStr (trim s)); ("sent", sent)])) w.
Proof.
  intros Hs Hm Hso Hc. unfold sendText.
  unfold bind at 1. rewrite normalizeTarget_ok by assumption.
  rewrite not_a_string_JStr by assumption.
  unfold when, ret. unfold bind at 1 2.
  rewrite (ensureConnected_ok w so) by assumption. reflexivity.
Qed.

Lemma sendMedia_open (s b f m : string) (w : World) (so : Socket) :
  s <> "" -> b <> "" -> f <> "" -> m <> "" ->
  socket w = Some so -> connected w = true ->
  sendMedia (JStr s) (JStr b) (JStr f) (JStr m) w =
    (sent <- socket_sendMessage (trim s) (CDocument b f m) ;;
     pushEvent "send.media"
       (JObj [("jid", JStr (trim s)); ("fileName", JStr f); ("mimetype", JStr m);
              ("messageId", opt_prop (opt_prop sent "key") "id")]) ;;
     ret (JObj [("jid", JStr (trim s)); ("fileName", JStr f);
                ("mimetype", JStr m); ("sent", sent)])) w.
Proof.
  intros Hs Hb Hf Hm Hso Hc. unfold sendMedia.
  unfold bind at 1. rewrite normalizeTarget_ok by assumption.
  rewrite !not_a_string_JStr by assumption.
  unfold when, ret. unfold bind at 1 2 3 4.
  rewrite (ensureConnected_ok w so) by assumption. reflexivity.
Qed.

(** X20. When the protocol layer rejects the send, the error reaches the
    caller of [sendText], [sendMedia] or [sendPoll] without a status code,
    and no [send.*] event is emitted: the call leaves the buffer, the
    journal and the webhook queue as they were, its only trace being the
    call to the socket. *)
Theorem rejected_send_emits_nothing (s : string) (w : World) (so : Socket) :
  s <> "" -> socket w = Some so -> connected w = true ->
  (forall m,
     m <> "" -> sendMessage env (tick w) (trim s) (CText m) = None ->
     exists e,
       sendText (JStr s) (JStr m) w
       = (Throw e, after_send so (trim s) (CText m) w) /\
       statusCode e = None) /\
  (forall b f m,
     b <> "" -> f <> "" -> m <> "" ->
     sendMessage env (tick w) (trim s) (CDocument b f m) = None ->
     exists e,
       sendMedia (JStr s) (JStr b) (JStr f) (JStr m) w
       = (Throw e, after_send so (trim s) (CDocument b f m) w) /\
       statusCode e = None) /\
  (forall q pollOptions,
     poll_shape_ok (JStr s) (JStr q) pollOptions = true ->
     (2 <= List.length (poll_options pollOptions))%nat ->
     sendMessage env (tick w) (trim s) (CPoll q (poll_options pollOptions) 1)
     = None ->
     exists e,
       sendPoll (JStr s) (JStr q) pollOptions w
       = (Throw e,
          after_send so (trim s) (CPoll q (poll_options pollOptions) 1) w) /\
       statusCode e = None).
Proof.
  intros Hs Hso Hc. split; [|split].
  - intros m Hm Hrej. rewrite (sendText_open s m w so) by assumption.
    unfold bind at 1. rewrite (socket_sendMessage_run _ _ w so Hso), Hrej.
    eexists. split; reflexivity.
  - intros b f m Hb Hf Hm Hrej.
    rewrite (sendMedia_open s b f m w so) by assumption.
    unfold bind at 1. rewrite (socket_sendMessage_run _ _ w so Hso), Hrej.
    eexists. split; reflexivity.
  - intros q pollOptions Hshape Hlen Hrej.
    destruct (sendPoll_open_prefix _ _ _ w so Hshape Hso Hc)
      as (s' & q' & [= <-] & [= <-] & ->).
    cbv zeta.
    assert (Hge : (Z.of_nat (List.length (poll_options pollOptions)) <? 2) = false)
      by (apply Z.ltb_ge; lia).
    rewrite Hge. unfold when, ret. unfold bind at 1 2.
    rewrite (socket_sendMessage_run _ _ w so Hso), Hrej.
    eexists. split; reflexivity.
Qed.


Lemma sendText_invalid (target msg : JsValue) (w : World) :
  not_a_string target = true \/ not_a_string msg = true ->
  exists e, sendText target msg w = (Throw e, w) /\ statusCode e = Some 400.
Proof.
  intros H. unfold sendText.
  destruct (not_a_string target) eqn:Ht.
  - unfold bind at 1. rewrite normalizeTarget_rejects by assumption.
    eexists. split; reflexivity.
  - destruct H as [H|H]; [discriminate H|].
    destruct (not_a_string_false _ Ht) as (s & -> & Hs).
    unfold bind at 1. rewrite normalizeTarget_ok by assumption.
    rewrite H. monad. eexists. split; reflexivity.
Qed.

(** X22. [POST /send/text] never throws and answers by the outcome of
    [sendText]: 400 when the target or the message is missing from the body
    or is not a non-empty string (a request without a body included), 503
    when both are valid and no session is open, 500 when the protocol layer
    rejects the send, and 200 with the result when it accepts it. *)
Theorem send_text_route_status (body : JsValue) (w : World) :
  let target := body_field body "target" in
  let msg := body_field body "message" in
  exists reply,
    result (send_text_route body) w = Return reply /\
    (not_a_string target = true \/ not_a_string msg = true ->
     reply_status reply = 400) /\
    (not_a_string target = false -> not_a_string msg = false ->
     (socket w = None \/ connected w = false -> reply_status reply = 503) /\
     (forall so,
        socket w = Some so -> connected w = true ->
        match sendMessage env (tick w) (trim (toString target))
                (CText (toString msg)) with
        | Some sent =>
            reply = ok_result (JObj [("jid", JStr (trim (toString target)));
                                     ("sent", sent)])
        | None => reply_status reply = 500
        end)).
Proof.
  cbv zeta. unfold send_text_route, result, try_catch.
  set (target := body_field body "target").
  set (msg := body_field body "message").
  destruct (not_a_string target) eqn:Ht; [|destruct (not_a_string msg) eqn:Hm].
  - destruct (sendText_invalid target msg w (or_introl Ht)) as (e & Hr & Hs).
    unfold bind. rewrite Hr. unfold error_handler, error_status, bind, log,
      modify, ret. rewrite Hs. eexists. split; [reflexivity|].
    split; [reflexivity|]. discriminate.
  - destruct (sendText_invalid target msg w (or_intror Hm)) as (e & Hr & Hs).
    unfold bind. rewrite Hr. unfold error_handler, error_status, bind, log,
      modify, ret. rewrite Hs. eexists. split; [reflexivity|].
    split; [reflexivity|]. discriminate.
  - destruct (not_a_string_false _ Ht) as (s & Es & Hs).
    destruct (not_a_string_false _ Hm) as (m & Em & Hm').
    rewrite Es, Em. cbn [toString].
    destruct (socket w) as [so|] eqn:Hso; [destruct (connected w) eqn:Hc|].
    + unfold bind at 1. rewrite (sendText_open s m w so) by assumption.
      unfold bind at 1. rewrite (socket_sendMessage_run _ _ w so Hso).
      destruct (sendMessage env (tick w) (trim s) (CText m)) as [sent|] eqn:Hsent.
      * unfold bind, ret.
        match goal with |- context [pushEvent ?ty ?d ?x] =>
          destruct (pushEvent_shape ty d x) as (b & l & q & p & c & e & t & ->)
        end.
        eexists. split; [reflexivity|].
        split; [intros [H|H]; discriminate H|]. intros _ _. split.
        -- intros [H|H]; discriminate H.
        -- intros so' [= <-] _. reflexivity.
      * unfold error_handler, error_status, bind, log, modify, ret.
        cbn [statusCode]. eexists. split; [reflexivity|].
        split; [intros [H|H]; discriminate H|]. intros _ _. split.
        -- intros [H|H]; discriminate H.
        -- intros so' [= <-] _. reflexivity.
    + unfold bind.
      rewrite (sendText_disconnected (JStr s) (JStr m) w) by
        (try apply not_a_string_JStr; auto).
      unfold error_handler, error_status, bind, log, modify, ret.
      eexists. split; [reflexivity|].
      split; [intros [H|H]; discriminate H|]. intros _ _. split.
      * intros _. reflexivity.
      * intros so' _ H. discriminate H.
    + unfold bind.
      rewrite (sendText_disconnected (JStr s) (JStr m) w) by
        (try apply not_a_string_JStr; auto).
      unfold error_handler, error_status, bind, log, modify, ret.
      eexists. split; [reflexivity|].
      split; [intros [H|H]; discriminate H|]. intros _ _. split.
      * intros _. reflexivity.
      * intros so' H. discriminate H.
Qed.

(** ** Trimming *)

Lemma trimEnd_idem (s : string) : trimEnd (trimEnd s) = trimEnd s.
Proof.
  induction s as [|c r IH]; [reflexivity|].
  cbn [trimEnd]. destruct (trimEnd r) as [|c' r'] eqn:E.
  - destruct (is_ws c) eqn:W; [reflexivity|]. cbn [trimEnd]. now rewrite W.
  - cbn [trimEnd]. cbn [trimEnd] in IH. rewrite IH. reflexivity.
Qed.

Lemma trimEnd_keeps_head (c : ascii) (r : string) :
  is_ws c = false -> exists r', trimEnd (String c r) = String c r'.
Proof.
  intros W. cbn [trimEnd]. destruct (trimEnd r) as [|c' r'].
  - rewrite W. now exists "".
  - now exists (String c' r').
Qed.

Lemma trimStart_head (s : string) :
  trimStart s = "" \/
  exists c r, trimStart s = String c r /\ is_ws c = false.
Proof.
  induction s as [|c r IH]; [now left|].
  cbn [trimStart]. destruct (is_ws c) eqn:W; [exact IH|].
  right. now exists c, r.
Qed.

Lemma trim_idem (s : string) : trim (trim s) = trim s.
Proof.
  unfold trim. destruct (trimStart_head s) as [E|(c & r & E & W)].
  - rewrite E. reflexivity.
  - rewrite E. destruct (trimEnd_keeps_head c r W) as (r' & E').
    rewrite E'. cbn [trimStart]. rewrite W. rewrite <- E'. apply trimEnd_idem.
Qed.

Lemma trimEnd_end (s : string) : ends_with_ws (trimEnd s) = false.
Proof.
  induction s as [|c r IH]; [reflexivity|].
  cbn [trimEnd]. destruct (trimEnd r) as [|c' r'] eqn:E.
  - destruct (is_ws c) eqn:W; [reflexivity|]. cbn. exact W.
  - exact IH.
Qed.

Lemma trim_trimmed (s : string) : trimmed (trim s).
Proof.
  unfold trimmed. split; [|split].
  - unfold trim. destruct (trimStart_head s) as [E|(c & r & E & W)].
    + rewrite E. reflexivity.
    + rewrite E. destruct (trimEnd_keeps_head c r W) as (r' & ->). exact W.
  - apply trimEnd_end.
  - apply trim_idem.
Qed.

Lemma poll_options_items (items : list JsValue) :
  Forall (fun o => o <> "" /\ trimmed o)
    (filter nonempty (map (fun option => trim (toString option)) items)) /\
  (List.length
     (filter nonempty (map (fun option => trim (toString option)) items))
   <= List.length items)%nat.
Proof.
  induction items as [|x r [IH1 IH2]]; [split; [constructor|apply le_n]|].
  cbn [map filter]. destruct (nonempty (trim (toString x))) eqn:N.
  - split.
    + constructor; [|exact IH1]. split.
      * unfold nonempty in N. apply negb_true_iff in N.
        now apply String.eqb_neq in N.
      * apply trim_trimmed.
    + cbn [List.length]. lia.
  - split; [exact IH1|]. cbn [List.length]. lia.
Qed.

(** X23. The effective options of a poll are never empty and neither begin
    nor end with white space, there are at most as many of them as entries
    given, and a value that is not an array has none; the JID that
    [normalizeTarget] returns neither begins nor ends with white space
    either. *)
Theorem effective_values_are_trimmed (target pollOptions : JsValue)
  (w : World) :
  Forall (fun o => o <> "" /\ trimmed o) (poll_options pollOptions) /\
  (List.length (poll_options pollOptions)
   <= List.length (array_items pollOptions))%nat /\
  (isArray pollOptions = false -> poll_options pollOptions = []) /\
  (forall jid w', normalizeTarget target w = (Return jid, w') -> trimmed jid).
Proof.
  unfold poll_options.
  destruct (poll_options_items (array_items pollOptions)) as [H1 H2].
  split; [exact H1|]. split; [exact H2|]. split.
  - destruct pollOptions; try reflexivity. discriminate.
  - intros jid w' H. unfold normalizeTarget in H.
    destruct (negb (truthy target) || negb (is_string target));
      [discriminate H|].
    injection H as <- _. apply trim_trimmed.
Qed.

(** ** Runs in which closes come apart *)

Lemma update_timers_unless_close (u : Update) (w : World) :
  is_close u = false ->
  timers (exec (on_connection_update u) w) = timers w /\
  reconnectTimer (exec (on_connection_update u) w) = reconnectTimer w.
Proof.
  intros Hc.
  assert (H : exists w',
            on_connection_update u w = (Return tt, w') /\
            timers w' = timers w /\ reconnectTimer w' = reconnectTimer w).
  { destruct (on_qr_update_shape u w)
      as (x & y & z & b & l & q & p & c & e & t & Hq).
    unfold on_connection_update. unfold bind at 1. rewrite Hq.
    unfold emission. rewrite Hc. destruct (is_open u); unfold when, bind, ret.
    - rewrite on_open_run.
      match goal with |- context [pushEvent ?ty ?d ?x] =>
        destruct (pushEvent_shape ty d x)
          as (b' & l' & q' & p' & c' & e' & t' & ->)
      end.
      eexists. split; [reflexivity|]. split; reflexivity.
    - eexists. split; [reflexivity|]. split; reflexivity. }
  destruct H as (w' & Hr & H1 & H2). unfold exec. rewrite Hr. auto.
Qed.

Lemma step_tracked (i : Input) (w : World) :
  timers_tracked w = true ->
  match i with
  | InUpdate u =>
      if is_close u
      then match timers w with [] => true | _ :: _ => false end
      else true
  | _ => true
  end = true ->
  timers_tracked (exec (step i) w) = true.
Proof.
  intros Ht Hcalm. destruct (tracked_kept w) as (_ & Hs & Hc & Hf & Hu).
  destruct i as [|force|id|u]; cbn [step].
  - now apply Hs.
  - now apply Hc.
  - now apply Hf.
  - destruct (is_close u) eqn:E.
    + apply Hu. now destruct (timers w).
    + destruct (update_timers_unless_close u w E) as [H1 H2].
      unfold timers_tracked in *. now rewrite H1, H2.
Qed.

(** X24. Along every run of stops, connects, timer expiries and connection
    updates that starts from the initial state and in which no close arrives
    while a reconnect timer is pending, the timer handle accounts for every
    pending timer; so a [stop] at the end of such a run leaves no timer
    pending. *)
Theorem timers_accounted_for (inputs : list Input) :
  closes_apart inputs initial_world = true ->
  timers_tracked (run_inputs inputs initial_world) = true /\
  timers (exec stop (run_inputs inputs initial_world)) = [].
Proof.
  intros H.
  assert (Ht : timers_tracked (run_inputs inputs initial_world) = true).
  { assert (G : forall w, timers_tracked w = true ->
                          closes_apart inputs w = true ->
                          timers_tracked (run_inputs inputs w) = true).
    { clear H. induction inputs as [|i rest IH]; intros w Hw Hc; [exact Hw|].
      cbn [closes_apart] in Hc. apply andb_true_iff in Hc. destruct Hc as [H1 H2].
      cbn [run_inputs]. apply IH; [now apply step_tracked|exact H2]. }
    apply G; [reflexivity|exact H]. }
  split; [exact Ht|].
  destruct (stop_spec (run_inputs inputs initial_world)) as (ts & Hr & _ & H2).
  unfold exec. rewrite Hr. cbn [snd]. fields. now apply H2.
Qed.

(** ** The QR code *)

Lemma on_qr_run (q : string) (w : World) :
  on_qr q w =
    pushEvent "auth.qr.updated"
      (JObj [("qrUpdatedAt", JStr (now env (tick w)))])
      (set_console (console w ++ ["QR updated, scan required"])
         (set_currentQrDataUrl (toDataURL env (S (tick w)) q)
            (set_tick (S (S (tick w)))
               (set_qrUpdatedAt (Some (now env (tick w)))
                  (set_currentQr (Some q) w))))).
Proof. reflexivity. Qed.





End Service.

(** * The statements on concrete inputs *)

(** Three events stamped 100, 200 and 300 are appended to a new journal;
    the query for [150, 300] returns the last two, in order. *)
Lemma events_query_witness :
  result (readEventsBetween demo_env 150 300)
    (exec (append_all demo_env
             [JObj [("timestamp", JStr "100")];
              JObj [("timestamp", JStr "200")];
              JObj [("timestamp", JStr "300")]]) initial_world)
  = Return [JObj [("timestamp", JStr "200")]; JObj [("timestamp", JStr "300")]].
Proof.
  assert (Hwf : forall ts, demo_parse ts = Some (JObj [("timestamp", JStr ts)]) ->
                           ts <> "" -> has_newline ts = false ->
                           well_formed demo_env (JObj [("timestamp", JStr ts)])).
  { intros ts Hp Hn Hl. exists ts. repeat split; assumption. }
  assert (Hall : Forall (well_formed demo_env)
                    [JObj [("timestamp", JStr "100")];
                     JObj [("timestamp", JStr "200")];
                     JObj [("timestamp", JStr "300")]]).
  { repeat constructor; apply Hwf; (reflexivity || discriminate). }
  exact (proj1 (events_query demo_env) _ initial_world 150 300 eq_refl
           (fun _ => eq_refl) Hall).
Defined.

(** A close with status 428 on a fresh service arms one reconnect timer
    and counts one attempt. *)
Lemma session_close_witness :
  is_close (mkUpdate (Some ConnClose) (Some 428) None) = true /\
  exists delay,
    timers (exec (on_connection_update demo_env demo_cfg
                    (mkUpdate (Some ConnClose) (Some 428) None)) initial_world)
    = [mkTimer 0 delay] /\
    reconnectAttempts
      (exec (on_connection_update demo_env demo_cfg
               (mkUpdate (Some ConnClose) (Some 428) None)) initial_world) = 1.
Proof.
  split; [reflexivity|].
  destruct (session_close demo_env demo_cfg
              (mkUpdate (Some ConnClose) (Some 428) None) initial_world eq_refl)
    as (_ & _ & _ & _ & _ & H).
  destruct H as (delay & Ht & _ & _ & Ha); [discriminate|].
  exists delay. split; assumption.
Defined.

(** The poll ["A", " "] sent while no session is open: one effective
    option, and the call fails with the not-connected error, not with a
    validation error. *)
Lemma sendPoll_few_options_disconnected :
  let call :=
    sendPoll demo_env demo_cfg (JStr "15550001111@s.whatsapp.net")
      (JStr "Lunch?") (JArr [JStr "A"; JStr " "]) in
  poll_options (JArr [JStr "A"; JStr " "]) = ["A"] /\
  result call initial_world = Throw notConnected /\
  ~ (exists e, result call initial_world = Throw e /\ statusCode e = Some 400).
Proof.
  cbv zeta. split; [reflexivity|]. split; [reflexivity|].
  intros (e & He & Hs). vm_compute in He. injection He as <-.
  discriminate Hs.
Qed.

(** With the ceiling at 8, the ninth failure drops the item and the next one
    is posted. *)
Lemma webhook_drop_witness :
  let first := mkItem "http://localhost:9000/hook" (JStr "a") 0 "1000" in
  let second := mkItem "http://localhost:9000/hook" (JStr "b") 0 "1000" in
  let w := set_phase Posting (set_queue [first; second] initial_world) in
  queue w = [first; second] /\ phase w = Posting /\ attempt first = 0 /\
  WEBHOOK_MAX_RETRIES demo_cfg = Z.of_nat 8 /\
  exists wd,
    resume_all demo_env demo_cfg (failures 8 ++ [PostFailed]) w = (Return tt, wd) /\
    queue wd = [second].
Proof.
  cbv zeta. repeat (split; [reflexivity|]).
  destruct (webhook_drop_after_ceiling demo_env demo_cfg
              (set_phase Posting
                 (set_queue
                    [mkItem "http://localhost:9000/hook" (JStr "a") 0 "1000";
                     mkItem "http://localhost:9000/hook" (JStr "b") 0 "1000"]
                    initial_world))
              (mkItem "http://localhost:9000/hook" (JStr "a") 0 "1000")
              [mkItem "http://localhost:9000/hook" (JStr "b") 0 "1000"] 8
              eq_refl eq_refl eq_refl eq_refl)
    as (_ & wd & Hr & Hq & _).
  exists wd. split; assumption.
Defined.

(** The three sends on a service that never connected. *)
Lemma send_while_disconnected_witness :
  (socket initial_world = None \/ connected initial_world = false) /\
  not_a_string (JStr "15550001111@s.whatsapp.net") = false /\
  not_a_string (JStr "hello") = false /\
  not_a_string (JStr "aGVsbG8=") = false /\
  not_a_string (JStr "a.txt") = false /\
  not_a_string (JStr "text/plain") = false /\
  poll_shape_ok (JStr "15550001111@s.whatsapp.net") (JStr "Lunch?")
    (JArr [JStr "A"; JStr "B"]) = true /\
  sendText demo_env demo_cfg (JStr "15550001111@s.whatsapp.net") (JStr "hello")
    initial_world = (Throw notConnected, initial_world).
Proof.
  split; [now left|]. repeat (split; [reflexivity|]).
  apply (send_while_disconnected demo_env demo_cfg initial_world
           (JStr "15550001111@s.whatsapp.net") (JStr "hello") (JStr "aGVsbG8=")
           (JStr "a.txt") (JStr "text/plain") (JStr "Lunch?")
           (JArr [JStr "A"; JStr "B"]) (or_introl eq_refl)
           eq_refl eq_refl eq_refl eq_refl eq_refl eq_refl).
Defined.

(** Third attempt, base 1000, maximum 30000, [Math.random()] one half. *)
Lemma backoff_delay_witness :
  is_Number (1 # 2) /\ (0 <= 1 # 2 < 1)%Q /\ 1 <= 3 /\
  0 <= 1000 < 2 ^ 53 /\ Z.abs 30000 < 2 ^ 53 /\ (1 <= 1000 \/ 3 <= 1024) /\
  exists j, 0 <= j < 200 /\
            backoffMs (1 # 2) 3 (num 1000) (num 30000)
            = num (Z.min 30000 (1000 * 2 ^ (3 - 1) + j)).
Proof.
  assert (Hd : is_Number (1 # 2)) by reflexivity.
  assert (Hr : (0 <= 1 # 2 < 1)%Q) by (split; [discriminate|reflexivity]).
  assert (Hn : 1 <= 3) by discriminate.
  assert (Hb : 0 <= 1000 < 2 ^ 53) by (split; [discriminate|reflexivity]).
  assert (Hm : Z.abs 30000 < 2 ^ 53) by reflexivity.
  assert (Hz : 1 <= 1000 \/ 3 <= 1024) by (left; discriminate).
  repeat (split; [assumption|]).
  apply (backoff_delay demo_env demo_cfg (1 # 2) 3 1000 30000 Hd Hr Hn Hb Hm Hz).
Defined.

(** With a base of 0 the product [0 * 2 ** 1024] is not a number, and so is
    the delay of attempt 1025: it is no [min(max, 0 + j)]. *)
Lemma backoff_zero_base_overflows :
  ~ exists j, 0 <= j < 200 /\
              backoffMs (1 # 2) 1025 (num 0) (num 30000)
              = num (Z.min 30000 (0 * 2 ^ (1025 - 1) + j)).
Proof.
  intros (j & _ & H).
  assert (E : backoffMs (1 # 2) 1025 (num 0) (num 30000) = NaN)
    by (vm_compute; reflexivity).
  rewrite E in H. discriminate.
Qed.


(** The target made of one space. *)
Lemma whitespace_target_witness :
  " " <> "" /\ all_ws " " = true /\
  normalizeTarget (JStr " ") initial_world = (Return "", initial_world).
Proof.
  assert (Hs : " " <> "") by discriminate.
  split; [exact Hs|]. split; [reflexivity|].
  apply (whitespace_target_accepted demo_env demo_cfg " " initial_world Hs eq_refl).
Defined.

(** With an open session the poll ["A", " ", "B"] is sent with the options
    ["A", "B"]. *)
Lemma sendPoll_validation_witness :
  let w := set_connected true (set_socket (Some (mkSocket 0 JNull true)) initial_world) in
  poll_shape_ok (JStr "x") (JStr "q") (JArr [JStr "A"; JStr " "; JStr "B"]) = true /\
  exists e,
    effects (exec (sendPoll demo_env demo_cfg (JStr "x") (JStr "q")
                     (JArr [JStr "A"; JStr " "; JStr "B"])) w)
    = SendMessage 0 "x" (CPoll "q" ["A"; "B"] 1) :: e.
Proof.
  cbv zeta. split; [reflexivity|].
  destruct (sendPoll_validation demo_env demo_cfg (JStr "x") (JStr "q")
              (JArr [JStr "A"; JStr " "; JStr "B"])
              (set_connected true
                 (set_socket (Some (mkSocket 0 JNull true)) initial_world)))
    as (_ & _ & H & _).
  destruct (H eq_refl) as (_ & Hopen).
  destruct (Hopen (mkSocket 0 JNull true) eq_refl eq_refl) as (_ & Hsent).
  destruct Hsent as (e & He); [apply le_n|].
  exists e. exact He.
Defined.

(** A journal whose second line is not JSON: the first and the third are
    returned. *)
Lemma journal_failures_witness :
  let w := set_events_log (Some (journal_text ["100"; "{oops"; "300"])) initial_world in
  corrupt demo_env "{oops" /\
  result (readEventsBetween demo_env 0 1000) w
  = Return [JObj [("timestamp", JStr "100")]; JObj [("timestamp", JStr "300")]].
Proof.
  cbv zeta. split; [exact I|].
  destruct (journal_failures_contained demo_env demo_cfg) as (_ & _ & _ & _ & H).
  assert (Hnl : Forall (fun l => has_newline l = false) (["100"] ++ "{oops" :: ["300"]))
    by (repeat constructor).
  exact (proj1 (H 0 1000
                  (set_events_log (Some (journal_text ["100"; "{oops"; "300"]))
                     initial_world)
                  (set_events_log (Some (journal_text ["100"; "300"])) initial_world)
                  ["100"] "{oops" ["300"] I Hnl eq_refl eq_refl)).
Defined.

(** C7. A pending reconnect that fires after [stop].  Two closes that call
    for a reconnect are handled one after the other, with no timer expiry
    and no [connect] between them: the handler arms a timer each time and
    keeps the handle of the second only.  [stop] then cancels the second;
    the first is still pending, and when it expires [connect(false)] runs
    and makes a new socket on the stopped service. *)
Theorem stop_misses_overwritten_timer :
  let u := mkUpdate (Some ConnClose) (Some 428) None in
  let w2 :=
    exec (on_connection_update demo_env demo_cfg u)
      (exec (on_connection_update demo_env demo_cfg u) initial_world) in
  let w3 := exec stop w2 in
  map timer_id (timers w2) = [0; 1]%nat /\ reconnectTimer w2 = Some 1%nat /\
  map timer_id (timers w3) = [0%nat] /\ reconnectTimer w3 = None /\
  socket w3 = None /\ connected w3 = false /\
  pending 0 w3 = true /\
  socket (exec (fire_timer demo_env 0) w3)
  = Some (mkSocket 9 (JObj [("id", JStr "15550001111@s.whatsapp.net")]) true).
Proof. cbv zeta. repeat split; vm_compute; reflexivity. Qed.

(** A service that connected and then lost its session has one reconnect
    pending; after [stop] it is not pending, no timer is left and its expiry
    does nothing. *)
Lemma stop_cancels_reconnect_witness :
  let w :=
    exec (on_connection_update demo_env demo_cfg
            (mkUpdate (Some ConnClose) (Some 428) None))
      (exec (connect demo_env false) initial_world) in
  reconnectTimer w = Some 0%nat /\ pending 0 w = true /\
  timers_tracked w = true /\
  pending 0 (exec stop w) = false /\
  timers (exec stop w) = [] /\
  fire_timer demo_env 0 (exec stop w) = (Return tt, exec stop w).
Proof.
  cbv zeta.
  split; [reflexivity|]. split; [reflexivity|]. split; [reflexivity|].
  destruct (stop_cancels_reconnect demo_env
              (exec (on_connection_update demo_env demo_cfg
                       (mkUpdate (Some ConnClose) (Some 428) None))
                 (exec (connect demo_env false) initial_world)))
    as (_ & _ & _ & _ & _ & Hfire & Hall & _).
  destruct (Hfire 0%nat eq_refl) as (Hp & Hf).
  split; [exact Hp|]. split; [exact (Hall eq_refl)|exact Hf].
Defined.

(** * The further properties on concrete inputs *)

Lemma event_buffer_retention_witness :
  0 <= EVENT_RETENTION demo_cfg /\
  Z.of_nat (List.length (eventBuffer initial_world)) <= EVENT_RETENTION demo_cfg /\
  Z.of_nat (List.length
              (eventBuffer (exec (pushEvent demo_env demo_cfg "send.text" JNull)
                              initial_world)))
  <= EVENT_RETENTION demo_cfg.
Proof.
  assert (H0 : 0 <= EVENT_RETENTION demo_cfg) by discriminate.
  assert (Hb : Z.of_nat (List.length (eventBuffer initial_world))
               <= EVENT_RETENTION demo_cfg) by discriminate.
  split; [exact H0|]. split; [exact Hb|].
  pose proof (event_buffer_retention demo_env demo_cfg "send.text" JNull
                initial_world H0 Hb) as H.
  cbv zeta in H. exact (proj1 H).
Defined.


Lemma dispatcher_never_stalls_witness :
  dispatcher_settled posting_world = true /\
  dispatcher_settled
    (exec (resume_all demo_env demo_cfg [PostFailed; SleepOver; PostOk])
       posting_world) = true.
Proof.
  split; [reflexivity|].
  exact (proj2 (proj2 (dispatcher_never_stalls demo_env demo_cfg posting_world
                         eq_refl)) [PostFailed; SleepOver; PostOk]).
Defined.

Lemma delivery_in_order_witness :
  WEBHOOK_URL demo_cfg <> "" /\ queue initial_world = [] /\
  phase initial_world = Idle /\
  exists w',
    effects w' =
      [HttpPost "http://localhost:9000/hook" (JStr "a");
       HttpPost "http://localhost:9000/hook" (JStr "b")] /\
    queue w' = [].
Proof.
  assert (Hu : WEBHOOK_URL demo_cfg <> "") by discriminate.
  split; [exact Hu|]. split; [reflexivity|]. split; [reflexivity|].
  destruct (delivery_in_order demo_env demo_cfg [JStr "a"; JStr "b"]
              initial_world Hu eq_refl eq_refl)
    as (w' & _ & Hq & _ & He & _).
  exists w'. split; [exact He|exact Hq].
Defined.

Lemma delivered_after_retries_witness :
  queue posting_world = [mkItem "http://localhost:9000/hook" (JStr "a") 0 "1000"] /\
  phase posting_world = Posting /\
  0 + Z.of_nat 3 <= WEBHOOK_MAX_RETRIES demo_cfg /\
  exists w',
    resume_all demo_env demo_cfg (failures 3 ++ [PostOk]) posting_world
    = (Return tt, w') /\
    queue w' = [] /\ phase w' = Idle.
Proof.
  assert (Ha : 0 + Z.of_nat 3 <= WEBHOOK_MAX_RETRIES demo_cfg) by discriminate.
  split; [reflexivity|]. split; [reflexivity|]. split; [exact Ha|].
  destruct (delivered_after_retries demo_env demo_cfg posting_world
              (mkItem "http://localhost:9000/hook" (JStr "a") 0 "1000") [] 3
              eq_refl eq_refl Ha)
    as (_ & w' & Hr & Hq & Hp & _).
  exists w'. auto.
Defined.

Lemma backoff_grows_witness :
  is_Number (1 # 2) /\ (0 <= 1 # 2 < 1)%Q /\ 0 <= 1000 < 2 ^ 53 /\
  Z.abs 30000 < 2 ^ 53 /\ 2 <= 5 /\ (1 <= 1000 \/ 5 <= 1024) /\
  exists da db,
    backoffMs (1 # 2) 2 (num 1000) (num 30000) = num da /\
    backoffMs (1 # 2) 5 (num 1000) (num 30000) = num db /\ da <= db.
Proof.
  assert (Hd : is_Number (1 # 2)) by reflexivity.
  assert (Hr : (0 <= 1 # 2 < 1)%Q) by (split; [discriminate|reflexivity]).
  assert (Hb : 0 <= 1000 < 2 ^ 53) by (split; [discriminate|reflexivity]).
  assert (Hm : Z.abs 30000 < 2 ^ 53) by reflexivity.
  assert (Hab : 2 <= 5) by discriminate.
  assert (Hz : 1 <= 1000 \/ 5 <= 1024) by (left; discriminate).
  repeat (split; [assumption|]).
  destruct (backoff_grows (1 # 2) 2 5 1000 30000 Hd Hr Hb Hm Hab Hz)
    as (da & db & j & Ha & Hb' & Hle & _).
  exists da, db. auto.
Defined.

Lemma query_narrows_witness :
  let w := set_events_log (Some (journal_text ["100"; "200"; "300"])) initial_world in
  0 <= 150 /\ 250 <= 1000 /\
  result (readEventsBetween demo_env 150 250) w
  = Return [JObj [("timestamp", JStr "200")]].
Proof.
  cbv zeta.
  assert (H0 : 0 <= 150) by discriminate.
  assert (H1 : 250 <= 1000) by discriminate.
  split; [exact H0|]. split; [exact H1|].
  destruct (query_narrows demo_env 150 250 0 1000
              (set_events_log (Some (journal_text ["100"; "200"; "300"]))
                 initial_world) H0 H1)
    as (outer & Ho & Hn).
  vm_compute in Ho. injection Ho as <-. exact Hn.
Defined.

Lemma append_keeps_history_witness :
  let w := set_events_log (Some (journal_text ["100"; "200"])) initial_world in
  let event := JObj [("timestamp", JStr "300")] in
  events_log w = Some (journal_text ["100"; "200"]) /\
  JSON_stringify demo_env event = Some "300" /\
  appendFileSync_ok demo_env (tick w) = true /\
  result (readEventsBetween demo_env 0 1000) (exec (appendEvent demo_env event) w)
  = Return [JObj [("timestamp", JStr "100")]; JObj [("timestamp", JStr "200")];
            JObj [("timestamp", JStr "300")]].
Proof.
  cbv zeta. repeat (split; [reflexivity|]).
  assert (Hnl : Forall (fun l => has_newline l = false) ["100"; "200"])
    by (repeat constructor).
  destruct (append_keeps_history demo_env (JObj [("timestamp", JStr "300")])
              "300" ["100"; "200"] 0 1000
              (set_events_log (Some (journal_text ["100"; "200"])) initial_world)
              eq_refl Hnl eq_refl eq_refl eq_refl)
    as (before & Hb & Ha).
  vm_compute in Hb. injection Hb as <-. exact Ha.
Defined.

Lemma stopped_service_witness :
  not_a_string (JStr "15550001111@s.whatsapp.net") = false /\
  not_a_string (JStr "hello") = false /\
  result (sendText demo_env demo_cfg (JStr "15550001111@s.whatsapp.net")
            (JStr "hello"))
    (exec (on_connection_update demo_env demo_cfg
             (mkUpdate (Some ConnOpen) None None)) (exec stop open_world))
  = Throw notConnected.
Proof.
  split; [reflexivity|]. split; [reflexivity|].
  pose proof (stopped_service_rejects_sends demo_env demo_cfg open_world
                (mkUpdate (Some ConnOpen) None None)
                (JStr "15550001111@s.whatsapp.net") (JStr "hello")
                (JStr "aGVsbG8=") (JStr "a.txt") (JStr "text/plain")
                (JStr "Lunch?") (JArr [JStr "A"; JStr "B"])
                eq_refl eq_refl eq_refl eq_refl eq_refl eq_refl) as H.
  cbv zeta in H. destruct H as (_ & H & _).
  unfold result. now rewrite H.
Defined.

Lemma health_reports_disconnect_witness :
  is_close (mkUpdate (Some ConnClose) None None) = true /\
  exists reply,
    result health_route
      (exec (on_connection_update demo_env demo_cfg
               (mkUpdate (Some ConnClose) None None)) open_world)
    = Return reply /\
    opt_prop (opt_prop (reply_json reply) "whatsapp") "lastDisconnectReason"
    = JStr "unknown".
Proof.
  split; [reflexivity|].
  pose proof (health_reports_disconnect demo_env demo_cfg
                (mkUpdate (Some ConnClose) None None) open_world eq_refl) as H.
  cbv zeta in H. destruct H as (reply & Hr & _ & _ & Hreason).
  exists reply. split; [unfold result; now rewrite Hr|exact Hreason].
Defined.

Lemma overwritten_timer_witness :
  let u := mkUpdate (Some ConnClose) (Some 428) None in
  let w3 :=
    exec stop
      (exec (on_connection_update demo_env demo_cfg u)
         (exec (on_connection_update demo_env demo_cfg u) initial_world)) in
  is_close u = true /\
  shouldReconnect demo_cfg (lastDisconnect_statusCode u) = true /\
  pending 0 w3 = true /\ pending 1 w3 = false.
Proof.
  cbv zeta. split; [reflexivity|]. split; [reflexivity|].
  pose proof (overwritten_timer_survives_stop demo_env demo_cfg
                (mkUpdate (Some ConnClose) (Some 428) None)
                (mkUpdate (Some ConnClose) (Some 428) None)
                initial_world eq_refl eq_refl eq_refl eq_refl) as H.
  cbv zeta in H. destruct H as (_ & _ & _ & _ & _ & H1 & H0 & _).
  split; [exact H0|exact H1].
Defined.




Lemma rejected_send_witness :
  "15550001111@s.whatsapp.net" <> "" /\
  socket open_world = Some (mkSocket 0 JNull true) /\
  connected open_world = true /\
  exists e w',
    sendText rejecting_env demo_cfg (JStr "15550001111@s.whatsapp.net")
      (JStr "hello") open_world = (Throw e, w') /\
    events_log w' = None /\ queue w' = [] /\ eventBuffer w' = [].
Proof.
  assert (Hs : "15550001111@s.whatsapp.net" <> "") by discriminate.
  assert (Hm : "hello" <> "") by discriminate.
  split; [exact Hs|]. split; [reflexivity|]. split; [reflexivity|].
  destruct (proj1 (rejected_send_emits_nothing rejecting_env demo_cfg
                     "15550001111@s.whatsapp.net" open_world
                     (mkSocket 0 JNull true) Hs eq_refl eq_refl)
              "hello" Hm eq_refl)
    as (e & Hr & _).
  exists e. eexists. split; [exact Hr|]. repeat split.
Defined.


(** The service connects, loses its session, reconnects when the timer
    expires, opens, loses its session again and is stopped. *)
Lemma timers_accounted_for_witness :
  let inputs :=
    [InConnect false;
     InUpdate (mkUpdate (Some ConnClose) (Some 428) None);
     InFire 0%nat;
     InUpdate (mkUpdate (Some ConnOpen) None None);
     InUpdate (mkUpdate (Some ConnClose) (Some 408) None)] in
  closes_apart demo_env demo_cfg inputs initial_world = true /\
  pending 1 (run_inputs demo_env demo_cfg inputs initial_world) = true /\
  timers (exec stop (run_inputs demo_env demo_cfg inputs initial_world)) = [].
Proof.
  cbv zeta. split; [reflexivity|]. split; [reflexivity|].
  exact (proj2 (timers_accounted_for demo_env demo_cfg
                  [InConnect false;
                   InUpdate (mkUpdate (Some ConnClose) (Some 428) None);
                   InFire 0%nat;
                   InUpdate (mkUpdate (Some ConnOpen) None None);
                   InUpdate (mkUpdate (Some ConnClose) (Some 408) None)]
                  eq_refl)).
Defined.
